(** * rftp: wire codec, gap queue and server session

    A shallow embedding of the Go package [rftp]:
    - the message codec (header, options and the five message bodies),
    - the client's chunk queue ([Gaps], [Top]) on top of [container/heap],
    - the server session: producer ([getResponse]), the rescheduler's
      handling of an ack, and the [Cleaner].

    Conventions.  Go's fixed-width unsigned integers are modelled as [Z] with
    the wrap-around written out ([u8], [u16], [u32], [u64]); a byte is a [Z]
    in [0, 256).  A call that can return an error or panic returns a
    [result]. *)

From Stdlib Require Import ZArith Lia Ascii.
From stdpp Require Import base numbers list option strings sorting gmap.
Local Open Scope Z_scope.

(** ** Results of Go calls *)

Inductive error : Type :=
| ErrOptionTooShort        (* "option too short" *)
| ErrDataSliceTooSmall     (* "data slice too small: expected %d, got %d" *)
| ErrMsgHeaderTooShort     (* "MsgHeader too short" *)
| ErrFileOffsetTooBig.     (* "file offset to big" *)

Inductive result (A : Type) : Type :=
| Ok (a : A)               (* the call returns, with a nil error if it has one *)
| Err (e : error)          (* the call returns a non-nil error *)
| Panic.                   (* run-time panic: index or slice bounds out of range *)
Arguments Ok {A} a.
Arguments Err {A} e.
Arguments Panic {A}.

#[global] Instance result_ret : MRet result := fun A a => Ok a.
#[global] Instance result_bind : MBind result := fun A B f r =>
  match r with
  | Ok a => f a
  | Err e => Err e
  | Panic => Panic
  end.

(** Monadic left fold: a [for ... range] loop whose body may fail. *)
Fixpoint foldM {A B : Type} (f : B -> A -> result B) (b : B) (l : list A)
  : result B :=
  match l with
  | [] => Ok b
  | x :: l' => b' ← f b x; foldM f b' l'
  end.

(** ** Fixed-width unsigned integers *)

Definition u8 (x : Z) : Z := x mod 2 ^ 8.
Definition u16 (x : Z) : Z := x mod 2 ^ 16.
Definition u32 (x : Z) : Z := x mod 2 ^ 32.
Definition u64 (x : Z) : Z := x mod 2 ^ 64.

Definition is_u8 (x : Z) : Prop := 0 <= x < 2 ^ 8.
Definition is_u16 (x : Z) : Prop := 0 <= x < 2 ^ 16.
Definition is_u32 (x : Z) : Prop := 0 <= x < 2 ^ 32.
Definition is_u64 (x : Z) : Prop := 0 <= x < 2 ^ 64.

(** ** Byte slices

    A Go slice has a length and a capacity.  An index expression [s[i]] is
    checked against the length, a slice expression [s[lo:hi]] against the
    capacity: re-slicing may expose bytes of the backing array that lie
    beyond the length.  [vis] holds the [len(s)] visible bytes and [spare]
    the bytes between length and capacity. *)

Record Slice : Type := mkSlice { vis : list Z; spare : list Z }.

Definition of_bytes (l : list Z) : Slice := mkSlice l [].

Definition slen (s : Slice) : nat := length (vis s).
Definition scap (s : Slice) : nat := (length (vis s) + length (spare s))%nat.

(** [s[i]] *)
Definition index (s : Slice) (i : nat) : result Z :=
  match vis s !! i with
  | Some b => Ok b
  | None => Panic
  end.

(** [s[lo:hi]] *)
Definition slice (s : Slice) (lo hi : nat) : result Slice :=
  if decide (lo <= hi <= scap s)%nat then
    Ok (mkSlice (take (hi - lo) (drop lo (vis s ++ spare s)))
                (drop hi (vis s ++ spare s)))
  else Panic.

(** [s[lo:]], that is [s[lo:len(s)]] *)
Definition slice_from (s : Slice) (lo : nat) : result Slice :=
  slice s lo (slen s).

(** [s[:hi]] *)
Definition slice_to (s : Slice) (hi : nat) : result Slice :=
  slice s 0 hi.

(** ** encoding/binary, big endian *)

(** The conversion [byte(v)] of an unsigned integer. *)
Definition byte_of (v : Z) : Z := Z.land v 255.

Definition PutUint16 (v : Z) : list Z :=
  [byte_of (Z.shiftr v 8); byte_of v].

Definition PutUint32 (v : Z) : list Z :=
  [byte_of (Z.shiftr v 24); byte_of (Z.shiftr v 16);
   byte_of (Z.shiftr v 8); byte_of v].

Definition PutUint64 (v : Z) : list Z :=
  [byte_of (Z.shiftr v 56); byte_of (Z.shiftr v 48);
   byte_of (Z.shiftr v 40); byte_of (Z.shiftr v 32);
   byte_of (Z.shiftr v 24); byte_of (Z.shiftr v 16);
   byte_of (Z.shiftr v 8); byte_of v].

(** [binary.BigEndian.Uint16(b)]: bounds check on [b[1]], then
    [uint16(b[1]) | uint16(b[0])<<8]. *)
Definition Uint16 (b : list Z) : result Z :=
  match b with
  | b0 :: b1 :: _ => Ok (Z.lor b1 (Z.shiftl b0 8))
  | _ => Panic
  end.

Definition Uint32 (b : list Z) : result Z :=
  match b with
  | b0 :: b1 :: b2 :: b3 :: _ =>
      Ok (Z.lor (Z.lor (Z.lor b3 (Z.shiftl b2 8)) (Z.shiftl b1 16))
                (Z.shiftl b0 24))
  | _ => Panic
  end.

Definition Uint64 (b : list Z) : result Z :=
  match b with
  | b0 :: b1 :: b2 :: b3 :: b4 :: b5 :: b6 :: b7 :: _ =>
      Ok (Z.lor (Z.lor (Z.lor (Z.lor (Z.lor (Z.lor (Z.lor
            b7 (Z.shiftl b6 8)) (Z.shiftl b5 16)) (Z.shiftl b4 24))
            (Z.shiftl b3 32)) (Z.shiftl b2 40)) (Z.shiftl b1 48))
            (Z.shiftl b0 56))
  | _ => Panic
  end.

(** ** Strings as byte sequences: [[]byte(s)] and [string(b)] *)

Fixpoint bytes_of_string (s : string) : list Z :=
  match s with
  | EmptyString => []
  | String a s' => Z.of_N (N_of_ascii a) :: bytes_of_string s'
  end.

Fixpoint string_of_bytes (l : list Z) : string :=
  match l with
  | [] => EmptyString
  | b :: l' => String (ascii_of_N (Z.to_N b)) (string_of_bytes l')
  end.

(** ** Messages (the codec with the ack number in the header) *)

Module Msg.

(** msgs types *)
Definition msgClientRequest : Z := 0.
Definition msgServerMetadata : Z := 1.
Definition msgServerPayload : Z := 2.
Definition msgClientAck : Z := 3.
Definition msgClose : Z := 4.

(** status, the server puts to metadata *)
Definition noErr : Z := 0.
Definition fileNotExistent : Z := 1.
Definition fileEmpty : Z := 2.
Definition accessDenied : Z := 3.

Record option_ : Type := mkOption {
  otype : Z;               (* uint8 *)
  value : list Z;          (* []byte *)
  olength : nat            (* length of the serialized struct in bytes *)
}.

Definition option_zero : option_ := mkOption 0 [] 0.

(** [option.UnmarshalBinary] *)
Definition option_UnmarshalBinary (o : option_) (data : Slice)
  : result option_ :=
  if decide (slen data < 2)%nat then Err ErrOptionTooShort else
  ot ← index data 0;
  valueLen ← index data 1;
  let len := (2 + Z.to_nat (u8 valueLen))%nat in
  if decide (slen data < len)%nat then Err ErrDataSliceTooSmall else
  v ← slice data 2 len;
  Ok (mkOption ot (vis v) len).

(** [option.MarshalBinary] *)
Definition option_MarshalBinary (o : option_) : result (list Z) :=
  Ok (otype o :: byte_of (Z.of_nat (length (value o))) :: value o).

Record msgHeader : Type := mkHeader {
  version : Z;             (* uint8 *)
  msgType : Z;             (* uint8 *)
  ackNum : Z;              (* uint8 *)
  optionLen : Z;           (* uint8 *)
  options : list option_;
  hdrLen : nat
}.

Definition msgHeader_zero : msgHeader := mkHeader 0 0 0 0 [] 0.

(** [msgHeader.MarshalBinary]: [vt := s.version<<4 ^ s.msgType] in uint8. *)
Definition msgHeader_MarshalBinary (s : msgHeader) : result (list Z) :=
  let vt := Z.lxor (u8 (Z.shiftl (version s) 4)) (msgType s) in
  let buf := [vt] in
  let buf := buf ++ [ackNum s] in
  let buf := buf ++ [optionLen s] in
  foldM (fun buf o => ob ← option_MarshalBinary o; Ok (buf ++ ob))
        buf (options s).

(** The option loop of [msgHeader.UnmarshalBinary]: [n] options are still to
    be read from [lens]; [os] are the entries of [s.options] filled so far. *)
Fixpoint unmarshal_options (n : nat) (lens : Slice) (os : list option_)
    (hl : nat) : result (list option_ * nat) :=
  match n with
  | O => Ok (os, hl)
  | S n' =>
      o ← option_UnmarshalBinary option_zero lens;
      lens' ← slice_from lens (olength o);
      unmarshal_options n' lens' (os ++ [o]) (hl + olength o)%nat
  end.

(** [msgHeader.UnmarshalBinary].  The guard compares the length with 2
    although the third byte is read. *)
Definition msgHeader_UnmarshalBinary (s : msgHeader) (data : Slice)
  : result msgHeader :=
  if decide (slen data < 2)%nat then Err ErrMsgHeaderTooShort else
  vt ← index data 0;
  let version := Z.shiftr (Z.land vt 240) 4 in
  let msgType := Z.land vt 15 in
  an ← index data 1;
  ol ← index data 2;
  lens ← slice_from data 3;
  '(os, hl) ← unmarshal_options (Z.to_nat (u8 ol)) lens [] 3%nat;
  Ok (mkHeader version msgType an ol
        (if decide (0 < ol) then os else options s) hl).

Record fileDescriptor : Type := mkFile {
  fd_offset : Z;           (* uint64 *)
  fileName : string
}.

Record clientRequest : Type := mkRequest {
  cr_maxTransmissionRate : Z;   (* uint32 *)
  files : list fileDescriptor
}.

Definition clientRequest_zero : clientRequest := mkRequest 0 [].

Definition maxFileOffset : Z := 2 ^ 56 - 1.

(** make offset BigEndian and cut off the first (most significant) byte *)
Definition sevenByteOffset (offset : Z) : result (list Z) :=
  Ok (drop 1 (PutUint64 offset)).

(** pad 7 byte with another zero byte to make reading easy *)
Definition uintOffset (seven : list Z) : result Z :=
  Uint64 (0 :: seven).

(** [clientRequest.MarshalBinary] *)
Definition clientRequest_MarshalBinary (s : clientRequest)
  : result (list Z) :=
  let buf := PutUint32 (cr_maxTransmissionRate s) in
  let buf := buf ++ PutUint16 (u16 (Z.of_nat (length (files s)))) in
  foldM (fun buf file =>
           if decide (maxFileOffset < fd_offset file)
           then Err ErrFileOffsetTooBig else
           sb ← sevenByteOffset (fd_offset file);
           let buf := buf ++ sb in
           let pathBin := bytes_of_string (fileName file) in
           let buf := buf ++ PutUint16 (u16 (Z.of_nat (length pathBin))) in
           Ok (buf ++ pathBin))
        buf (files s).

(** The file loop of [clientRequest.UnmarshalBinary]; [9+pathLen] is computed
    in uint16. *)
Fixpoint unmarshal_files (n : nat) (dataLens : Slice)
  : result (list fileDescriptor) :=
  match n with
  | O => Ok []
  | S n' =>
      ob ← slice_to dataLens 7;
      off ← uintOffset (vis ob);
      pb ← slice dataLens 7 9;
      pathLen ← Uint16 (vis pb);
      let e := Z.to_nat (u16 (9 + pathLen)) in
      nb ← slice dataLens 9 e;
      dataLens' ← slice_from dataLens e;
      fs ← unmarshal_files n' dataLens';
      Ok (mkFile off (string_of_bytes (vis nb)) :: fs)
  end.

(** [clientRequest.UnmarshalBinary] *)
Definition clientRequest_UnmarshalBinary (s : clientRequest) (data : Slice)
  : result clientRequest :=
  rb ← slice_to data 4;
  rate ← Uint32 (vis rb);
  nb ← slice data 4 6;
  numFiles ← Uint16 (vis nb);
  if decide (numFiles = 0) then Ok (mkRequest rate (files s)) else
  dataLens ← slice_from data 6;
  fs ← unmarshal_files (Z.to_nat numFiles) dataLens;
  Ok (mkRequest rate fs).

Record serverMetaData : Type := mkMeta {
  md_ackNum : Z;           (* uint8 *)
  status : Z;              (* MetaDataStatus, uint8 *)
  md_fileIndex : Z;        (* uint16 *)
  size : Z;                (* uint64 *)
  checkSum : list Z        (* [16]byte *)
}.

Definition serverMetaData_zero : serverMetaData :=
  mkMeta 0 0 0 0 (replicate 16 0).

(** [serverMetaData.MarshalBinary] *)
Definition serverMetaData_MarshalBinary (s : serverMetaData)
  : result (list Z) :=
  let buf := [0] in
  let buf := buf ++ [status s] in
  let buf := buf ++ PutUint16 (md_fileIndex s) in
  let buf := buf ++ PutUint64 (size s) in
  let buf := buf ++ checkSum s in
  Ok buf.

(** [for i, c := range cs { s.checkSum[i] = c }] on the 16-byte array *)
Fixpoint copy_checkSum (i : nat) (cs : list Z) (arr : list Z) : list Z :=
  match cs with
  | [] => arr
  | c :: cs' => copy_checkSum (S i) cs' (<[i := c]> arr)
  end.

(** [serverMetaData.UnmarshalBinary] *)
Definition serverMetaData_UnmarshalBinary (s : serverMetaData) (data : Slice)
  : result serverMetaData :=
  st ← index data 1;
  fb ← slice data 2 4;
  fi ← Uint16 (vis fb);
  sb ← slice data 4 12;
  sz ← Uint64 (vis sb);
  cs ← slice data 12 28;
  Ok (mkMeta (md_ackNum s) st fi sz (copy_checkSum 0 (vis cs) (checkSum s))).

Record serverPayload : Type := mkPayload {
  sp_fileIndex : Z;        (* uint16 *)
  sp_ackNumber : Z;        (* uint8 *)
  sp_offset : Z;           (* uint64 *)
  data : list Z            (* []byte *)
}.

Definition serverPayload_zero : serverPayload := mkPayload 0 0 0 [].

(** [serverPayload.MarshalBinary] *)
Definition serverPayload_MarshalBinary (s : serverPayload)
  : result (list Z) :=
  let buf := PutUint16 (sp_fileIndex s) in
  sb ← sevenByteOffset (sp_offset s);
  let buf := buf ++ sb in
  Ok (buf ++ data s).

(** [serverPayload.UnmarshalBinary] *)
Definition serverPayload_UnmarshalBinary (s : serverPayload) (d : Slice)
  : result serverPayload :=
  fb ← slice d 0 2;
  fi ← Uint16 (vis fb);
  ob ← slice d 2 9;
  off ← uintOffset (vis ob);
  if decide (9 < slen d)%nat then
    rest ← slice_from d 9;
    Ok (mkPayload fi (sp_ackNumber s) off (vis rest))
  else Ok (mkPayload fi (sp_ackNumber s) off (data s)).

Record resendEntry : Type := mkResend {
  re_fileIndex : Z;        (* uint16 *)
  re_offset : Z;           (* uint64 *)
  re_length : Z            (* uint8 *)
}.

Record clientAck : Type := mkAck {
  ackNumber : Z;           (* uint8 *)
  ca_fileIndex : Z;        (* uint16 *)
  ca_status : Z;           (* uint8 *)
  ca_maxTransmissionRate : Z;   (* uint32 *)
  ca_offset : Z;           (* uint64 *)
  resendEntries : list resendEntry
}.

Definition clientAck_zero : clientAck := mkAck 0 0 0 0 0 [].

(** [clientAck.MarshalBinary] *)
Definition clientAck_MarshalBinary (c : clientAck) : result (list Z) :=
  let buf := PutUint16 (ca_fileIndex c) in
  let buf := buf ++ [ca_status c] in
  let buf := buf ++ PutUint32 (ca_maxTransmissionRate c) in
  sb ← sevenByteOffset (ca_offset c);
  let buf := buf ++ sb in
  foldM (fun buf re =>
           let buf := buf ++ PutUint16 (re_fileIndex re) in
           sb ← sevenByteOffset (re_offset re);
           let buf := buf ++ sb in
           Ok (buf ++ [re_length re]))
        buf (resendEntries c).

(** The entry loop of [clientAck.UnmarshalBinary]: [n = len(reBytes)/10] is
    evaluated again in every iteration, on the shrinking [reBytes]. *)
Fixpoint unmarshal_resend (fuel : nat) (i : nat) (reBytes : Slice)
    (res : list resendEntry) : result (list resendEntry) :=
  match fuel with
  | O => Ok res
  | S fuel' =>
      if decide (i < slen reBytes / 10)%nat then
        fb ← slice_to reBytes 2;
        fi ← Uint16 (vis fb);
        ob ← slice reBytes 2 9;
        off ← uintOffset (vis ob);
        len ← index reBytes 9;
        reBytes' ← slice_from reBytes 10;
        unmarshal_resend fuel' (S i) reBytes' (res ++ [mkResend fi off len])
      else Ok res
  end.

(** [clientAck.UnmarshalBinary].  The loop runs at most [len(reBytes)/10]
    times, which is the fuel handed to [unmarshal_resend]. *)
Definition clientAck_UnmarshalBinary (c : clientAck) (d : Slice)
  : result clientAck :=
  fb ← slice d 0 2;
  fi ← Uint16 (vis fb);
  st ← index d 2;
  rb ← slice d 3 7;
  rate ← Uint32 (vis rb);
  ob ← slice d 7 14;
  off ← uintOffset (vis ob);
  if decide (14 < slen d)%nat then
    reBytes ← slice_from d 14;
    res ← unmarshal_resend (slen reBytes / 10) 0 reBytes (resendEntries c);
    Ok (mkAck (ackNumber c) fi st rate off res)
  else Ok (mkAck (ackNumber c) fi st rate off (resendEntries c)).

Record closeConnection : Type := mkClose {
  reason : Z               (* CloseConnectionReason, uint16 *)
}.

Definition closeConnection_zero : closeConnection := mkClose 0.

(** [closeConnection.MarshalBinary] *)
Definition closeConnection_MarshalBinary (c : closeConnection)
  : result (list Z) :=
  Ok (PutUint16 (reason c)).

(** [closeConnection.UnmarshalBinary] *)
Definition closeConnection_UnmarshalBinary (c : closeConnection) (d : Slice)
  : result closeConnection :=
  rb ← slice_to d 2;
  r ← Uint16 (vis rb);
  Ok (mkClose r).

(** *** connection.go: framing *)

Inductive message : Type :=
| MClientRequest (v : clientRequest)
| MClientAck (v : clientAck)
| MServerMetaData (v : serverMetaData)
| MServerPayload (v : serverPayload)
| MCloseConnection (v : closeConnection).

(** [msg.MarshalBinary()] through the [encoding.BinaryMarshaler] interface *)
Definition MarshalBinary (msg : message) : result (list Z) :=
  match msg with
  | MClientRequest v => clientRequest_MarshalBinary v
  | MClientAck v => clientAck_MarshalBinary v
  | MServerMetaData v => serverMetaData_MarshalBinary v
  | MServerPayload v => serverPayload_MarshalBinary v
  | MCloseConnection v => closeConnection_MarshalBinary v
  end.

(** [sendTo]: the bytes handed to [writer.Write].  The header carries an ack
    number for [clientAck] and [serverPayload] only. *)
Definition sendTo (msg : message) : result (list Z) :=
  let header := mkHeader 1 0 0 0 [] 0 in
  let header :=
    match msg with
    | MClientRequest _ => mkHeader 1 msgClientRequest 0 0 [] 0
    | MClientAck v => mkHeader 1 msgClientAck (ackNumber v) 0 [] 0
    | MServerMetaData _ => mkHeader 1 msgServerMetadata 0 0 [] 0
    | MServerPayload v => mkHeader 1 msgServerPayload (sp_ackNumber v) 0 [] 0
    | MCloseConnection _ => mkHeader 1 msgClose 0 0 [] 0
    end in
  hs ← msgHeader_MarshalBinary header;
  bs ← MarshalBinary msg;
  Ok (hs ++ bs).

Record packet : Type := mkPacket {
  os : list option_;
  p_data : Slice;
  p_ackNum : Z
}.

(** [udpConnection.receive] for one datagram: [msg] is the receive buffer,
    of which the first [n] bytes were read from the socket.  The header is
    decoded from the whole buffer and the body is [msg[header.hdrLen:n]]. *)
Definition receive (msg : list Z) (n : nat) : result (msgHeader * packet) :=
  header ← msgHeader_UnmarshalBinary msgHeader_zero (of_bytes msg);
  d ← slice (of_bytes msg) (hdrLen header) n;
  Ok (header, mkPacket (options header) d (ackNum header)).

(** The handlers [Server.Listen] registers, and what each decodes from a
    packet: [Server.handleRequest], [Server.handleACK] (which copies the
    header's ack number into the ack) and [Server.handleClose].  For any
    other type [receive] finds no handler and logs it. *)
Definition handle (ty : Z) (p : packet) : result (option message) :=
  if decide (ty = msgClientRequest) then
    cr ← clientRequest_UnmarshalBinary clientRequest_zero (p_data p);
    Ok (Some (MClientRequest cr))
  else if decide (ty = msgClientAck) then
    ack ← clientAck_UnmarshalBinary clientAck_zero (p_data p);
    let ack := mkAck (p_ackNum p) (ca_fileIndex ack) (ca_status ack)
                 (ca_maxTransmissionRate ack) (ca_offset ack)
                 (resendEntries ack) in
    Ok (Some (MClientAck ack))
  else if decide (ty = msgClose) then
    cl ← closeConnection_UnmarshalBinary closeConnection_zero (p_data p);
    Ok (Some (MCloseConnection cl))
  else Ok None.

(** [NewUDPConnection]: [bufferSize: 2048]. *)
Definition bufferSize : nat := 2048.

(** [msg := make([]byte, c.bufferSize)] and
    [n, addr, err := c.socket.ReadFromUDP(msg)]: a fresh buffer of zeros
    into which the datagram is copied, cut off at the size of the buffer;
    [n] is the number of bytes copied. *)
Definition ReadFromUDP (dgram : list Z) : list Z * nat :=
  let n := Nat.min (length dgram) bufferSize in
  (take n dgram ++ replicate (bufferSize - n) 0, n).

(** Sender to server: [sendTo] writes a datagram, [udpConnection.receive]
    reads it into its buffer and hands the packet to the handler of its
    type. *)
Definition transfer (msg : message)
  : result (msgHeader * option message) :=
  bs ← sendTo msg;
  let '(buf, n) := ReadFromUDP bs in
  '(header, p) ← receive buf n;
  m ← handle (msgType header) p;
  Ok (header, m).

End Msg.

(** ** Messages, the codec with the ack number in the body

    The second message file of the repository.  Its [ServerPayload],
    [ResendEntry] and [ClientAck] are the types the chunk queue and the
    server session refer to. *)

Module MsgV0.

Definition maxFileOffset : Z := 2 ^ 56 - 1.

(** make offset BigEndian and cut off the first (most significant) byte *)
Definition sevenByteOffset (offset : Z) : result (list Z) :=
  Ok (drop 1 (PutUint64 offset)).

(** pad 7 byte with another zero byte to make reading easy *)
Definition uintOffset (seven : list Z) : result Z :=
  Uint64 (0 :: seven).

Record ServerPayload : Type := mkPayload {
  fileIndex : Z;           (* uint16 *)
  ackNumber : Z;           (* uint8 *)
  offset : Z;              (* uint64 *)
  data : list Z            (* []byte *)
}.

#[global] Instance ServerPayload_inhabited : Inhabited ServerPayload :=
  populate (mkPayload 0 0 0 []).

(** [ServerPayload.MarshalBinary] *)
Definition ServerPayload_MarshalBinary (s : ServerPayload)
  : result (list Z) :=
  let buf := PutUint16 (fileIndex s) in
  let buf := buf ++ [ackNumber s] in
  sb ← sevenByteOffset (offset s);
  let buf := buf ++ sb in
  Ok (buf ++ data s).

(** [ServerPayload.UnmarshalBinary] *)
Definition ServerPayload_UnmarshalBinary (s : ServerPayload) (d : Slice)
  : result ServerPayload :=
  fb ← slice d 0 2;
  fi ← Uint16 (vis fb);
  an ← index d 2;
  ob ← slice d 3 10;
  off ← uintOffset (vis ob);
  if decide (10 < slen d)%nat then
    rest ← slice_from d 10;
    Ok (mkPayload fi an off (vis rest))
  else Ok (mkPayload fi an off (data s)).

Record ResendEntry : Type := mkResend {
  re_fileIndex : Z;        (* uint16 *)
  re_offset : Z;           (* uint64 *)
  re_length : Z            (* uint8 *)
}.

Record ClientAck : Type := mkAck {
  ca_ackNumber : Z;        (* uint8 *)
  ca_fileIndex : Z;        (* uint16 *)
  ca_status : Z;           (* uint8 *)
  ca_maxTransmissionRate : Z;   (* uint32 *)
  ca_offset : Z;           (* uint64 *)
  resendEntries : list ResendEntry
}.

Definition ClientAck_zero : ClientAck := mkAck 0 0 0 0 0 [].

(** [ClientAck.MarshalBinary].  Inside the loop over the resend entries the
    seven offset bytes are those of [c.offset], the ack's own offset. *)
Definition ClientAck_MarshalBinary (c : ClientAck) : result (list Z) :=
  let buf := [ca_ackNumber c] in
  let buf := buf ++ PutUint16 (ca_fileIndex c) in
  let buf := buf ++ [ca_status c] in
  let buf := buf ++ PutUint32 (ca_maxTransmissionRate c) in
  sb ← sevenByteOffset (ca_offset c);
  let buf := buf ++ sb in
  foldM (fun buf re =>
           let buf := buf ++ PutUint16 (re_fileIndex re) in
           sb ← sevenByteOffset (ca_offset c);
           let buf := buf ++ sb in
           Ok (buf ++ [re_length re]))
        buf (resendEntries c).

Fixpoint unmarshal_resend (fuel : nat) (i : nat) (reBytes : Slice)
    (res : list ResendEntry) : result (list ResendEntry) :=
  match fuel with
  | O => Ok res
  | S fuel' =>
      if decide (i < slen reBytes / 10)%nat then
        fb ← slice_to reBytes 2;
        fi ← Uint16 (vis fb);
        ob ← slice reBytes 2 9;
        off ← uintOffset (vis ob);
        len ← index reBytes 9;
        reBytes' ← slice_from reBytes 10;
        unmarshal_resend fuel' (S i) reBytes' (res ++ [mkResend fi off len])
      else Ok res
  end.

(** [ClientAck.UnmarshalBinary] *)
Definition ClientAck_UnmarshalBinary (c : ClientAck) (d : Slice)
  : result ClientAck :=
  an ← index d 0;
  fb ← slice d 1 3;
  fi ← Uint16 (vis fb);
  st ← index d 3;
  rb ← slice d 4 8;
  rate ← Uint32 (vis rb);
  ob ← slice d 8 15;
  off ← uintOffset (vis ob);
  if decide (15 < slen d)%nat then
    reBytes ← slice_from d 15;
    res ← unmarshal_resend (slen reBytes / 10) 0 reBytes (resendEntries c);
    Ok (mkAck an fi st rate off res)
  else Ok (mkAck an fi st rate off (resendEntries c)).

End MsgV0.

(** ** queue.go: the chunk queue *)

Module Queue.
Import MsgV0.

Record chunkQueue : Type := mkQueue {
  items : list ServerPayload;
  max : Z;                 (* uint64, filesize *)
  q_fileIndex : Z          (* uint16 *)
}.

Definition newChunkQueue (fi : Z) : chunkQueue := mkQueue [] 0 fi.

Definition with_items (c : chunkQueue) (l : list ServerPayload) : chunkQueue :=
  mkQueue l (max c) (q_fileIndex c).

(** Len is the number of elements in the collection. *)
Definition Len (c : chunkQueue) : nat := length (items c).

(** Less reports whether the element with index i should sort before the
    element with index j. *)
Definition Less (c : chunkQueue) (i j : nat) : bool :=
  bool_decide (offset (items c !!! i) < offset (items c !!! j)).

(** Swap swaps the elements with indexes i and j. *)
Definition Swap (c : chunkQueue) (i j : nat) : chunkQueue :=
  with_items c (<[j := items c !!! i]> (<[i := items c !!! j]> (items c))).

Definition Push (c : chunkQueue) (x : ServerPayload) : chunkQueue :=
  with_items c (items c ++ [x]).

(** [Pop]: the last item and the queue without it; called on a non-empty
    queue only. *)
Definition Pop (c : chunkQueue) : ServerPayload * chunkQueue :=
  let n := Len c in
  (items c !!! (n - 1)%nat, with_items c (take (n - 1) (items c))).

(** *** container/heap over the queue *)

(** [heap.up]: every iteration moves [j] to its parent, so [j] iterations
    are enough; the fuel given by the callers is [Len]. *)
Fixpoint up (fuel : nat) (c : chunkQueue) (j : nat) : chunkQueue :=
  match fuel with
  | O => c
  | S fuel' =>
      let i := ((j - 1) / 2)%nat in        (* parent *)
      if bool_decide (i = j) || negb (Less c j i) then c
      else up fuel' (Swap c i j) i
  end.

(** [heap.down]: every iteration moves [i] to a child below [n]. *)
Fixpoint down (fuel : nat) (c : chunkQueue) (i n : nat) : chunkQueue :=
  match fuel with
  | O => c
  | S fuel' =>
      let j1 := (2 * i + 1)%nat in
      if bool_decide (n <= j1)%nat then c else
      let j :=
        if bool_decide (j1 + 1 < n)%nat && Less c (j1 + 1) j1
        then (j1 + 1)%nat      (* right child *)
        else j1 in             (* left child *)
      if negb (Less c j i) then c
      else down fuel' (Swap c i j) j n
  end.

(** [heap.Init]: [for i := n/2 - 1; i >= 0; i-- { down(h, i, n) }] *)
Definition heap_Init (c : chunkQueue) : chunkQueue :=
  let n := Len c in
  foldl (fun c i => down n c i n) c (reverse (seq 0 (n / 2))).

(** [heap.Push] *)
Definition heap_Push (c : chunkQueue) (x : ServerPayload) : chunkQueue :=
  let c := Push c x in
  up (Len c) c (Len c - 1).

(** [heap.Pop] *)
Definition heap_Pop (c : chunkQueue) : ServerPayload * chunkQueue :=
  let n := (Len c - 1)%nat in
  let c := Swap c 0 n in
  let c := down (Len c) c 0 n in
  Pop c.

(** [sort.Sort(c)]: the items in ascending order of their offsets.  Go's sort
    is not stable; the order among items of equal offset does not reach any
    result below, which read offsets only. *)
Definition offset_le (a b : ServerPayload) : Prop := offset a <= offset b.

#[global] Instance offset_le_dec : RelDecision offset_le :=
  fun a b => Z_le_dec (offset a) (offset b).

Definition sort_Sort (c : chunkQueue) : chunkQueue :=
  with_items c (merge_sort offset_le (items c)).

(** *** Gaps *)

(** The inner loop of [Gaps]:
    [for i < c.Len()-1 { if c.items[i].offset > first { break }; first++; i++ }].
    Every iteration increments [i]; [Len] iterations always suffice. *)
Fixpoint skip_received (fuel : nat) (c : chunkQueue) (first : Z) (i : nat)
  : Z * nat :=
  match fuel with
  | O => (first, i)
  | S fuel' =>
      if bool_decide (i < Len c - 1)%nat then
        if bool_decide (first < offset (items c !!! i)) then (first, i)
        else skip_received fuel' c (u64 (first + 1)) (S i)
      else (first, i)
  end.

(** The outer loop of [Gaps], one iteration per unit of fuel; [None] when the
    fuel runs out before the loop ends. *)
Fixpoint Gaps_loop (fuel : nat) (c : chunkQueue) (first : Z) (i : nat)
    (res : list ResendEntry) : option (list ResendEntry) :=
  match fuel with
  | O => None
  | S fuel' =>
      if bool_decide (i < Len c)%nat then
        let length := u64 (offset (items c !!! i) - first) in
        let split := bool_decide (255 < length) in
        let length := if split then 255 else length in
        let re := mkResend (q_fileIndex c) first (u8 length) in
        let res := res ++ [re] in
        let first := u64 (first + (length + 1)) in
        if split then Gaps_loop fuel' c first i res
        else
          let '(first, i) := skip_received (Len c) c first (S i) in
          Gaps_loop fuel' c first i res
      else Some res
  end.

(** [chunkQueue.Gaps]: the resend entries, and the queue as the deferred
    [heap.Init] leaves it. *)
Definition Gaps (fuel : nat) (c : chunkQueue) (from : Z)
  : option (list ResendEntry * chunkQueue) :=
  let c := sort_Sort c in
  res ← Gaps_loop fuel c from 0 [];
  Some (res, heap_Init c).

(** [chunkQueue.Top]: the returned offset, and the queue after the deferred
    [heap.Push] of the popped item. *)
Definition Top (c : chunkQueue) : Z * chunkQueue :=
  if bool_decide (Len c <= 0)%nat then (0, c) else
  let '(item, c) := heap_Pop c in
  (offset item, heap_Push c item).

End Queue.

(** ** server.go: the session *)

Module Server.
Import MsgV0.

(** status, the server puts to metadata *)
Definition noErr : Z := 0.
Definition fileNotExistent : Z := 1.
Definition fileEmpty : Z := 2.
Definition accessDenied : Z := 3.

(** The request and the metadata as [server.go] uses them. *)
Record FileDescriptor : Type := mkFile {
  fd_offset : Z;           (* uint64 *)
  fileName : string
}.

Record ClientRequest : Type := mkRequest {
  cr_maxTransmissionRate : Z;   (* uint32 *)
  files : list FileDescriptor
}.

Record ServerMetaData : Type := mkMeta {
  md_ackNum : Z;           (* uint8 *)
  status : Z;              (* MetaDataStatus *)
  md_fileIndex : Z;        (* uint16 *)
  size : Z;                (* uint64 *)
  checkSum : list Z        (* [16]byte *)
}.

(** The ack as the rescheduler reads it. *)
Record ClientAck : Type := mkAck {
  ackNumber : Z;           (* uint8 *)
  ca_fileIndex : Z;        (* uint16 *)
  metaDataMissing : bool;
  maxTransmissionRate : Z; (* uint32 *)
  ca_offset : Z;           (* uint64 *)
  resendEntries : list ResendEntry
}.

(** *** The producer, [clientConnection.getResponse] *)

(** An [io.SectionReader] over a source that delivers its bytes without
    error: [content] are the bytes of the section. *)
Record SectionReader : Type := mkReader { content : list Z }.

Definition Size (r : SectionReader) : Z := Z.of_nat (length (content r)).

(** [r.ReadAt(p, off)] for a buffer [p] of [n] bytes: the bytes read into
    [p[:n']] and whether the error is [io.EOF]. *)
Definition ReadAt (r : SectionReader) (n : nat) (off : Z) : list Z * bool :=
  if decide (off < 0 \/ Size r <= off) then ([], true)
  else if decide (Size r - off < Z.of_nat n)
       then (drop (Z.to_nat off) (content r), true)
       else (take n (drop (Z.to_nat off) (content r)), false).

Definition FileHandler : Type := string -> Z -> option SectionReader.

Record fileReader : Type := mkFileReader {
  index : Z;               (* uint16 *)
  sr : option SectionReader;
  hasher : list Z          (* the bytes written to the hash so far *)
}.

(** What the producer sends, in program order: on [c.payload] or on
    [c.metadata]. *)
Inductive event : Type :=
| SendPayload (p : ServerPayload)
| SendMetadata (m : ServerMetaData).

Section Producer.

(** [crypto/md5]: the digest of the bytes written, [md5.Size = 16] bytes. *)
Variable md5_Sum : list Z -> list Z.
Variable fh : FileHandler.

(** [for !done { ... }]: one chunk per unit of fuel; [None] when the fuel
    runs out before [io.EOF]. *)
Fixpoint read_loop (fuel : nat) (r : SectionReader) (idx : Z) (off : Z)
    (written : list Z) : option (list event * list Z) :=
  match fuel with
  | O => None
  | S fuel' =>
      let '(buf, done) := ReadAt r 1024 (1024 * off) in
      let written := written ++ buf in
      let p := mkPayload idx 0 (u64 off) buf in
      if done then Some ([SendPayload p], written)
      else
        '(evs, written) ← read_loop fuel' r idx (off + 1) written;
        Some (SendPayload p :: evs, written)
  end.

(** The body of [for _, fr := range srs], in a session that stays open. *)
Definition respond_file (fuel : nat) (fr : fileReader) : option (list event) :=
  match sr fr with
  | None =>
      Some [SendMetadata (mkMeta 0 fileNotExistent (index fr) 0 (replicate 16 0))]
  | Some r =>
      if decide (Size r = 0) then
        Some [SendMetadata (mkMeta 0 fileEmpty (index fr) 0 (replicate 16 0))]
      else
        '(evs, written) ← read_loop fuel r (index fr) 0 (hasher fr);
        let m := mkMeta 0 0 (index fr) (u64 (Size r))
                   (take 16 (md5_Sum written)) in
        Some (evs ++ [SendMetadata m])
  end.

Fixpoint respond_files (fuel : nat) (srs : list fileReader)
  : option (list event) :=
  match srs with
  | [] => Some []
  | fr :: srs' =>
      evs ← respond_file fuel fr;
      rest ← respond_files fuel srs';
      Some (evs ++ rest)
  end.

(** The file readers built from the request. *)
Definition file_readers (req : ClientRequest) : list fileReader :=
  imap (fun i fr => mkFileReader (u16 (Z.of_nat i))
                      (fh (fileName fr) (fd_offset fr)) [])
       (files req).

(** [clientConnection.getResponse], for a session that is not closed while
    the producer runs: the sends of the producer in order.  [fuel] bounds
    the chunks read per file. *)
Definition getResponse (fuel : nat) (req : ClientRequest)
  : option (list event) :=
  respond_files fuel (file_readers req).

End Producer.

(** *** The rescheduler *)

Definition getFromCache (payloadCache : gmap Z (gmap Z ServerPayload))
    (file : Z) (off : Z) : option ServerPayload :=
  match payloadCache !! file with
  | Some c => c !! off
  | None => None
  end.

Record resched : Type := mkResched {
  resendScheduled : gmap Z (gset Z);
  metadata : gset Z;
  resent : list ServerPayload       (* the sends on [c.resend], in order *)
}.

Definition re_offset_le (a b : ResendEntry) : Prop := re_offset a <= re_offset b.

#[global] Instance re_offset_le_dec : RelDecision re_offset_le :=
  fun a b => Z_le_dec (re_offset a) (re_offset b).

Section Rescheduler.

Variable payloadCache : gmap Z (gmap Z ServerPayload).
Variable metadataCache : gmap Z ServerMetaData.

(** [for i := uint64(0); i < uint64(re.length); i++]: [n] iterations are
    left, [i] is the counter; a miss in the cache breaks the loop. *)
Fixpoint resend_run (n : nat) (fi off : Z) (i : Z) : list ServerPayload :=
  match n with
  | O => []
  | S n' =>
      match getFromCache payloadCache fi (u64 (off + i)) with
      | Some p => p :: resend_run n' fi off (i + 1)
      | None => []
      end
  end.

(** The body of [for i, re := range ack.resendEntries] after the rate
    check. *)
Definition resend_entry (st : resched) (re : ResendEntry) : resched :=
  let fi := re_fileIndex re in
  let md := if decide (re_length re = 0) then {[fi]} ∪ metadata st
            else metadata st in
  let sched := match resendScheduled st !! fi with
               | Some _ => resendScheduled st
               | None => <[fi := ∅]> (resendScheduled st)
               end in
  let set := default ∅ (sched !! fi) in
  if decide (re_offset re ∈ set) then mkResched sched md (resent st)
  else
    let sched := <[fi := {[re_offset re]} ∪ set]> sched in
    match getFromCache payloadCache fi (re_offset re) with
    | Some p =>
        let single := if decide (re_length re = 0) then [p] else [] in
        mkResched sched md
          (resent st ++ single ++
           resend_run (Z.to_nat (re_length re)) fi (re_offset re) 0)
    | None => mkResched sched md (resent st)
    end.

(** [for i, re := range ack.resendEntries], with the break on the rate. *)
Fixpoint resend_entries (rate : Z) (i : nat) (entries : list ResendEntry)
    (st : resched) : resched :=
  match entries with
  | [] => st
  | re :: entries' =>
      if decide (0 < rate /\ rate < u32 (Z.of_nat i)) then st
      else resend_entries rate (S i) entries' (resend_entry st re)
  end.

(** [case ack := <-c.reschedule]: the new set of scheduled resends, the sends
    on [c.resend] and the sends on [c.metadata] (Go leaves the order of the
    latter open; here ascending file index). *)
Definition reschedule (scheduled : gmap Z (gset Z)) (ack : ClientAck)
  : gmap Z (gset Z) * list ServerPayload * list ServerMetaData :=
  let md := if metaDataMissing ack then {[ca_fileIndex ack]} else ∅ in
  let entries := merge_sort re_offset_le (resendEntries ack) in
  let first :=
    if decide (length entries <= 0)%nat then
      match getFromCache payloadCache (ca_fileIndex ack) (ca_offset ack) with
      | Some p => [p]
      | None => []
      end
    else [] in
  let st := resend_entries (maxTransmissionRate ack) 0 entries
              (mkResched scheduled md first) in
  (resendScheduled st, resent st,
   omap (fun k => metadataCache !! k)
        (merge_sort Z.le (elements (metadata st)))).

End Rescheduler.

(** [clientConnection.saveToCache]: the inner map of the file is made when
    it is missing, then the payload is stored under its offset. *)
Definition saveToCache (payloadCache : gmap Z (gmap Z ServerPayload))
    (p : ServerPayload) : gmap Z (gmap Z ServerPayload) :=
  let payloadCache :=
    match payloadCache !! fileIndex p with
    | Some _ => payloadCache
    | None => <[fileIndex p := ∅]> payloadCache
    end in
  <[fileIndex p := <[offset p := p]> (default ∅ (payloadCache !! fileIndex p))]>
    payloadCache.

(** [case p := <-c.resendDone] *)
Definition resendDone (scheduled : gmap Z (gset Z)) (p : ServerPayload)
  : gmap Z (gset Z) :=
  match scheduled !! fileIndex p with
  | Some s => <[fileIndex p := s ∖ {[offset p]}]> scheduled
  | None => scheduled
  end.

(** *** The Cleaner *)

(** A [chan struct{}]: the number of values in its buffer, its capacity,
    whether it is closed, and the number of values sent on it so far. *)
Record chan : Type := mkChan {
  buffered : nat;
  capacity : nat;
  chan_closed : bool;
  sent : nat
}.

Inductive outcome (A : Type) : Type :=
| Returns (a : A)
| Blocks               (* a send on a full channel *)
| Panics.              (* a send on, or the close of, a closed channel *)
Arguments Returns {A} a.
Arguments Blocks {A}.
Arguments Panics {A}.

(** [make(chan struct{}, n)] *)
Definition make_chan (n : nat) : chan := mkChan 0 n false 0.

(** [ch <- struct{}{}] *)
Definition chan_send (ch : chan) : outcome chan :=
  if chan_closed ch then Panics
  else if decide (buffered ch < capacity ch)%nat
       then Returns (mkChan (S (buffered ch)) (capacity ch) false (S (sent ch)))
       else Blocks.

(** [close(ch)] *)
Definition chan_close (ch : chan) : outcome chan :=
  if chan_closed ch then Panics
  else Returns (mkChan (buffered ch) (capacity ch) true (sent ch)).

(** [<-ch] by the subscriber: takes a buffered value if there is one. *)
Definition chan_recv (ch : chan) : chan :=
  mkChan (pred (buffered ch)) (capacity ch) (chan_closed ch) (sent ch).

(** The cleaner together with the channels it has made: a channel is
    referred to by its position in [chans].  Both locks are held for the
    whole of [close] and of [subscribe], which are therefore atomic steps.
    [cb_calls] counts the calls of the callback [cb]. *)
Record Cleaner : Type := mkCleaner {
  chans : list chan;
  subs : list nat;
  closedState : bool;
  cb_calls : nat
}.

Definition Cleaner_zero : Cleaner := mkCleaner [] [] false 0.

(** [for _, sub := range c.subs { sub <- struct{}{}; close(sub) }] *)
Fixpoint notify_all (chs : list chan) (ss : list nat) : outcome (list chan) :=
  match ss with
  | [] => Returns chs
  | sub :: ss' =>
      match chs !! sub with
      | None => Panics
      | Some ch =>
          match chan_send ch with
          | Returns ch1 =>
              match chan_close ch1 with
              | Returns ch2 => notify_all (<[sub := ch2]> chs) ss'
              | Blocks => Blocks
              | Panics => Panics
              end
          | Blocks => Blocks
          | Panics => Panics
          end
      end
  end.

(** [Cleaner.close] *)
Definition close (c : Cleaner) : outcome Cleaner :=
  if closedState c then Returns c
  else
    match notify_all (chans c) (subs c) with
    | Returns chs => Returns (mkCleaner chs (subs c) true (S (cb_calls c)))
    | Blocks => Blocks
    | Panics => Panics
    end.

(** [Cleaner.closed] *)
Definition closed (c : Cleaner) : bool := closedState c.

(** [Cleaner.subscribe]: the new channel and the cleaner after the call. *)
Definition subscribe (c : Cleaner) : outcome (nat * Cleaner) :=
  let new := length (chans c) in
  let chs := chans c ++ [make_chan 1] in
  let ss := subs c ++ [new] in
  if closedState c then
    match chan_send (make_chan 1) with
    | Returns ch1 =>
        match chan_close ch1 with
        | Returns ch2 =>
            Returns (new, mkCleaner (<[new := ch2]> chs) ss true (cb_calls c))
        | Blocks => Blocks
        | Panics => Panics
        end
    | Blocks => Blocks
    | Panics => Panics
    end
  else Returns (new, mkCleaner chs ss false (cb_calls c)).

(** The calls made on a cleaner and on its channels, one atomic step each. *)
Inductive call : Type :=
| CallSubscribe
| CallClose
| CallRecv (ch : nat).

#[global] Instance call_eq_dec : EqDecision call.
Proof. solve_decision. Defined.

Definition step (c : Cleaner) (a : call) : outcome Cleaner :=
  match a with
  | CallSubscribe =>
      match subscribe c with
      | Returns (_, c') => Returns c'
      | Blocks => Blocks
      | Panics => Panics
      end
  | CallClose => close c
  | CallRecv ch =>
      match chans c !! ch with
      | Some x =>
          Returns (mkCleaner (<[ch := chan_recv x]> (chans c)) (subs c)
                     (closedState c) (cb_calls c))
      | None => Returns c
      end
  end.

Fixpoint run (c : Cleaner) (l : list call) : outcome Cleaner :=
  match l with
  | [] => Returns c
  | a :: l' =>
      match step c a with
      | Returns c' => run c' l'
      | Blocks => Blocks
      | Panics => Panics
      end
  end.

End Server.

(** ** Notions used to state the properties *)

(** A decoder result that is not an error value: the call returned nil or
    panicked. *)
Definition no_error {A : Type} (r : result A) : Prop :=
  forall e, r <> Err e.

(** The ack of the client after the chunks 0, 2 and 4 of file 0 arrived. *)
Definition ack_two_entries : Msg.clientAck :=
  Msg.mkAck 7 0 0 0 0 [Msg.mkResend 0 1 0; Msg.mkResend 0 3 0].

(** A received chunk of file 0, without data. *)
Definition chunk (o : Z) : MsgV0.ServerPayload := MsgV0.mkPayload 0 0 o [].

(** The queue of file 0 after the chunks 0 and 300 were pushed. *)
Definition queue_0_300 : Queue.chunkQueue :=
  Queue.heap_Push (Queue.heap_Push (Queue.newChunkQueue 0) (chunk 0))
                  (chunk 300).

(** The offsets held by a queue. *)
Definition offsets (c : Queue.chunkQueue) : list Z :=
  MsgV0.offset <$> Queue.items c.

(** The heap order of [container/heap] for [Less]: no item sorts before its
    parent. *)
Definition heap_ordered (c : Queue.chunkQueue) : bool :=
  forallb (fun i => negb (Queue.Less c i ((i - 1) / 2)))
          (seq 1 (Queue.Len c - 1)).

(** Two readings of a resend entry.  As the spec words it, the entry asks
    for the [length + 1] chunks [offset .. offset + length]; as [Gaps] and
    the rescheduler count, for the [length] chunks
    [offset .. offset + length - 1]. *)
Definition covers_inclusive (x : Z) (re : MsgV0.ResendEntry) : Prop :=
  MsgV0.re_offset re <= x <= MsgV0.re_offset re + MsgV0.re_length re.

Definition covers (x : Z) (re : MsgV0.ResendEntry) : Prop :=
  MsgV0.re_offset re <= x < MsgV0.re_offset re + MsgV0.re_length re.

#[global] Instance covers_inclusive_dec x re : Decision (covers_inclusive x re).
Proof. unfold covers_inclusive. apply _. Defined.

#[global] Instance covers_dec x re : Decision (covers x re).
Proof. unfold covers. apply _. Defined.

(** In how many of the entries [x] lies. *)
Definition times_covered (x : Z) (res : list MsgV0.ResendEntry) : nat :=
  length (filter (covers x) res).

Definition times_covered_inclusive (x : Z) (res : list MsgV0.ResendEntry)
  : nat :=
  length (filter (covers_inclusive x) res).

(** A payload cache holding the chunks 0, 1 and 2 of file 0, and an ack
    asking for the run of length 1 at offset 0, and one for length 2. *)
Definition cache_0_1_2 : gmap Z (gmap Z MsgV0.ServerPayload) :=
  {[ 0 := {[ 0 := chunk 0; 1 := chunk 1; 2 := chunk 2 ]} ]}.

Definition ack_run (len : Z) : Server.ClientAck :=
  Server.mkAck 1 0 false 0 0 [MsgV0.mkResend 0 0 len].

(** What the producer sends for the file with index [idx] whose reader is
    [reader], as C7 words it: for an absent file one metadata with status
    [fileNotExistent], for an empty file one with status [fileEmpty], and
    else the payloads with the chunk offsets 0, 1, 2, ... holding at most
    1024 bytes each and together the bytes of the file, followed by one
    metadata with status 0, the size and the MD5 sum of these bytes. *)
Definition file_response (md5_Sum : list Z -> list Z) (idx : Z)
    (reader : option Server.SectionReader) (evs : list Server.event) : Prop :=
  match reader with
  | None =>
      exists m, evs = [Server.SendMetadata m] /\
                Server.status m = Server.fileNotExistent /\
                Server.md_fileIndex m = idx
  | Some r =>
      if decide (Server.Size r = 0) then
        exists m, evs = [Server.SendMetadata m] /\
                  Server.status m = Server.fileEmpty /\
                  Server.md_fileIndex m = idx
      else
        exists ps m,
          evs = (Server.SendPayload <$> ps) ++ [Server.SendMetadata m] /\
          MsgV0.offset <$> ps = seqZ 0 (Z.of_nat (length ps)) /\
          Forall (fun p => MsgV0.fileIndex p = idx /\
                           (length (MsgV0.data p) <= 1024)%nat) ps /\
          concat (MsgV0.data <$> ps) = Server.content r /\
          Server.status m = Server.noErr /\
          Server.size m = Server.Size r /\
          Server.md_fileIndex m = idx /\
          Server.checkSum m = take 16 (md5_Sum (Server.content r))
  end.

(** A file handler that knows an empty file and a file of 2500 bytes, and a
    request for a missing file and these two. *)
Definition fh_example : Server.FileHandler :=
  fun name _ =>
    if decide (name = "a"%string) then Some (Server.mkReader (replicate 2500 7))
    else if decide (name = "e"%string) then Some (Server.mkReader [])
    else None.

Definition request_example : Server.ClientRequest :=
  Server.mkRequest 0
    [Server.mkFile 0 "missing"; Server.mkFile 0 "e"; Server.mkFile 0 "a"].

(** The queue of file 0 after chunk 0 was pushed, and the queue after the
    chunks 4, 0 and 2 arrived in this order. *)
Definition queue_0 : Queue.chunkQueue :=
  Queue.heap_Push (Queue.newChunkQueue 0) (chunk 0).

Definition queue_4_0_2 : Queue.chunkQueue :=
  Queue.Push (Queue.Push (Queue.Push (Queue.newChunkQueue 0) (chunk 4))
                (chunk 0)) (chunk 2).

(** *** The wire format *)

(** An option as a decoder fills it in: the length field holds the size of
    the encoding. *)
Definition option_decoded (o : Msg.option_) : Msg.option_ :=
  Msg.mkOption (Msg.otype o) (Msg.value o) (2 + length (Msg.value o)).

Definition option_size (o : Msg.option_) : nat := (2 + length (Msg.value o))%nat.

(** The encoding of the options of a header. *)
Definition options_wire (opts : list Msg.option_) : list Z :=
  concat ((fun o => Msg.otype o
                      :: byte_of (Z.of_nat (length (Msg.value o)))
                      :: Msg.value o)
            <$> opts).

(** The encoding of one file descriptor and of a list of them. *)
Definition file_wire (f : Msg.fileDescriptor) : list Z :=
  drop 1 (PutUint64 (Msg.fd_offset f)) ++
  PutUint16 (u16 (Z.of_nat (length (bytes_of_string (Msg.fileName f))))) ++
  bytes_of_string (Msg.fileName f).

Definition files_wire (fs : list Msg.fileDescriptor) : list Z :=
  concat (file_wire <$> fs).

(** A file descriptor the wire format can carry: the offset has 56 bits and
    [9 + len(name)] fits in a uint16. *)
Definition file_fits (f : Msg.fileDescriptor) : Prop :=
  0 <= Msg.fd_offset f <= Msg.maxFileOffset /\
  Z.of_nat (length (bytes_of_string (Msg.fileName f))) <= 65526.

(** The encoding of the resend entries of an ack. *)
Definition entry_wire (re : Msg.resendEntry) : list Z :=
  PutUint16 (Msg.re_fileIndex re) ++ drop 1 (PutUint64 (Msg.re_offset re)) ++
  [Msg.re_length re].

Definition entries_wire (es : list Msg.resendEntry) : list Z :=
  concat (entry_wire <$> es).

Definition entry_fits (re : Msg.resendEntry) : Prop :=
  is_u16 (Msg.re_fileIndex re) /\ 0 <= Msg.re_offset re <= Msg.maxFileOffset.

(** What arrives at the server when [msg] is sent: the header [sendTo]
    writes, and the message the handler of its type decodes.  An ack keeps
    the first half of its resend entries, rounded up.  For the two server
    messages the server has no handler. *)
Definition sent_header (msg : Msg.message) : Msg.msgHeader :=
  match msg with
  | Msg.MClientRequest _ => Msg.mkHeader 1 Msg.msgClientRequest 0 0 [] 3
  | Msg.MClientAck v =>
      Msg.mkHeader 1 Msg.msgClientAck (Msg.ackNumber v) 0 [] 3
  | Msg.MServerMetaData _ => Msg.mkHeader 1 Msg.msgServerMetadata 0 0 [] 3
  | Msg.MServerPayload v =>
      Msg.mkHeader 1 Msg.msgServerPayload (Msg.sp_ackNumber v) 0 [] 3
  | Msg.MCloseConnection _ => Msg.mkHeader 1 Msg.msgClose 0 0 [] 3
  end.

Definition delivered (msg : Msg.message) : option Msg.message :=
  match msg with
  | Msg.MClientRequest v => Some (Msg.MClientRequest v)
  | Msg.MClientAck v =>
      Some (Msg.MClientAck
              (Msg.mkAck (Msg.ackNumber v) (Msg.ca_fileIndex v)
                 (Msg.ca_status v) (Msg.ca_maxTransmissionRate v)
                 (Msg.ca_offset v)
                 (take ((length (Msg.resendEntries v) + 1) / 2)
                       (Msg.resendEntries v))))
  | Msg.MServerMetaData _ => None
  | Msg.MServerPayload _ => None
  | Msg.MCloseConnection v => Some (Msg.MCloseConnection v)
  end.

(** The field values the wire format can carry. *)
Definition message_fits (msg : Msg.message) : Prop :=
  match msg with
  | Msg.MClientRequest v =>
      is_u32 (Msg.cr_maxTransmissionRate v) /\
      Z.of_nat (length (Msg.files v)) <= 65535 /\
      Forall file_fits (Msg.files v)
  | Msg.MClientAck v =>
      is_u16 (Msg.ca_fileIndex v) /\ is_u32 (Msg.ca_maxTransmissionRate v) /\
      0 <= Msg.ca_offset v <= Msg.maxFileOffset /\
      Forall entry_fits (Msg.resendEntries v)
  | Msg.MServerMetaData v =>
      is_u16 (Msg.md_fileIndex v) /\ is_u64 (Msg.size v) /\
      length (Msg.checkSum v) = 16%nat
  | Msg.MServerPayload v =>
      is_u16 (Msg.sp_fileIndex v) /\
      0 <= Msg.sp_offset v <= Msg.maxFileOffset
  | Msg.MCloseConnection v => is_u16 (Msg.reason v)
  end.

(** Example values of the messages. *)
Definition option_example : Msg.option_ := Msg.mkOption 7 [1; 2] 0.

Definition header_example : Msg.msgHeader :=
  Msg.mkHeader 1 3 9 1 [option_example] 0.

Definition metadata_example : Msg.serverMetaData :=
  Msg.mkMeta 5 0 1 2500 (replicate 16 9).

Definition payload_example : Msg.serverPayload :=
  Msg.mkPayload 1 4 2 [10; 11; 12].

Definition close_example : Msg.closeConnection := Msg.mkClose 5.

Definition request_two_files : Msg.clientRequest :=
  Msg.mkRequest 0 [Msg.mkFile 0 "a"; Msg.mkFile 1024 "b.txt"].

(** A file whose name has 65527 bytes. *)
Definition long_name_file : Msg.fileDescriptor :=
  Msg.mkFile 0 (string_of_bytes (replicate (Z.to_nat 65527) 97)).

(** Whether the run start [(fi, off)] is in the rescheduled set. *)
Definition rescheduled (sched : gmap Z (gset Z)) (fi off : Z) : Prop :=
  off ∈ default ∅ (sched !! fi).

(** Chunk [k] of a reader as the producer sends it for file [idx]. *)
Definition chunk_payload (r : Server.SectionReader) (idx : Z) (k : Z)
  : MsgV0.ServerPayload :=
  MsgV0.mkPayload idx 0 k
    (take 1024 (drop (Z.to_nat (1024 * k)) (Server.content r))).

(** A reader of 2048 bytes, two full chunks. *)
Definition reader_2048 : Server.SectionReader :=
  Server.mkReader (replicate 2048 7).

Definition file_reader_2048 : Server.fileReader :=
  Server.mkFileReader 0 (Some reader_2048) [].

(** A state of the rescheduler in which nothing is rescheduled. *)
Definition resched_empty : Server.resched := Server.mkResched ∅ ∅ [].

(** The heap order of the queue, index by index. *)

(** The offset of the item at index [k]. *)
Definition offset_at (c : Queue.chunkQueue) (k : nat) : Z :=
  MsgV0.offset (Queue.items c !!! k).

(** The heap order as a proposition. *)
Definition heap_order (c : Queue.chunkQueue) : Prop :=
  forall k, (0 < k < Queue.Len c)%nat ->
            offset_at c ((k - 1) / 2) <= offset_at c k.

(** The heap order among the items below index [n] whose parent is at index
    [m] or after it. *)
Definition heap_order_from (c : Queue.chunkQueue) (m n : nat) : Prop :=
  forall k, (0 < k < n)%nat -> (m <= (k - 1) / 2)%nat ->
            offset_at c ((k - 1) / 2) <= offset_at c k.

(** A queue holding one chunk. *)
Definition queue_single (fi mx : Z) (p : MsgV0.ServerPayload)
  : Queue.chunkQueue :=
  Queue.mkQueue [p] mx fi.

(** A chunk of file 3 as the second message file has it. *)
Definition chunk_example : MsgV0.ServerPayload := MsgV0.mkPayload 3 9 1024 [1; 2].

(** * Properties *)

(** ** Big-endian integers *)

Section BigEndian.

Lemma lor_shift_add (a b n : Z) :
  0 <= n -> 0 <= a < 2 ^ n -> 0 <= b -> Z.lor a (Z.shiftl b n) = a + b * 2 ^ n.
Proof.
  intros Hn Ha Hb.
  rewrite Z.shiftl_mul_pow2 by lia.
  assert (Hdisj : Z.land a (b * 2 ^ n) = 0).
  { apply Z.bits_inj'. intros k Hk. rewrite Z.land_spec, Z.bits_0.
    destruct (Z.lt_ge_cases k n).
    - rewrite Z.mul_pow2_bits_low by lia. apply andb_false_r.
    - replace (Z.testbit a k) with false; [done|].
      symmetry. destruct (Z.eq_dec a 0) as [->|]; [apply Z.bits_0|].
      apply Z.bits_above_log2; [lia|]. apply Z.log2_lt_pow2; [lia|].
      eapply Z.lt_le_trans; [apply Ha|]. apply Z.pow_le_mono_r; lia. }
  rewrite <- Z.lxor_lor by exact Hdisj.
  symmetry. by apply Z.add_nocarry_lxor.
Qed.

Lemma byte_of_mod (v : Z) : byte_of v = v mod 256.
Proof. unfold byte_of. change 255 with (Z.ones 8). by rewrite Z.land_ones. Qed.

Lemma byte_of_range (v : Z) : 0 <= byte_of v < 256.
Proof. rewrite byte_of_mod. apply Z.mod_pos_bound. lia. Qed.

Lemma byte_of_id (v : Z) : is_u8 v -> byte_of v = v.
Proof. unfold is_u8. intros H. rewrite byte_of_mod. apply Z.mod_small. lia. Qed.

Ltac pow2_consts :=
  change (2 ^ 8) with 256 in *; change (2 ^ 16) with 65536 in *;
  change (2 ^ 24) with 16777216 in *; change (2 ^ 32) with 4294967296 in *;
  change (2 ^ 40) with 1099511627776 in *;
  change (2 ^ 48) with 281474976710656 in *;
  change (2 ^ 56) with 72057594037927936 in *;
  change (2 ^ 64) with 18446744073709551616 in *.

Lemma Uint16_PutUint16 (v : Z) (rest : list Z) :
  is_u16 v -> Uint16 (PutUint16 v ++ rest) = Ok v.
Proof.
  unfold is_u16. intros Hv. cbn [PutUint16 app Uint16]. f_equal.
  pose proof (byte_of_range v). pose proof (byte_of_range (Z.shiftr v 8)).
  rewrite lor_shift_add by lia.
  rewrite !byte_of_mod, Z.shiftr_div_pow2 by lia.
  pow2_consts. Z.div_mod_to_equations. lia.
Qed.

Lemma Uint32_PutUint32 (v : Z) (rest : list Z) :
  is_u32 v -> Uint32 (PutUint32 v ++ rest) = Ok v.
Proof.
  unfold is_u32. intros Hv. cbn [PutUint32 app Uint32]. f_equal.
  pose proof (byte_of_range v). pose proof (byte_of_range (Z.shiftr v 8)).
  pose proof (byte_of_range (Z.shiftr v 16)).
  pose proof (byte_of_range (Z.shiftr v 24)).
  rewrite (lor_shift_add _ _ 8) by lia.
  rewrite (lor_shift_add _ _ 16) by lia.
  rewrite (lor_shift_add _ _ 24) by lia.
  rewrite !byte_of_mod, !Z.shiftr_div_pow2 by lia.
  pow2_consts. Z.div_mod_to_equations. lia.
Qed.

Lemma Uint64_PutUint64 (v : Z) (rest : list Z) :
  is_u64 v -> Uint64 (PutUint64 v ++ rest) = Ok v.
Proof.
  unfold is_u64. intros Hv. cbn [PutUint64 app Uint64]. f_equal.
  pose proof (byte_of_range v). pose proof (byte_of_range (Z.shiftr v 8)).
  pose proof (byte_of_range (Z.shiftr v 16)).
  pose proof (byte_of_range (Z.shiftr v 24)).
  pose proof (byte_of_range (Z.shiftr v 32)).
  pose proof (byte_of_range (Z.shiftr v 40)).
  pose proof (byte_of_range (Z.shiftr v 48)).
  pose proof (byte_of_range (Z.shiftr v 56)).
  rewrite (lor_shift_add _ _ 8) by lia.
  rewrite (lor_shift_add _ _ 16) by lia.
  rewrite (lor_shift_add _ _ 24) by lia.
  rewrite (lor_shift_add _ _ 32) by lia.
  rewrite (lor_shift_add _ _ 40) by lia.
  rewrite (lor_shift_add _ _ 48) by lia.
  rewrite (lor_shift_add _ _ 56) by lia.
  rewrite !byte_of_mod, !Z.shiftr_div_pow2 by lia.
  pow2_consts. Z.div_mod_to_equations. lia.
Qed.

(** The seven low bytes, padded with a zero byte, read back as the offset
    modulo [2^56]. *)
Lemma Uint64_seven (x : Z) (rest : list Z) :
  is_u64 x -> Uint64 (0 :: drop 1 (PutUint64 x) ++ rest) = Ok (x mod 2 ^ 56).
Proof.
  unfold is_u64. intros Hv. cbn [PutUint64 drop app Uint64]. f_equal.
  pose proof (byte_of_range x). pose proof (byte_of_range (Z.shiftr x 8)).
  pose proof (byte_of_range (Z.shiftr x 16)).
  pose proof (byte_of_range (Z.shiftr x 24)).
  pose proof (byte_of_range (Z.shiftr x 32)).
  pose proof (byte_of_range (Z.shiftr x 40)).
  pose proof (byte_of_range (Z.shiftr x 48)).
  rewrite (lor_shift_add _ _ 8) by lia.
  rewrite (lor_shift_add _ _ 16) by lia.
  rewrite (lor_shift_add _ _ 24) by lia.
  rewrite (lor_shift_add _ _ 32) by lia.
  rewrite (lor_shift_add _ _ 40) by lia.
  rewrite (lor_shift_add _ _ 48) by lia.
  rewrite (lor_shift_add _ _ 56) by lia.
  rewrite !byte_of_mod, !Z.shiftr_div_pow2 by lia.
  pow2_consts. Z.div_mod_to_equations. lia.
Qed.

End BigEndian.

(** ** The seven-byte offset *)

(** C10: for every uint64 [x], [sevenByteOffset] returns seven bytes and no
    error, and [uintOffset] of these bytes is [x mod 2^56]: an offset of
    [2^56] or more is cut to its low 56 bits, not rejected.  Both message
    files define the two functions alike. *)
Theorem uintOffset_sevenByteOffset (x : Z) :
  is_u64 x ->
  (exists seven,
      Msg.sevenByteOffset x = Ok seven /\ length seven = 7%nat /\
      Msg.uintOffset seven = Ok (x mod 2 ^ 56)) /\
  (exists seven,
      MsgV0.sevenByteOffset x = Ok seven /\ length seven = 7%nat /\
      MsgV0.uintOffset seven = Ok (x mod 2 ^ 56)).
Proof.
  intros Hx.
  split; (eexists; split; [reflexivity|]; split; [reflexivity|]).
  - unfold Msg.uintOffset.
    rewrite <- (app_nil_r (drop 1 (PutUint64 x))).
    by apply Uint64_seven.
  - unfold MsgV0.uintOffset.
    rewrite <- (app_nil_r (drop 1 (PutUint64 x))).
    by apply Uint64_seven.
Qed.

Lemma uintOffset_sevenByteOffset_witness :
  is_u64 (2 ^ 56 + 5) /\
  exists seven,
    Msg.sevenByteOffset (2 ^ 56 + 5) = Ok seven /\ length seven = 7%nat /\
    Msg.uintOffset seven = Ok ((2 ^ 56 + 5) mod 2 ^ 56).
Proof.
  split.
  - unfold is_u64. lia.
  - apply (uintOffset_sevenByteOffset (2 ^ 56 + 5)). unfold is_u64. lia.
Defined.

Example sevenByteOffset_truncates :
  Msg.sevenByteOffset (2 ^ 56 + 5) = Ok [0; 0; 0; 0; 0; 0; 5].
Proof. reflexivity. Qed.

(** ** The codec: errors *)

Section CodecErrors.
Import Msg.

Lemma no_error_bind {A B : Type} (r : result A) (f : A -> result B) :
  no_error r -> (forall a, no_error (f a)) -> no_error (r ≫= f).
Proof.
  intros Hr Hf e. destruct r as [a|e'|]; cbn.
  - apply Hf.
  - exfalso. by apply (Hr e').
  - discriminate.
Qed.

Lemma no_error_Ok {A : Type} (a : A) : no_error (Ok a).
Proof. intros e. discriminate. Qed.

Lemma no_error_slice s lo hi : no_error (slice s lo hi).
Proof. intros e. unfold slice. case_decide; discriminate. Qed.

Lemma no_error_index s i : no_error (index s i).
Proof. intros e. unfold index. destruct (vis s !! i); discriminate. Qed.

Lemma no_error_Uint16 b : no_error (Uint16 b).
Proof. intros e. destruct b as [|? [|? ?]]; discriminate. Qed.

Lemma no_error_Uint32 b : no_error (Uint32 b).
Proof. intros e. destruct b as [|? [|? [|? [|? ?]]]]; discriminate. Qed.

Lemma no_error_Uint64 b : no_error (Uint64 b).
Proof.
  intros e.
  destruct b as [|? [|? [|? [|? [|? [|? [|? [|? ?]]]]]]]]; discriminate.
Qed.

Ltac no_err :=
  repeat first
    [ apply no_error_Ok | apply no_error_slice | apply no_error_index
    | apply no_error_Uint16 | apply no_error_Uint32 | apply no_error_Uint64
    | apply no_error_bind; [|intros ?] | case_decide ].

Lemma no_error_unmarshal_files n d : no_error (unmarshal_files n d).
Proof.
  revert d. induction n as [|n IH]; intros d; cbn [unmarshal_files].
  - apply no_error_Ok.
  - unfold slice_to, slice_from, uintOffset. no_err. apply IH.
Qed.

Lemma no_error_unmarshal_resend fuel i d res :
  no_error (unmarshal_resend fuel i d res).
Proof.
  revert i d res.
  induction fuel as [|n IH]; intros i d res; cbn [unmarshal_resend].
  - apply no_error_Ok.
  - unfold slice_to, slice_from, uintOffset. no_err. apply IH.
Qed.

(** None of the five body decoders has a path that returns an error. *)
Lemma body_decoders_no_error (d : Slice) :
  (forall s, no_error (clientRequest_UnmarshalBinary s d)) /\
  (forall s, no_error (serverMetaData_UnmarshalBinary s d)) /\
  (forall s, no_error (serverPayload_UnmarshalBinary s d)) /\
  (forall s, no_error (clientAck_UnmarshalBinary s d)) /\
  (forall s, no_error (closeConnection_UnmarshalBinary s d)).
Proof.
  repeat split; intros s.
  - unfold clientRequest_UnmarshalBinary, slice_to, slice_from. no_err.
    apply no_error_unmarshal_files.
  - unfold serverMetaData_UnmarshalBinary. no_err.
  - unfold serverPayload_UnmarshalBinary, slice_from, uintOffset. no_err.
  - unfold clientAck_UnmarshalBinary, slice_from, uintOffset. no_err.
    apply no_error_unmarshal_resend.
  - unfold closeConnection_UnmarshalBinary, slice_to. no_err.
Qed.

(** The header decoder does return an error below two bytes. *)
Lemma msgHeader_UnmarshalBinary_short (s : msgHeader) (d : Slice) :
  (slen d < 2)%nat -> msgHeader_UnmarshalBinary s d = Err ErrMsgHeaderTooShort.
Proof. intros H. unfold msgHeader_UnmarshalBinary. by rewrite decide_True. Qed.

(** C5: a decoder handed less than its fixed prefix does not return an
    error.  The header decoder guards against fewer than two bytes and then
    reads the third: on two bytes it panics.  The body decoders have no
    guard: on the empty body of a three-byte ClientAck datagram
    [clientAck.UnmarshalBinary] panics, and [clientRequest.UnmarshalBinary]
    returns nil on an empty body after reading the receive buffer beyond the
    length of the body. *)
Theorem short_input_not_rejected :
  (forall spare,
      msgHeader_UnmarshalBinary msgHeader_zero (mkSlice [19; 0] spare)
      = Panic) /\
  (exists header p,
      receive ([19; 0; 0] ++ replicate 2045 0) 3 = Ok (header, p) /\
      msgType header = msgClientAck /\ slen (p_data p) = 0%nat /\
      handle (msgType header) p = Panic) /\
  (exists header p,
      receive ([16; 0; 0] ++ replicate 2045 0) 3 = Ok (header, p) /\
      msgType header = msgClientRequest /\ slen (p_data p) = 0%nat /\
      handle (msgType header) p
      = Ok (Some (MClientRequest (mkRequest 0 [])))).
Proof.
  split; [|split].
  - intros spare. reflexivity.
  - eexists _, _. split; [vm_compute; reflexivity|]. by vm_compute.
  - eexists _, _. split; [vm_compute; reflexivity|]. by vm_compute.
Qed.

(** Only [clientRequest.MarshalBinary] compares an offset with
    [maxFileOffset]. *)
Lemma clientRequest_MarshalBinary_rejects (rate : Z) (f : fileDescriptor)
    (fs : list fileDescriptor) :
  maxFileOffset < fd_offset f ->
  clientRequest_MarshalBinary (mkRequest rate (f :: fs))
  = Err ErrFileOffsetTooBig.
Proof.
  intros H. unfold clientRequest_MarshalBinary. cbn [files foldM].
  by rewrite decide_True.
Qed.

Lemma serverPayload_MarshalBinary_Ok (s : serverPayload) :
  serverPayload_MarshalBinary s
  = Ok (PutUint16 (sp_fileIndex s) ++ drop 1 (PutUint64 (sp_offset s))
        ++ data s).
Proof.
  unfold serverPayload_MarshalBinary, sevenByteOffset.
  cbn [mbind result_bind]. by rewrite <- app_assoc.
Qed.

(** C4: an offset above [2^56 - 1] is not rejected by
    [serverPayload.MarshalBinary] nor by [clientAck.MarshalBinary]: both
    return bytes and a nil error, with the offset cut to 56 bits. *)
Theorem offset_too_large_not_rejected :
  serverPayload_MarshalBinary (mkPayload 0 0 (2 ^ 56) [])
  = Ok [0; 0; 0; 0; 0; 0; 0; 0; 0] /\
  clientAck_MarshalBinary (mkAck 0 0 0 0 (2 ^ 56) [mkResend 0 (2 ^ 56 + 1) 1])
  = Ok [0; 0; 0; 0; 0; 0; 0; 0; 0; 0; 0; 0; 0; 0;
        0; 0; 0; 0; 0; 0; 0; 0; 1; 1].
Proof. split; reflexivity. Qed.

End CodecErrors.

(** ** The codec: round trips *)

Section RoundTripDefect.
Import Msg.

(** C1: marshalling and unmarshalling does not give back every resend entry
    of a ClientAck.  [sendTo] writes both entries of [ack_two_entries]; the
    loop of [clientAck.UnmarshalBinary] compares its counter with
    [len(reBytes)/10] while [reBytes] shrinks by one entry per iteration, and
    stops after the first of the two. *)
Theorem clientAck_round_trip_loses_entries :
  sendTo (MClientAck ack_two_entries)
  = Ok [19; 7; 0;  0; 0;  0;  0; 0; 0; 0;  0; 0; 0; 0; 0; 0; 0;
        0; 0;  0; 0; 0; 0; 0; 0; 1;  0;
        0; 0;  0; 0; 0; 0; 0; 0; 3;  0] /\
  exists header,
    transfer (MClientAck ack_two_entries)
    = Ok (header, Some (MClientAck (mkAck 7 0 0 0 0 [mkResend 0 1 0]))).
Proof.
  split; [reflexivity|].
  eexists. vm_compute. reflexivity.
Qed.

(** In the other message file the marshaller also writes the ack's own
    offset in place of each entry's offset. *)
Example ClientAck_V0_entry_offset :
  MsgV0.ClientAck_MarshalBinary
    (MsgV0.mkAck 7 0 0 0 0 [MsgV0.mkResend 0 1 0])
  = Ok [7;  0; 0;  0;  0; 0; 0; 0;  0; 0; 0; 0; 0; 0; 0;
        0; 0;  0; 0; 0; 0; 0; 0; 0;  0] /\
  MsgV0.ClientAck_UnmarshalBinary MsgV0.ClientAck_zero
    (of_bytes [7;  0; 0;  0;  0; 0; 0; 0;  0; 0; 0; 0; 0; 0; 0;
               0; 0;  0; 0; 0; 0; 0; 0; 0;  0])
  = Ok (MsgV0.mkAck 7 0 0 0 0 [MsgV0.mkResend 0 0 0]).
Proof. split; reflexivity. Qed.

End RoundTripDefect.

(** ** The chunk queue: Gaps on the offsets 0 and 300 *)

Section GapsExample.
Import MsgV0 Queue.

Example queue_0_300_items : items queue_0_300 = [chunk 0; chunk 300].
Proof. reflexivity. Qed.

(** What the loop returns for the offsets 0 and 300. *)
Example Gaps_0_300 :
  Gaps 4 queue_0_300 0
  = Some ([mkResend 0 0 0; mkResend 0 1 255; mkResend 0 257 43],
          queue_0_300).
Proof. reflexivity. Qed.

(** C3: for the received offsets 0 and 300, [Gaps(0)] does not return the
    two entries (1, 255) and (257, 42) but, whatever the fuel, the three
    entries (0, 0), (1, 255) and (257, 43).  After the split entry of length
    255 the loop advances [first] by [length + 1 = 256], from 1 to 257,
    while everywhere else an entry of length [l] stands for [l] chunks: read
    this way, the missing chunk 256 is in no entry.  Read as the chunks
    [offset .. offset + length], the first entry contains the received
    chunk 0 and the third the received chunk 300. *)
Theorem Gaps_0_300_skips_chunk :
  offsets queue_0_300 = [0; 300] /\
  Gaps 4 queue_0_300 0
  = Some ([mkResend 0 0 0; mkResend 0 1 255; mkResend 0 257 43],
          queue_0_300) /\
  (forall fuel res c',
      Gaps fuel queue_0_300 0 = Some (res, c') ->
      res = [mkResend 0 0 0; mkResend 0 1 255; mkResend 0 257 43] /\
      res <> [mkResend 0 1 255; mkResend 0 257 42] /\
      times_covered 256 res = 0%nat /\
      covers_inclusive 0 (mkResend 0 0 0) /\
      covers_inclusive 300 (mkResend 0 257 43)) /\
  256 ∉ offsets queue_0_300.
Proof.
  split; [reflexivity|]. split; [reflexivity|]. split.
  - intros fuel res c' H.
    do 4 (destruct fuel as [|fuel]; [vm_compute in H; discriminate|]).
    vm_compute in H. injection H as <- _.
    split; [reflexivity|]. split; [discriminate|]. split; [reflexivity|].
    unfold covers_inclusive. cbn. lia.
  - change (offsets queue_0_300) with [0; 300].
    rewrite !elem_of_cons, elem_of_nil. lia.
Qed.

End GapsExample.

(** ** The chunk queue: Top *)

Section TopRoot.
Import MsgV0 Queue.

Lemma Len_Swap c i j : Len (Swap c i j) = Len c.
Proof. unfold Len, Swap, with_items. cbn. by rewrite !length_insert. Qed.

Lemma Swap_lookup_other c i j k :
  k <> i -> k <> j -> items (Swap c i j) !!! k = items c !!! k.
Proof.
  intros Hi Hj. unfold Swap, with_items. cbn.
  rewrite list_lookup_total_insert_ne by done.
  by rewrite list_lookup_total_insert_ne.
Qed.

Lemma Swap_lookup_r c i j :
  (j < Len c)%nat -> items (Swap c i j) !!! j = items c !!! i.
Proof.
  intros Hj. unfold Swap, with_items. cbn.
  apply list_lookup_total_insert_eq. by rewrite length_insert.
Qed.

Lemma Len_down fuel c i n : Len (down fuel c i n) = Len c.
Proof.
  revert c i. induction fuel as [|fuel IH]; intros c i; cbn [down]; [done|].
  repeat case_match; try done; by rewrite IH, Len_Swap.
Qed.

(** [down(h, i, n)] leaves the items from index [n] on alone. *)
Lemma down_lookup_above fuel c i n k :
  (n <= k)%nat -> items (down fuel c i n) !!! k = items c !!! k.
Proof.
  revert c i. induction fuel as [|fuel IH]; intros c i Hk; cbn [down]; [done|].
  case_bool_decide as Hj1; [done|].
  destruct (bool_decide (2 * i + 1 + 1 < n)%nat && Less c (2 * i + 1 + 1) (2 * i + 1))
    eqn:Hr.
  - apply andb_prop in Hr as [Hr _]. apply bool_decide_eq_true in Hr.
    destruct (negb _); [done|].
    rewrite IH by done. apply Swap_lookup_other; lia.
  - destruct (negb _); [done|].
    rewrite IH by done. apply Swap_lookup_other; lia.
Qed.

(** [heap.Pop] returns the item at the root. *)
Lemma heap_Pop_root c :
  (0 < Len c)%nat -> (heap_Pop c).1 = items c !!! 0%nat.
Proof.
  intros Hn. unfold heap_Pop, Pop. cbn [fst].
  rewrite Len_down, Len_Swap.
  rewrite down_lookup_above by lia.
  apply Swap_lookup_r. lia.
Qed.

(** [Top] returns the offset of the item at the root of the heap. *)
Lemma Top_root c :
  (0 < Len c)%nat -> (Top c).1 = offset (items c !!! 0%nat).
Proof.
  intros Hn. unfold Top. rewrite bool_decide_eq_false_2 by lia.
  pose proof (heap_Pop_root c Hn) as H.
  destruct (heap_Pop c) as [item c']. cbn in *. by rewrite H.
Qed.

Lemma heap_ordered_parent c i :
  heap_ordered c = true -> (0 < i < Len c)%nat ->
  offset (items c !!! ((i - 1) / 2)%nat) <= offset (items c !!! i).
Proof.
  unfold heap_ordered. rewrite forallb_forall. intros H Hi.
  specialize (H i). rewrite <- list_elem_of_In, elem_of_seq in H.
  specialize (H ltac:(lia)). unfold Less in H.
  apply negb_true_iff, bool_decide_eq_false in H. lia.
Qed.

(** In heap order the root holds the least offset. *)
Lemma heap_ordered_root_min c i :
  heap_ordered c = true -> (i < Len c)%nat ->
  offset (items c !!! 0%nat) <= offset (items c !!! i).
Proof.
  intros Hh. induction (lt_wf i) as [i _ IH]. intros Hi.
  destruct (decide (i = 0%nat)) as [->|Hne]; [lia|].
  pose proof (heap_ordered_parent c i Hh ltac:(lia)) as Hp.
  assert (((i - 1) / 2 < i)%nat) as Hlt.
  { apply Nat.Div0.div_lt_upper_bound. lia. }
  specialize (IH _ Hlt ltac:(lia)). lia.
Qed.

(** The claim of C6 fails: the queue holds the offsets 0 and 300, and [Top]
    returns 0. *)
Lemma Top_0_300_not_max :
  offsets queue_0_300 = [0; 300] /\ (Top queue_0_300).1 <> 300.
Proof. split; [reflexivity|]. vm_compute. discriminate. Qed.

(** C6, as the code has it: [Less] orders by ascending offset, so the heap is
    a min-heap and [Top], which pops the root and pushes it back, returns
    the least offset of a non-empty queue in heap order. *)
Theorem Top_min (c : chunkQueue) :
  (0 < Len c)%nat -> heap_ordered c = true ->
  (Top c).1 ∈ offsets c /\ forall o, o ∈ offsets c -> (Top c).1 <= o.
Proof.
  intros Hn Hh. rewrite Top_root by done. split.
  - unfold offsets. apply list_elem_of_fmap. eexists. split; [done|].
    apply list_elem_of_lookup_total_2. done.
  - intros o Ho. unfold offsets in Ho.
    apply list_elem_of_fmap in Ho as (p & -> & Hp).
    apply list_elem_of_lookup_total in Hp as (i & Hi & <-).
    by apply heap_ordered_root_min.
Qed.

Lemma Top_min_witness :
  (0 < Len queue_0_300)%nat /\ heap_ordered queue_0_300 = true /\
  (Top queue_0_300).1 ∈ offsets queue_0_300 /\
  forall o, o ∈ offsets queue_0_300 -> (Top queue_0_300).1 <= o.
Proof.
  assert (H1 : (0 < Len queue_0_300)%nat) by (vm_compute; lia).
  assert (H2 : heap_ordered queue_0_300 = true) by reflexivity.
  split; [exact H1|]. split; [exact H2|].
  exact (Top_min queue_0_300 H1 H2).
Defined.

End TopRoot.

(** ** The Cleaner *)

Section CleanerNotifies.
Import Server.

(** A channel no value was sent on, and one that got its notification. *)
Definition untouched (x : chan) : Prop :=
  capacity x = 1%nat /\ buffered x = 0%nat /\ chan_closed x = false /\
  sent x = 0%nat.

Definition notified (x : chan) : Prop :=
  capacity x = 1%nat /\ chan_closed x = true /\ sent x = 1%nat.

(** What holds of a cleaner between calls: every channel made by
    [subscribe] is subscribed, and all channels are untouched before the
    close and notified after it. *)
Definition cleaner_inv (c : Cleaner) : Prop :=
  subs c = seq 0 (length (chans c)) /\
  (if closedState c
   then Forall notified (chans c) /\ cb_calls c = 1%nat
   else Forall untouched (chans c) /\ cb_calls c = 0%nat).

Lemma notify_all_untouched (ss : list nat) (chs : list chan) :
  NoDup ss ->
  (forall s, s ∈ ss -> exists x, chs !! s = Some x /\ untouched x) ->
  exists chs',
    notify_all chs ss = Returns chs' /\ length chs' = length chs /\
    (forall s, s ∈ ss -> exists x, chs' !! s = Some x /\ notified x) /\
    (forall k, k ∉ ss -> chs' !! k = chs !! k).
Proof.
  revert chs. induction ss as [|s ss IH]; intros chs Hnd Hall.
  - exists chs. cbn. split; [done|]. split; [done|]. split; [|done].
    intros s Hs. by apply elem_of_nil in Hs.
  - apply NoDup_cons in Hnd as [Hs Hnd].
    destruct (Hall s ltac:(left)) as (x & Hx & Hcap & Hbuf & Hcl & Hsent).
    cbn [notify_all]. rewrite Hx. unfold chan_send. rewrite Hcl.
    rewrite decide_True by lia. cbn [chan_close chan_closed].
    destruct (IH (<[s := mkChan (S (buffered x)) (capacity x) true (S (sent x))]> chs)
                Hnd) as (chs' & Hrun & Hlen & Hin & Hout).
    { intros s' Hs'. destruct (Hall s' ltac:(by right)) as (x' & Hx' & Hu).
      exists x'. split; [|done].
      rewrite list_lookup_insert_ne; [done|]. intros ->. done. }
    exists chs'. split; [done|]. split; [by rewrite Hlen, length_insert|].
    split.
    + intros s' Hs'. apply elem_of_cons in Hs' as [->|Hs']; [|by apply Hin].
      rewrite (Hout s Hs). eexists. split.
      * apply list_lookup_insert_eq. by eapply lookup_lt_Some.
      * unfold notified. cbn. rewrite Hcap, Hsent. done.
    + intros k Hk. apply not_elem_of_cons in Hk as [Hks Hk].
      rewrite (Hout k Hk). by apply list_lookup_insert_ne.
Qed.

Lemma close_inv (c : Cleaner) :
  cleaner_inv c ->
  exists c', close c = Returns c' /\ cleaner_inv c' /\ closedState c' = true /\
             length (chans c') = length (chans c).
Proof.
  intros [Hsubs Hst]. unfold close.
  destruct (closedState c) eqn:Hcl.
  - exists c. repeat split; try done. by rewrite Hcl.
  - destruct Hst as [Hun Hcb].
    destruct (notify_all_untouched (subs c) (chans c)) as (chs' & -> & Hlen & Hin & _).
    { rewrite Hsubs. apply NoDup_seq. }
    { intros s Hs. rewrite Hsubs, elem_of_seq in Hs.
      destruct (lookup_lt_is_Some_2 (chans c) s ltac:(lia)) as [x Hx].
      exists x. split; [done|].
      rewrite Forall_forall in Hun. apply Hun. by eapply list_elem_of_lookup_2. }
    eexists. split; [done|]. repeat split; cbn; try done.
    + by rewrite Hlen.
    + apply Forall_lookup. intros i x Hx.
      destruct (Hin i) as (x' & Hx' & Hn).
      { rewrite Hsubs, elem_of_seq. apply lookup_lt_Some in Hx. lia. }
      congruence.
    + by rewrite Hcb.
Qed.

Lemma subscribe_closed (c : Cleaner) :
  closedState c = true ->
  subscribe c
  = Returns (length (chans c),
             mkCleaner (chans c ++ [mkChan 1 1 true 1])
                       (subs c ++ [length (chans c)]) true (cb_calls c)).
Proof.
  intros Hcl. unfold subscribe. rewrite Hcl.
  change (chan_send (make_chan 1)) with (Returns (mkChan 1 1 false 1)).
  change (chan_close (mkChan 1 1 false 1)) with (Returns (mkChan 1 1 true 1)).
  cbv beta iota. do 3 f_equal.
  rewrite insert_app_r_alt by lia. by rewrite Nat.sub_diag.
Qed.

Lemma subscribe_open (c : Cleaner) :
  closedState c = false ->
  subscribe c
  = Returns (length (chans c),
             mkCleaner (chans c ++ [make_chan 1])
                       (subs c ++ [length (chans c)]) false (cb_calls c)).
Proof. intros Hcl. unfold subscribe. by rewrite Hcl. Qed.

Lemma subscribe_inv (c : Cleaner) :
  cleaner_inv c ->
  exists c', subscribe c = Returns (length (chans c), c') /\ cleaner_inv c' /\
             closedState c' = closedState c /\
             chans c' !! length (chans c)
             = Some (if closedState c then mkChan 1 1 true 1 else make_chan 1).
Proof.
  intros [Hsubs Hst].
  destruct (closedState c) eqn:Hcl; destruct Hst as [Hn Hcb].
  - rewrite subscribe_closed by done.
    eexists. split; [done|]. split; [|split; [done|]].
    + split; simpl.
      * rewrite Hsubs, length_app. simpl. by rewrite seq_app.
      * split; [|done]. apply Forall_app. split; [done|].
        by apply Forall_singleton.
    + simpl. by rewrite lookup_app_r, Nat.sub_diag.
  - rewrite subscribe_open by done.
    eexists. split; [done|]. split; [|split; [done|]].
    + split; simpl.
      * rewrite Hsubs, length_app. simpl. by rewrite seq_app.
      * split; [|done]. apply Forall_app. split; [done|].
        by apply Forall_singleton.
    + simpl. by rewrite lookup_app_r, Nat.sub_diag.
Qed.

Lemma recv_inv (c : Cleaner) (ch : nat) :
  cleaner_inv c ->
  exists c', step c (CallRecv ch) = Returns c' /\ cleaner_inv c' /\
             closedState c' = closedState c /\
             length (chans c') = length (chans c).
Proof.
  intros [Hsubs Hst]. cbn [step].
  destruct (chans c !! ch) as [x|] eqn:Hx; [|by exists c].
  eexists. split; [done|]. repeat split; cbn; [| |by rewrite length_insert].
  - by rewrite length_insert.
  - destruct (closedState c); destruct Hst as [Hall Hcb]; (split; [|done]).
    + apply Forall_insert; [done|].
      rewrite Forall_forall in Hall.
      destruct (Hall x) as (? & ? & ?); [by eapply list_elem_of_lookup_2|].
      by repeat split.
    + apply Forall_insert; [done|].
      rewrite Forall_forall in Hall.
      destruct (Hall x) as (? & Hb & ? & ?); [by eapply list_elem_of_lookup_2|].
      repeat split; cbn; try done. by rewrite Hb.
Qed.

Lemma run_inv (calls : list call) (c : Cleaner) :
  cleaner_inv c ->
  exists c', run c calls = Returns c' /\ cleaner_inv c' /\
             closedState c'
             = closedState c || bool_decide (CallClose ∈ calls) /\
             (length (chans c) <= length (chans c'))%nat.
Proof.
  revert c. induction calls as [|a calls IH]; intros c Hinv.
  - exists c. split; [done|]. split; [done|]. split; [|done].
    rewrite bool_decide_eq_false_2 by apply not_elem_of_nil.
    by rewrite orb_false_r.
  - cbn [run]. destruct a as [| |ch].
    + destruct (subscribe_inv c Hinv) as (c1 & H1 & Hinv1 & Hcl1 & Hch).
      cbn [step]. rewrite H1.
      destruct (IH c1 Hinv1) as (c' & Hrun & Hinv' & Hcl' & Hlen).
      exists c'. split; [done|]. split; [done|]. split.
      * rewrite Hcl', Hcl1. f_equal. apply bool_decide_ext.
        rewrite elem_of_cons. split; [by right|]. by intros [?|?].
      * apply lookup_lt_Some in Hch. lia.
    + destruct (close_inv c Hinv) as (c1 & H1 & Hinv1 & Hcl1 & Hl1).
      cbn [step]. rewrite H1.
      destruct (IH c1 Hinv1) as (c' & Hrun & Hinv' & Hcl' & Hlen).
      exists c'. split; [done|]. split; [done|]. split; [|lia].
      rewrite Hcl', Hcl1.
      rewrite (bool_decide_eq_true_2 (CallClose ∈ CallClose :: calls)) by left.
      by rewrite orb_true_r.
    + destruct (recv_inv c ch Hinv) as (c1 & H1 & Hinv1 & Hcl1 & Hl1).
      rewrite H1.
      destruct (IH c1 Hinv1) as (c' & Hrun & Hinv' & Hcl' & Hlen).
      exists c'. split; [done|]. split; [done|]. split; [|lia].
      rewrite Hcl', Hcl1. f_equal. apply bool_decide_ext.
      rewrite elem_of_cons. split; [by right|]. by intros [?|?].
Qed.

Lemma Cleaner_zero_inv : cleaner_inv Cleaner_zero.
Proof. split; [done|]. cbn. split; [apply Forall_nil_2|done]. Qed.

(** [close] on a closed cleaner changes nothing. *)
Lemma close_closed (c : Cleaner) : closedState c = true -> close c = Returns c.
Proof. intros H. unfold close. by rewrite H. Qed.

(** C9: take any sequence of calls on a fresh cleaner and any subscribe in
    it.  All calls return, and the subscribe returns a channel of its own,
    not one made earlier.  As long as no close was called, before or after
    the subscribe, nothing has been sent on this channel and it is open;
    once a close was called, whether before the subscribe or after it,
    exactly one notification has been sent on it and it is closed, whatever
    calls follow, further closes included; and a further close returns
    without touching any channel. *)
Theorem subscribe_notified_once (before after : list call) :
  exists c1 ch c2 c3 x,
    run Cleaner_zero before = Returns c1 /\
    subscribe c1 = Returns (ch, c2) /\
    ch = length (chans c1) /\
    run c2 after = Returns c3 /\
    run Cleaner_zero (before ++ CallSubscribe :: after) = Returns c3 /\
    chans c3 !! ch = Some x /\
    sent x = (if bool_decide (CallClose ∈ before ++ after) then 1 else 0)%nat /\
    chan_closed x = bool_decide (CallClose ∈ before ++ after) /\
    (CallClose ∈ before ++ after -> close c3 = Returns c3).
Proof.
  destruct (run_inv before Cleaner_zero Cleaner_zero_inv)
    as (c1 & Hrun1 & Hinv1 & Hcl1 & _).
  destruct (subscribe_inv c1 Hinv1) as (c2 & Hsub & Hinv2 & Hcl2 & Hch).
  destruct (run_inv after c2 Hinv2) as (c3 & Hrun3 & Hinv3 & Hcl3 & Hlen).
  assert (closedState c3 = bool_decide (CallClose ∈ before ++ after))
    as Hclosed.
  { rewrite Hcl3, Hcl2, Hcl1. cbn [closedState Cleaner_zero orb].
    destruct (decide (CallClose ∈ before)) as [H|H].
    - rewrite (bool_decide_eq_true_2 _ H). cbn [orb]. symmetry.
      apply bool_decide_eq_true_2, elem_of_app. by left.
    - rewrite (bool_decide_eq_false_2 _ H). cbn [orb].
      apply bool_decide_ext. rewrite elem_of_app. tauto. }
  destruct (lookup_lt_is_Some_2 (chans c3) (length (chans c1))) as [x Hx].
  { apply lookup_lt_Some in Hch. lia. }
  exists c1, (length (chans c1)), c2, c3, x.
  split; [done|]. split; [done|]. split; [done|]. split; [done|]. split.
  { clear -Hrun1 Hsub Hrun3. revert Hrun1. generalize Cleaner_zero.
    induction before as [|a l IH]; intros c0 Hrun1; cbn in Hrun1 |- *.
    - injection Hrun1 as ->. by rewrite Hsub.
    - destruct (step c0 a); [by apply IH|done..]. }
  split; [done|].
  destruct Hinv3 as [_ Hst]. rewrite <- Hclosed.
  destruct (closedState c3) eqn:Hc3; destruct Hst as [Hall _];
    rewrite Forall_forall in Hall;
    pose proof (Hall x ltac:(by eapply list_elem_of_lookup_2)) as Hx3.
  - destruct Hx3 as (_ & Hc & Hs).
    split; [done|]. split; [done|]. intros _. by apply close_closed.
  - destruct Hx3 as (_ & _ & Hc & Hs).
    split; [done|]. split; [done|]. intros Hin.
    apply (bool_decide_eq_true_2 _) in Hin. congruence.
Qed.

(** A run with a late subscriber and a second close. *)
Example cleaner_run :
  run Cleaner_zero [CallSubscribe; CallClose; CallSubscribe; CallClose]
  = Returns (mkCleaner [mkChan 1 1 true 1; mkChan 1 1 true 1] [0; 1]%nat
               true 1).
Proof. reflexivity. Qed.

End CleanerNotifies.

(** ** The rescheduler *)

Section ReschedulerRuns.
Import MsgV0 Server.

Variable payloadCache : gmap Z (gmap Z ServerPayload).

(** When the chunks [off + i .. off + i + n - 1] are cached, the inner loop
    sends them all, in order. *)
Lemma resend_run_cached (pl : Z -> ServerPayload) (fi off : Z) (n : nat)
    (i : Z) :
  (forall k, i <= k < i + Z.of_nat n ->
             getFromCache payloadCache fi (u64 (off + k)) = Some (pl k)) ->
  resend_run payloadCache n fi off i = pl <$> seqZ i (Z.of_nat n).
Proof.
  revert i. induction n as [|n IH]; intros i Hc; [done|].
  cbn [resend_run]. rewrite Hc by lia.
  rewrite Nat2Z.inj_succ, seqZ_cons by lia. cbn [fmap list_fmap]. f_equal.
  replace (Z.pred (Z.succ (Z.of_nat n))) with (Z.of_nat n) by lia.
  replace (Z.succ i) with (i + 1) by lia.
  apply IH. intros k Hk. apply Hc. lia.
Qed.

(** The loop body on an entry with [length > 0] whose run start is not in the
    rescheduled set of its file and whose chunks
    [offset .. offset + length - 1] are in the payload cache: it enqueues
    exactly these [length] payloads, in order, marks the run start as
    rescheduled and flags no metadata. *)
Lemma resend_entry_enqueues (pl : Z -> ServerPayload) (st : resched)
    (re : ResendEntry) :
  is_u64 (re_offset re) ->
  0 < re_length re ->
  re_offset re ∉ default ∅ (resendScheduled st !! re_fileIndex re) ->
  (forall k, 0 <= k < re_length re ->
             getFromCache payloadCache (re_fileIndex re) (u64 (re_offset re + k))
             = Some (pl k)) ->
  let st' := resend_entry payloadCache st re in
  resent st' = resent st ++ (pl <$> seqZ 0 (re_length re)) /\
  length (pl <$> seqZ 0 (re_length re)) = Z.to_nat (re_length re) /\
  re_offset re ∈ default ∅ (resendScheduled st' !! re_fileIndex re) /\
  metadata st' = metadata st.
Proof.
  intros Hoff Hlen Hnew Hc. cbv zeta. unfold resend_entry.
  rewrite (decide_False (P := re_length re = 0)) by lia.
  set (sched := match resendScheduled st !! re_fileIndex re with
                | Some _ => resendScheduled st
                | None => <[re_fileIndex re := ∅]> (resendScheduled st)
                end).
  assert (default ∅ (sched !! re_fileIndex re)
          = default ∅ (resendScheduled st !! re_fileIndex re)) as Hset.
  { unfold sched. destruct (resendScheduled st !! re_fileIndex re) eqn:E.
    - by rewrite E.
    - by rewrite lookup_insert_eq. }
  rewrite Hset, decide_False by done.
  assert (getFromCache payloadCache (re_fileIndex re) (re_offset re)
          = Some (pl 0)) as H0.
  { rewrite <- (Hc 0) by lia. f_equal. unfold u64.
    rewrite Z.add_0_r. symmetry. by apply Z.mod_small. }
  rewrite H0. cbn [resent resendScheduled metadata].
  rewrite (decide_False (P := re_length re = 0)) by lia.
  split; [|split; [|split]].
  - f_equal. cbn [app]. rewrite (resend_run_cached pl).
    + by rewrite Z2Nat.id by lia.
    + intros k Hk. apply Hc. lia.
  - by rewrite length_fmap, length_seqZ.
  - rewrite lookup_insert_eq. cbn. apply elem_of_union. left.
    by apply elem_of_singleton.
  - done.
Qed.

(** The sends on [c.resend] only grow. *)
Lemma resend_entry_resent (st : resched) (re : ResendEntry) :
  exists more, resent (resend_entry payloadCache st re) = resent st ++ more.
Proof.
  unfold resend_entry. case_decide.
  - exists []. by rewrite app_nil_r.
  - destruct (getFromCache _ _ _); eexists; cbn [resent]; [done|].
    by rewrite app_nil_r.
Qed.

Lemma resend_entries_resent (rate : Z) (i : nat) (l : list ResendEntry)
    (st : resched) :
  exists more,
    resent (resend_entries payloadCache rate i l st) = resent st ++ more.
Proof.
  revert i st. induction l as [|re l IH]; intros i st; cbn [resend_entries].
  - exists []. by rewrite app_nil_r.
  - case_decide; [exists []; by rewrite app_nil_r|].
    destruct (IH (S i) (resend_entry payloadCache st re)) as [m1 ->].
    destruct (resend_entry_resent st re) as [m2 ->].
    exists (m2 ++ m1). by rewrite app_assoc.
Qed.

(** The loop reaches the entry at index [length pre] when the rate does not
    cut it off: a rate of 0 is no limit. *)
Lemma resend_entries_app (rate : Z) (i : nat) (pre rest : list ResendEntry)
    (st : resched) :
  Z.of_nat (i + length pre) < 2 ^ 32 ->
  ~ (0 < rate /\ rate < Z.of_nat (i + length pre)) ->
  resend_entries payloadCache rate i (pre ++ rest) st
  = resend_entries payloadCache rate (i + length pre) rest
      (foldl (resend_entry payloadCache) st pre).
Proof.
  revert i st. induction pre as [|re pre IH]; intros i st Hi Hrate.
  - cbn. by rewrite Nat.add_0_r.
  - cbn [app resend_entries foldl length] in *.
    replace (i + S (length pre))%nat with (S i + length pre)%nat in * by lia.
    rewrite decide_False; [by rewrite IH|].
    unfold u32. rewrite Z.mod_small by lia. lia.
Qed.

Variable metadataCache : gmap Z ServerMetaData.

(** C8, as the code has it: take an ack whose entries, sorted by offset, are
    [pre ++ re :: post], where [re] has [length > 0], is not cut off by the
    ack's [maxTransmissionRate], has a run start that is not in the
    rescheduled set when the loop reaches it, and has its chunks
    [offset .. offset + length - 1] in the payload cache.  Let [st] be the
    state in which the loop reaches [re].  Handling [re] enqueues exactly
    these [length] payloads, in order, and nothing else: the sends after it
    are the sends before it followed by them.  It puts the run start into
    the rescheduled set and flags no metadata.  What the rescheduler has
    enqueued in the end is what the rest of the loop, over [post], leaves
    from there; with no entry after [re] it is the sends for [pre] followed
    by the [length] payloads. *)
Theorem reschedule_enqueues (pl : Z -> ServerPayload)
    (scheduled : gmap Z (gset Z)) (ack : ClientAck)
    (pre post : list ResendEntry) (re : ResendEntry) :
  merge_sort re_offset_le (resendEntries ack) = pre ++ re :: post ->
  Z.of_nat (length pre) < 2 ^ 32 ->
  ~ (0 < maxTransmissionRate ack /\
     maxTransmissionRate ack < Z.of_nat (length pre)) ->
  is_u64 (re_offset re) ->
  0 < re_length re ->
  let st := foldl (resend_entry payloadCache)
              (mkResched scheduled
                 (if metaDataMissing ack then {[ca_fileIndex ack]} else ∅) [])
              pre in
  re_offset re ∉ default ∅ (resendScheduled st !! re_fileIndex re) ->
  (forall k, 0 <= k < re_length re ->
             getFromCache payloadCache (re_fileIndex re) (u64 (re_offset re + k))
             = Some (pl k)) ->
  let st' := resend_entry payloadCache st re in
  resent st' = resent st ++ (pl <$> seqZ 0 (re_length re)) /\
  re_offset re ∈ default ∅ (resendScheduled st' !! re_fileIndex re) /\
  metadata st' = metadata st /\
  (reschedule payloadCache metadataCache scheduled ack).1.2
  = resent (resend_entries payloadCache (maxTransmissionRate ack)
              (S (length pre)) post st') /\
  (post = [] ->
   (reschedule payloadCache metadataCache scheduled ack).1.2
   = resent st ++ (pl <$> seqZ 0 (re_length re))).
Proof.
  intros Hsort Hpre Hrate Hoff Hlen st Hnew Hc st'.
  destruct (resend_entry_enqueues pl st re Hoff Hlen Hnew Hc)
    as (Hres & _ & Hin & Hmd).
  fold st' in Hres, Hin, Hmd.
  assert ((reschedule payloadCache metadataCache scheduled ack).1.2
          = resent (resend_entries payloadCache (maxTransmissionRate ack)
                      (S (length pre)) post st')) as Hout.
  { unfold reschedule. rewrite Hsort. cbn [fst snd].
    rewrite (decide_False (P := (length (pre ++ re :: post) <= 0)%nat))
      by (rewrite length_app; cbn; lia).
    rewrite (resend_entries_app _ 0) by (cbn; done).
    fold st. cbn [resend_entries Nat.add].
    rewrite decide_False
      by (unfold u32; rewrite Z.mod_small by lia; lia).
    done. }
  split; [done|]. split; [done|]. split; [done|]. split; [done|].
  intros ->. rewrite Hout. cbn [resend_entries]. done.
Qed.

End ReschedulerRuns.

(** The claim of C8 fails: the chunks 0 and 1 of file 0 are cached and
    nothing is rescheduled; for the entry (file 0, offset 0, length 1) the
    rescheduler enqueues the one payload at offset 0, not the two at the
    offsets 0 and 1. *)
Lemma reschedule_length_1_not_two :
  Server.getFromCache cache_0_1_2 0 0 = Some (chunk 0) /\
  Server.getFromCache cache_0_1_2 0 1 = Some (chunk 1) /\
  (Server.reschedule cache_0_1_2 ∅ ∅ (ack_run 1)).1.2 = [chunk 0] /\
  (Server.reschedule cache_0_1_2 ∅ ∅ (ack_run 1)).1.2 <> [chunk 0; chunk 1].
Proof.
  assert (H : (Server.reschedule cache_0_1_2 ∅ ∅ (ack_run 1)).1.2 = [chunk 0])
    by (vm_compute; reflexivity).
  split; [reflexivity|]. split; [reflexivity|]. split; [exact H|].
  rewrite H. discriminate.
Qed.

Lemma reschedule_enqueues_witness :
  Server.resent
    (Server.resend_entry cache_0_1_2 resched_empty (MsgV0.mkResend 0 0 2))
  = Server.resent resched_empty ++ (chunk <$> seqZ 0 2) /\
  0 ∈ default ∅
        (Server.resendScheduled
           (Server.resend_entry cache_0_1_2 resched_empty
              (MsgV0.mkResend 0 0 2)) !! 0) /\
  Server.metadata
    (Server.resend_entry cache_0_1_2 resched_empty (MsgV0.mkResend 0 0 2))
  = Server.metadata resched_empty /\
  (Server.reschedule cache_0_1_2 ∅ ∅ (ack_run 2)).1.2
  = Server.resent
      (Server.resend_entries cache_0_1_2 0 1 []
         (Server.resend_entry cache_0_1_2 resched_empty
            (MsgV0.mkResend 0 0 2))) /\
  (@nil MsgV0.ResendEntry = [] ->
   (Server.reschedule cache_0_1_2 ∅ ∅ (ack_run 2)).1.2
   = Server.resent resched_empty ++ (chunk <$> seqZ 0 2)).
Proof.
  apply (reschedule_enqueues cache_0_1_2 ∅ chunk ∅ (ack_run 2) [] []
           (MsgV0.mkResend 0 0 2)).
  - reflexivity.
  - simpl. lia.
  - simpl. lia.
  - unfold is_u64. simpl. lia.
  - simpl. lia.
  - simpl. apply not_elem_of_empty.
  - simpl. intros k Hk.
    assert (k = 0 \/ k = 1) as [-> | ->] by lia; reflexivity.
Defined.

(** ** The producer *)

Section ProducerSends.
Import MsgV0 Server.

Variable md5_Sum : list Z -> list Z.
Variable fh : FileHandler.

(** The read loop from chunk [off] on: it ends, and sends the chunks
    [off .. n/1024] in order, which together are the rest of the file. *)
Lemma read_loop_sends (r : SectionReader) (idx : Z) (fuel : nat) :
  forall (off : Z) (written : list Z),
    Size r < 2 ^ 64 ->
    0 <= off -> 1024 * off <= Size r ->
    Size r / 1024 - off < Z.of_nat fuel ->
    exists ps,
      read_loop fuel r idx off written
      = Some (SendPayload <$> ps,
              written ++ drop (Z.to_nat (1024 * off)) (content r)) /\
      offset <$> ps = seqZ off (Size r / 1024 + 1 - off) /\
      Forall (fun p => fileIndex p = idx /\ MsgV0.ackNumber p = 0 /\
                       (length (data p) <= 1024)%nat) ps /\
      concat (data <$> ps) = drop (Z.to_nat (1024 * off)) (content r).
Proof.
  induction fuel as [|fuel IH]; intros off written Hn Hoff Hle Hfuel.
  { exfalso. pose proof (Z.div_pos (Size r) 1024). cbn in Hfuel.
    assert (off <= Size r / 1024) by (apply Z.div_le_lower_bound; lia). lia. }
  assert (Hlen : Z.of_nat (length (content r)) = Size r) by done.
  assert (Hu : u64 off = off).
  { unfold u64. apply Z.mod_small. lia. }
  cbn [read_loop]. unfold ReadAt.
  destruct (decide (1024 * off < 0 \/ Size r <= 1024 * off)) as [Hend|Hmore].
  - (* the file ended on a chunk boundary: an empty last chunk *)
    assert (Size r = 1024 * off) as Hsz by lia.
    assert (Size r / 1024 = off) as Hdiv.
    { rewrite Hsz, Z.mul_comm. apply Z.div_mul. lia. }
    assert (drop (Z.to_nat (1024 * off)) (content r) = []) as Hdrop.
    { apply drop_ge. lia. }
    exists [mkPayload idx 0 off []]. rewrite Hu, Hdrop, Hdiv.
    replace (off + 1 - off) with 1 by lia.
    split; [done|]. split; [done|]. split; [|done].
    apply Forall_singleton. cbn. split; [done|]. split; [done|]. lia.
  - destruct (decide (Size r - 1024 * off < Z.of_nat 1024)) as [Hshort|Hfull].
    + (* the short last chunk *)
      assert (Size r / 1024 = off) as Hdiv.
      { symmetry. apply Z.div_unique with (r := Size r - 1024 * off); lia. }
      exists [mkPayload idx 0 off (drop (Z.to_nat (1024 * off)) (content r))].
      rewrite Hu, Hdiv. replace (off + 1 - off) with 1 by lia.
      split; [done|]. split; [done|]. split.
      * apply Forall_singleton. cbn. split; [done|]. split; [done|].
        rewrite length_drop. lia.
      * cbn. by rewrite app_nil_r.
    + (* a full chunk, and the loop goes on *)
      assert (off + 1 <= Size r / 1024) as Hdiv.
      { apply Z.div_le_lower_bound; lia. }
      destruct (IH (off + 1)
                  (written ++ take 1024 (drop (Z.to_nat (1024 * off)) (content r))))
        as (ps & Hrun & Hoffs & Hall & Hcat); [lia..|].
      rewrite Hrun. cbn [mbind option_bind].
      assert (take 1024 (drop (Z.to_nat (1024 * off)) (content r)) ++
              drop (Z.to_nat (1024 * (off + 1))) (content r)
              = drop (Z.to_nat (1024 * off)) (content r)) as Hsplit.
      { replace (Z.to_nat (1024 * (off + 1)))
          with (Z.to_nat (1024 * off) + 1024)%nat by lia.
        rewrite <- drop_drop. apply take_drop. }
      exists (mkPayload idx 0 off
                (take 1024 (drop (Z.to_nat (1024 * off)) (content r))) :: ps).
      rewrite Hu. split; [|split; [|split]].
      * cbn. by rewrite <- app_assoc, Hsplit.
      * cbn [fmap list_fmap offset]. fold (fmap (M:=list) offset ps).
        rewrite Hoffs. rewrite (seqZ_cons off) by lia. do 2 f_equal; lia.
      * apply Forall_cons. split; [|done]. cbn.
        split; [done|]. split; [done|]. rewrite length_take. lia.
      * cbn. fold (fmap (M:=list) data ps). by rewrite Hcat.
Qed.

Lemma respond_file_sends (fuel : nat) (fr : fileReader) :
  hasher fr = [] ->
  (forall r, sr fr = Some r ->
             Size r < 2 ^ 64 /\ Size r / 1024 < Z.of_nat fuel) ->
  exists evs,
    respond_file md5_Sum fuel fr = Some evs /\
    file_response md5_Sum (index fr) (sr fr) evs.
Proof.
  intros Hh Hr. unfold respond_file, file_response.
  destruct (sr fr) as [r|]; [|eexists; split; [done|]; by eexists].
  destruct (Hr r eq_refl) as [Hsz Hfuel].
  case_decide as Hz; [eexists; split; [done|]; by eexists|].
  assert (0 <= Size r) by (unfold Size; lia).
  destruct (read_loop_sends r (index fr) fuel 0 (hasher fr))
    as (ps & Hrun & Hoffs & Hall & Hcat); [lia..|].
  rewrite Hrun, Hh. cbn [mbind option_bind app].
  change (Z.to_nat (1024 * 0)) with 0%nat in *. rewrite drop_0 in *.
  eexists. split; [done|].
  exists ps, (mkMeta 0 0 (index fr) (u64 (Size r))
                (take 16 (md5_Sum (content r)))).
  split; [done|]. split.
  { rewrite Hoffs. f_equal.
    apply (f_equal length) in Hoffs. rewrite length_fmap, length_seqZ in Hoffs.
    pose proof (Z.div_pos (Size r) 1024 ltac:(lia) ltac:(lia)). lia. }
  split.
  { eapply Forall_impl; [exact Hall|]. cbn. intros p (? & _ & ?). done. }
  split; [done|]. cbn. split; [done|]. split; [|done].
  unfold u64. apply Z.mod_small. lia.
Qed.

Lemma respond_files_sends (fuel : nat) (srs : list fileReader) :
  Forall (fun fr => hasher fr = [] /\
                    forall r, sr fr = Some r ->
                              Size r < 2 ^ 64 /\ Size r / 1024 < Z.of_nat fuel)
         srs ->
  exists evss,
    respond_files md5_Sum fuel srs = Some (concat evss) /\
    Forall2 (fun fr => file_response md5_Sum (index fr) (sr fr)) srs evss.
Proof.
  induction 1 as [|fr srs [Hh Hr] _ IH]; cbn [respond_files].
  - exists []. split; [done|]. constructor.
  - destruct (respond_file_sends fuel fr Hh Hr) as (evs & -> & Hevs).
    destruct IH as (evss & -> & Hall).
    exists (evs :: evss). split; [done|]. by constructor.
Qed.

(** C7: in a session that stays open, the producer goes through the
    requested files in order, and what it sends is the responses to the
    files one after the other.  The response to the file at position [i]
    of the request is made from the reader the file handler returns for
    the name and the offset of this file, under the file index [i]: for a
    reader of [n > 0] bytes the payloads with the chunk offsets 0, 1, 2,
    ..., each with at most 1024 bytes and together the bytes of the reader,
    and then one metadata with status 0, size [n] and the MD5 sum of these
    bytes; for an absent file one metadata with status [fileNotExistent],
    for an empty file one with status [fileEmpty].  The loop ends once the
    fuel exceeds the number of full chunks of every file. *)
Theorem getResponse_sends (fuel : nat) (req : ClientRequest) :
  (forall fd r, fd ∈ files req ->
                fh (fileName fd) (fd_offset fd) = Some r ->
                Size r < 2 ^ 64 /\ Size r / 1024 < Z.of_nat fuel) ->
  exists evss,
    getResponse md5_Sum fh fuel req = Some (concat evss) /\
    length evss = length (files req) /\
    forall i fd,
      files req !! i = Some fd ->
      exists evs,
        evss !! i = Some evs /\
        file_response md5_Sum (u16 (Z.of_nat i))
          (fh (fileName fd) (fd_offset fd)) evs.
Proof.
  intros Hfiles. unfold getResponse.
  destruct (respond_files_sends fuel (file_readers fh req))
    as (evss & Hrun & Hall).
  { apply Forall_forall. intros fr Hfr. unfold file_readers in Hfr.
    apply elem_of_lookup_imap in Hfr as (i & fd & -> & Hfd).
    cbn. split; [done|]. intros r Hr.
    apply (Hfiles fd); [by eapply list_elem_of_lookup_2|done]. }
  exists evss. split; [done|].
  pose proof (Forall2_length _ _ _ Hall) as Hlen.
  unfold file_readers in Hlen. rewrite length_imap in Hlen.
  split; [done|]. intros i fd Hfd.
  assert (file_readers fh req !! i
          = Some (mkFileReader (u16 (Z.of_nat i))
                    (fh (fileName fd) (fd_offset fd)) [])) as Hfr.
  { unfold file_readers. by rewrite list_lookup_imap, Hfd. }
  destruct (Forall2_lookup_l _ _ _ _ _ Hall Hfr) as (evs & Hevs & Hresp).
  exists evs. split; [done|]. exact Hresp.
Qed.

End ProducerSends.

Lemma getResponse_sends_witness :
  exists evss,
    Server.getResponse (fun _ => replicate 16 0) fh_example 3 request_example
    = Some (concat evss) /\
    length evss = length (Server.files request_example) /\
    forall i fd,
      Server.files request_example !! i = Some fd ->
      exists evs,
        evss !! i = Some evs /\
        file_response (fun _ => replicate 16 0) (u16 (Z.of_nat i))
          (fh_example (Server.fileName fd) (Server.fd_offset fd)) evs.
Proof.
  apply (getResponse_sends (fun _ => replicate 16 0) fh_example 3
           request_example).
  intros fd r Hin Hr. simpl in Hin.
  repeat (apply elem_of_cons in Hin as [-> | Hin]);
    [..|by apply elem_of_nil in Hin];
    vm_compute in Hr; try discriminate;
    injection Hr as <-; vm_compute; split; reflexivity.
Defined.

(** The producer on a file of 2500 bytes: the chunks 0, 1 and 2 with 1024,
    1024 and 452 bytes, then the metadata. *)
Example getResponse_2500 :
  Server.getResponse (fun _ => replicate 16 0) fh_example 3
    (Server.mkRequest 0 [Server.mkFile 0 "a"])
  = Some [Server.SendPayload (MsgV0.mkPayload 0 0 0 (replicate 1024 7));
          Server.SendPayload (MsgV0.mkPayload 0 0 1 (replicate 1024 7));
          Server.SendPayload (MsgV0.mkPayload 0 0 2 (replicate 452 7));
          Server.SendMetadata
            (Server.mkMeta 0 0 0 2500 (replicate 16 0))].
Proof. vm_compute. reflexivity. Qed.

(** ** The chunk queue: Gaps on gaps of at most 255 chunks *)

Section GapsSorted.
Import MsgV0 Queue.

(** A queue whose items are in strictly ascending order of their offsets, as
    [sort.Sort] leaves a queue without duplicates; no two neighbours are
    more than 255 missing chunks apart. *)
Variable c : chunkQueue.

Let n : nat := Len c.
Let o (k : nat) : Z := offset (items c !!! k).

Hypothesis Hsorted : forall i j, (i < j < n)%nat -> o i < o j.
Hypothesis Hrange : forall i, (i < n)%nat -> 0 <= o i < 2 ^ 64.
Hypothesis Hgap : forall i, (S i < n)%nat -> o (S i) <= o i + 256.

Lemma o_mono i j : (i <= j < n)%nat -> o i <= o j.
Proof.
  intros H. destruct (decide (i = j)) as [->|]; [lia|].
  pose proof (Hsorted i j). lia.
Qed.

(** The inner loop stays below the last item and passes received chunks
    only. *)
Lemma skip_received_spec (fuel : nat) :
  forall (j : nat) (first : Z),
    (1 <= j < n)%nat -> first = o (j - 1) + 1 -> (n - 1 - j <= fuel)%nat ->
    exists first' j',
      skip_received fuel c first j = (first', j') /\
      (j <= j' < n)%nat /\ first' = o (j' - 1) + 1 /\
      forall x, first <= x < first' -> exists k, (j <= k < j')%nat /\ o k = x.
Proof.
  induction fuel as [|fuel IH]; intros j first Hj Hfirst Hfuel.
  - exists first, j. split; [done|]. split; [lia|]. split; [done|].
    intros x Hx. lia.
  - cbn [skip_received]. fold n.
    case_bool_decide as Hlast.
    2:{ exists first, j. split; [done|]. split; [lia|]. split; [done|].
        intros x Hx. lia. }
    fold (o j). case_bool_decide as Hbreak.
    { exists first, j. split; [done|]. split; [lia|]. split; [done|].
      intros x Hx. lia. }
    pose proof (Hsorted (j - 1) j ltac:(lia)) as H1.
    pose proof (Hsorted j (S j) ltac:(lia)) as H2.
    pose proof (Hrange (S j) ltac:(lia)) as H3.
    pose proof (Hrange j ltac:(lia)) as H4.
    assert (o j = first) as Hj' by lia.
    assert (u64 (first + 1) = o j + 1) as Hu.
    { unfold u64. rewrite Z.mod_small; lia. }
    rewrite Hu.
    destruct (IH (S j) (o j + 1)) as (first' & j' & Hrun & Hjj & Hf & Hbetween);
      [lia| |lia|].
    { f_equal. f_equal. lia. }
    exists first', j'. split; [done|]. split; [lia|]. split; [done|].
    intros x Hx. destruct (decide (x = first)) as [->|Hne].
    + exists j. split; [lia|done].
    + destruct (Hbetween x ltac:(lia)) as (k & Hk & Hok).
      exists k. split; [lia|done].
Qed.

Lemma skip_received_last (fuel : nat) (first : Z) (j : nat) :
  (Len c - 1 <= j)%nat -> skip_received fuel c first j = (first, j).
Proof.
  intros Hj. destruct fuel as [|fuel]; [done|]. cbn [skip_received].
  rewrite bool_decide_eq_false_2; [done|lia].
Qed.

Lemma times_covered_app x l1 l2 :
  times_covered x (l1 ++ l2) = (times_covered x l1 + times_covered x l2)%nat.
Proof. unfold times_covered. by rewrite filter_app, length_app. Qed.

Lemma times_covered_single x fi first len :
  times_covered x [mkResend fi first len]
  = if decide (first <= x < first + len) then 1%nat else 0%nat.
Proof.
  unfold times_covered. cbn. unfold filter, list_filter.
  unfold covers at 1. cbn [re_offset re_length].
  destruct (decide (first <= x < first + len)); reflexivity.
Qed.

Lemma elem_of_offsets x :
  x ∈ offsets c <-> exists k, (k < n)%nat /\ o k = x.
Proof.
  unfold offsets. rewrite list_elem_of_fmap. split.
  - intros (p & -> & Hp).
    apply list_elem_of_lookup_total in Hp as (k & Hk & <-). by exists k.
  - intros (k & Hk & <-). exists (items c !!! k). split; [done|].
    by apply list_elem_of_lookup_total_2.
Qed.

(** The outer loop from item [i] on, when every gap is at most 255 wide: it
    ends within [n - i + 1] rounds, and the entries it adds cover, counted
    by their lengths, each missing offset from [first] up to the last item
    once and no other offset. *)
Lemma Gaps_loop_spec (fuel : nat) :
  forall (i : nat) (first : Z) (res : list ResendEntry),
    (i <= n)%nat -> (n - i < fuel)%nat ->
    ((i < n)%nat ->
     0 <= first <= o i /\ o i <= first + 255 /\
     forall k, (k < i)%nat -> o k < first) ->
    exists res',
      Gaps_loop fuel c first i res = Some (res ++ res') /\
      forall x,
        times_covered x res'
        = if decide ((i < n)%nat /\ first <= x <= o (n - 1) /\ x ∉ offsets c)
          then 1%nat else 0%nat.
Proof.
  induction fuel as [|fuel IH]; intros i first res Hi Hfuel Hinv; [lia|].
  cbn [Gaps_loop]. fold n.
  case_bool_decide as Hin.
  2:{ exists []. split; [by rewrite app_nil_r|]. intros x.
      rewrite decide_False by lia. done. }
  destruct (Hinv Hin) as (Hfirst & Hwidth & Hbelow).
  fold (o i). pose proof (Hrange i Hin) as Hoi.
  assert (u64 (o i - first) = o i - first) as Hlen.
  { unfold u64. apply Z.mod_small. lia. }
  rewrite Hlen. rewrite (bool_decide_eq_false_2 (255 < o i - first)) by lia.
  assert (u8 (o i - first) = o i - first) as Hlen8.
  { unfold u8. apply Z.mod_small. lia. }
  rewrite Hlen8.
  replace (first + (o i - first + 1)) with (o i + 1) by lia.
  set (re := mkResend (q_fileIndex c) first (o i - first)).
  assert (forall x, first <= x < o i -> x ∉ offsets c) as Hmissing.
  { intros x Hx [k [Hk Hok]]%elem_of_offsets.
    destruct (decide (k < i)%nat) as [Hlt|Hge].
    - specialize (Hbelow k Hlt). lia.
    - pose proof (o_mono i k ltac:(lia)). lia. }
  destruct (decide (S i = n)) as [Hlast|Hnotlast].
  - (* the last item: the inner loop does not run *)
    assert (skip_received n c (u64 (o i + 1)) (S i) = (u64 (o i + 1), S i))
      as Hskip.
    { apply skip_received_last. fold n. lia. }
    rewrite Hskip.
    destruct fuel as [|fuel]; [lia|]. cbn [Gaps_loop]. fold n.
    rewrite bool_decide_eq_false_2 by lia.
    exists [re]. split; [done|]. intros x.
    unfold re. rewrite times_covered_single.
    replace (first + (o i - first)) with (o i) by lia.
    replace (n - 1)%nat with i by lia.
    destruct (decide (first <= x < o i)) as [Hx|Hx].
    + rewrite decide_True; [done|]. split; [done|]. split; [lia|].
      by apply Hmissing.
    + rewrite decide_False; [done|]. intros (_ & Hx' & Hnot).
      apply Hnot. apply elem_of_offsets. exists i. split; [done|]. lia.
  - (* further items follow *)
    pose proof (Hsorted i (S i) ltac:(lia)) as Hnext.
    pose proof (Hrange (S i) ltac:(lia)) as Hnextr.
    assert (u64 (o i + 1) = o i + 1) as Hu.
    { unfold u64. apply Z.mod_small. lia. }
    rewrite Hu.
    destruct (skip_received_spec (Len c) (S i) (o i + 1))
      as (first2 & i2 & Hskip & Hi2 & Hf2 & Hbetween).
    { lia. }
    { f_equal. f_equal. lia. }
    { fold n. lia. }
    fold n in Hskip. rewrite Hskip.
    destruct (IH i2 first2 (res ++ [re])) as (res2 & Hrun & Hcount);
      [lia|lia| |].
    { intros _.
      pose proof (Hsorted (i2 - 1) i2 ltac:(lia)).
      pose proof (Hgap (i2 - 1)%nat) as Hg.
      replace (S (i2 - 1)) with i2 in Hg by lia. specialize (Hg ltac:(lia)).
      pose proof (Hrange (i2 - 1)%nat ltac:(lia)).
      split; [lia|]. split; [lia|].
      intros k Hk. pose proof (o_mono k (i2 - 1) ltac:(lia)). lia. }
    rewrite Hrun. exists (re :: res2). split; [by rewrite <- app_assoc|].
    intros x. change (re :: res2) with ([re] ++ res2).
    rewrite times_covered_app, Hcount. unfold re.
    rewrite times_covered_single.
    replace (first + (o i - first)) with (o i) by lia.
    pose proof (o_mono i (i2 - 1) ltac:(lia)) as Hmono.
    destruct (decide (first <= x < o i)) as [Hx|Hx].
    + rewrite (decide_False (P := _ /\ first2 <= x <= _ /\ _)) by lia.
      rewrite decide_True; [done|]. split; [done|]. split.
      * pose proof (o_mono i (n - 1) ltac:(lia)). lia.
      * by apply Hmissing.
    + destruct (decide (first2 <= x)) as [Hx2|Hx2].
      * destruct (decide (x <= o (n - 1) /\ x ∉ offsets c)) as [Hr|Hr].
        -- rewrite !decide_True; [done| |]; (split; [lia|]); split;
             [lia|tauto|lia|tauto].
        -- rewrite !decide_False; [done| |]; intros (? & ? & ?);
             apply Hr; split; [lia|done|lia|done].
      * rewrite (decide_False (P := _ /\ first2 <= x <= _ /\ _)) by lia.
        rewrite decide_False; [done|]. intros (_ & Hx' & Hnot).
        apply Hnot. apply elem_of_offsets.
        destruct (decide (x = o i)) as [->|Hne]; [by exists i|].
        destruct (Hbetween x ltac:(lia)) as (k & Hk & Hok).
        exists k. split; [lia|done].
Qed.

End GapsSorted.

Section GapsPartition.
Import MsgV0 Queue.

#[local] Instance offset_le_total : Total offset_le.
Proof. intros a b. unfold offset_le. lia. Qed.

#[local] Instance offset_le_trans : Transitive offset_le.
Proof. intros a b d. unfold offset_le. lia. Qed.

Lemma StronglySorted_lookup_le {A : Type} (R : relation A) (l : list A) :
  StronglySorted R l ->
  forall i j a b, (i < j)%nat -> l !! i = Some a -> l !! j = Some b -> R a b.
Proof.
  induction 1 as [|x l Hl IH Hx]; intros i j a b Hij Ha Hb; [done|].
  destruct j as [|j]; [lia|]. cbn in Hb.
  destruct i as [|i]; cbn in Ha.
  - injection Ha as <-. rewrite Forall_forall in Hx. apply Hx.
    by eapply list_elem_of_lookup_2.
  - apply (IH i j); [lia|done..].
Qed.

Lemma sort_Sort_offsets (c : chunkQueue) :
  offsets (sort_Sort c) ≡ₚ offsets c.
Proof.
  unfold offsets, sort_Sort, with_items. cbn.
  apply fmap_Permutation. apply merge_sort_Permutation.
Qed.

Lemma sort_Sort_Len (c : chunkQueue) : Len (sort_Sort c) = Len c.
Proof.
  unfold Len, sort_Sort, with_items. cbn.
  apply Permutation_length. apply merge_sort_Permutation.
Qed.

(** After [sort.Sort] a queue without duplicates is in strictly ascending
    order. *)
Lemma sort_Sort_strict (c : chunkQueue) (i j : nat) :
  NoDup (offsets c) -> (i < j < Len (sort_Sort c))%nat ->
  offset (items (sort_Sort c) !!! i) < offset (items (sort_Sort c) !!! j).
Proof.
  intros Hnd Hij.
  assert (NoDup (offsets (sort_Sort c))) as Hnd'
    by (by rewrite sort_Sort_offsets).
  destruct (lookup_lt_is_Some_2 (items (sort_Sort c)) i) as [a Ha];
    [unfold Len in Hij; lia|].
  destruct (lookup_lt_is_Some_2 (items (sort_Sort c)) j) as [b Hb];
    [unfold Len in Hij; lia|].
  rewrite (list_lookup_total_correct _ _ _ Ha).
  rewrite (list_lookup_total_correct _ _ _ Hb).
  assert (offset_le a b) as Hle.
  { eapply (StronglySorted_lookup_le offset_le (items (sort_Sort c)));
      [|apply (proj1 Hij)|done..].
    apply Sorted_StronglySorted; [apply _|].
    unfold sort_Sort, with_items. cbn. apply Sorted_merge_sort. apply _. }
  assert (offset a <> offset b) as Hne.
  { intros Heq.
    assert (i = j); [|lia].
    eapply (NoDup_lookup _ i j (offset a) Hnd').
    - unfold offsets. by rewrite list_lookup_fmap, Ha.
    - unfold offsets. by rewrite list_lookup_fmap, Hb, Heq. }
  unfold offset_le in Hle. lia.
Qed.

(** On the reading "offset through offset + length" a run ends on a received
    offset: the queue holds the offset 0 alone, and [Gaps(0)] returns the run
    (offset 0, length 0), which on this reading contains the offset 0. *)
Lemma Gaps_run_contains_received :
  offsets queue_0 = [0] /\
  Gaps 2 queue_0 0 = Some ([mkResend 0 0 0], queue_0) /\
  covers_inclusive 0 (mkResend 0 0 0) /\
  ~ (forall fuel res c',
        Gaps fuel queue_0 0 = Some (res, c') ->
        forall x, times_covered_inclusive x res
                  = if decide (0 <= x <= 0 /\ x ∉ offsets queue_0)
                    then 1%nat else 0%nat).
Proof.
  split; [reflexivity|]. split; [reflexivity|]. split.
  - unfold covers_inclusive. cbn. lia.
  - intros H. specialize (H 2%nat _ _ eq_refl 0). vm_compute in H.
    discriminate.
Qed.

(** Without a split the runs do partition the missing offsets, counted as
    the code counts them: let the queue hold the set [S] of offsets, all in
    [[from, m]] with [m = max S], such that any 256 consecutive offsets of
    [[from, m]] include one of [S] (no gap is wider than 255 chunks).  Then
    [Gaps(from)] returns, and its runs, each covering the [length] offsets
    [offset .. offset + length - 1], contain every offset of [[from, m]]
    that is not in [S] exactly once and no other offset. *)
Theorem Gaps_partitions (c : chunkQueue) (from m : Z) (fuel : nat) :
  NoDup (offsets c) ->
  (forall x, x ∈ offsets c -> from <= x <= m) ->
  m ∈ offsets c ->
  0 <= from -> m < 2 ^ 64 ->
  (forall x, from <= x -> x + 255 <= m ->
             exists y, y ∈ offsets c /\ x <= y <= x + 255) ->
  (Len c < fuel)%nat ->
  exists res c',
    Gaps fuel c from = Some (res, c') /\
    forall x,
      times_covered x res
      = if decide (from <= x <= m /\ x ∉ offsets c) then 1%nat else 0%nat.
Proof.
  intros Hnd Hin Hm Hfrom Hm64 Hwindow Hfuel.
  set (cs := sort_Sort c).
  assert (forall x, x ∈ offsets cs <-> x ∈ offsets c) as Hperm.
  { intros x. unfold cs. by rewrite sort_Sort_offsets. }
  assert (forall k, (k < Len cs)%nat ->
                    offset (items cs !!! k) ∈ offsets c) as Hk.
  { intros k Hk. apply Hperm. apply elem_of_offsets. by exists k. }
  assert (forall i j, (i < j < Len cs)%nat ->
            offset (items cs !!! i) < offset (items cs !!! j)) as Hsorted.
  { intros i j Hij. by apply sort_Sort_strict. }
  assert (forall i, (i < Len cs)%nat ->
            0 <= offset (items cs !!! i) < 2 ^ 64) as Hrange.
  { intros i Hi. specialize (Hin _ (Hk i Hi)). lia. }
  assert (forall y, y ∈ offsets c ->
            exists k, (k < Len cs)%nat /\ offset (items cs !!! k) = y) as Hidx.
  { intros y Hy. apply Hperm in Hy. by apply elem_of_offsets in Hy. }
  assert (forall i, (S i < Len cs)%nat ->
            offset (items cs !!! S i) <= offset (items cs !!! i) + 256) as Hgap.
  { intros i Hi.
    destruct (decide (offset (items cs !!! S i)
                      <= offset (items cs !!! i) + 256)) as [|Hwide]; [done|].
    exfalso.
    pose proof (Hin _ (Hk i ltac:(lia))) as Hi1.
    pose proof (Hin _ (Hk (S i) Hi)) as Hi2.
    destruct (Hwindow (offset (items cs !!! i) + 1)) as (y & Hy & Hyr); [lia..|].
    destruct (Hidx y Hy) as (k & Hklt & <-).
    destruct (decide (k <= i)%nat) as [Hle|Hgt].
    - pose proof (o_mono cs Hsorted k i ltac:(lia)) as Hmono.
      cbv beta in Hmono. lia.
    - pose proof (o_mono cs Hsorted (S i) k ltac:(lia)) as Hmono.
      cbv beta in Hmono. lia. }
  assert (0 < Len cs)%nat as Hpos.
  { destruct (Hidx m Hm) as (k & Hklt & _). lia. }
  assert (offset (items cs !!! (Len cs - 1)%nat) = m) as Hmax.
  { destruct (Hidx m Hm) as (k & Hklt & Hkm).
    pose proof (o_mono cs Hsorted k (Len cs - 1) ltac:(lia)) as Hmono.
    cbv beta in Hmono.
    pose proof (Hin _ (Hk (Len cs - 1)%nat ltac:(lia))). lia. }
  destruct (Gaps_loop_spec cs Hsorted Hrange Hgap fuel 0 from [])
    as (res & Hrun & Hcount).
  { lia. }
  { unfold cs. rewrite sort_Sort_Len. lia. }
  { intros _. pose proof (Hin _ (Hk 0%nat Hpos)) as H0.
    split; [lia|]. split; [|intros k Hk0; lia].
    destruct (decide (offset (items cs !!! 0%nat) <= from + 255))
      as [|Hwide]; [done|].
    exfalso. destruct (Hwindow from) as (y & Hy & Hyr); [lia..|].
    destruct (Hidx y Hy) as (k & Hklt & <-).
    pose proof (o_mono cs Hsorted 0 k ltac:(lia)) as Hmono.
      cbv beta in Hmono. lia. }
  exists res, (heap_Init cs). split.
  - unfold Gaps. fold cs. rewrite Hrun. done.
  - intros x. rewrite Hcount, Hmax.
    destruct (decide (from <= x <= m /\ x ∉ offsets c)) as [Hx|Hx].
    + rewrite decide_True; [done|]. split; [done|]. split; [tauto|].
      rewrite Hperm. tauto.
    + rewrite decide_False; [done|]. rewrite Hperm. tauto.
Qed.

(** C2: the runs of [Gaps] do not partition the missing offsets once a gap
    is wider than 255 chunks.  The queue holds the one received offset 300,
    and [Gaps(0)] returns, whatever the fuel, the runs (0, 255) and
    (256, 44): the entry of a split is followed by [first += length + 1],
    as if it stood for the chunks [offset .. offset + length], while the
    length of the entry in front of an item is [offset of the item - first],
    the number of chunks [offset .. offset + length - 1].  Read the first
    way, as the claim does, the second run contains the received offset
    300; read the second way, the missing offset 255 is in no run. *)
Theorem Gaps_wide_gap_not_partition :
  offsets (queue_single 0 0 (chunk 300)) = [300] /\
  (fst <$> Gaps 3 (queue_single 0 0 (chunk 300)) 0)
  = Some [mkResend 0 0 255; mkResend 0 256 44] /\
  forall fuel res c',
    Gaps fuel (queue_single 0 0 (chunk 300)) 0 = Some (res, c') ->
    res = [mkResend 0 0 255; mkResend 0 256 44] /\
    times_covered_inclusive 300 res = 1%nat /\
    times_covered 255 res = 0%nat.
Proof.
  split; [reflexivity|]. split; [reflexivity|].
  intros fuel res c' H.
  do 3 (destruct fuel as [|fuel]; [vm_compute in H; discriminate|]).
  vm_compute in H. injection H as <- _.
  split; [reflexivity|]. split; reflexivity.
Qed.

Lemma Gaps_partitions_witness :
  exists res c',
    Gaps 4 queue_4_0_2 0 = Some (res, c') /\
    forall x,
      times_covered x res
      = if decide (0 <= x <= 4 /\ x ∉ offsets queue_4_0_2)
        then 1%nat else 0%nat.
Proof.
  apply (Gaps_partitions queue_4_0_2 0 4 4).
  - change (offsets queue_4_0_2) with [4; 0; 2].
    apply (bool_decide_unpack _). vm_compute. exact I.
  - change (offsets queue_4_0_2) with [4; 0; 2]. intros x Hx.
    repeat (apply elem_of_cons in Hx as [-> | Hx]); [lia..|].
    by apply elem_of_nil in Hx.
  - change (offsets queue_4_0_2) with [4; 0; 2]. apply elem_of_cons. by left.
  - lia.
  - lia.
  - intros x H1 H2. lia.
  - vm_compute. lia.
Defined.

(** The runs for the received offsets 0, 2 and 4. *)
Example Gaps_4_0_2 :
  fst <$> Gaps 4 queue_4_0_2 0
  = Some [mkResend 0 0 0; mkResend 0 1 1; mkResend 0 3 1].
Proof. reflexivity. Qed.

End GapsPartition.

(** ** The codec: what is decoded from what was encoded *)

Ltac list_norm :=
  cbn [firstn skipn app length Nat.sub]; rewrite ?drop_0, ?take_0.

Section SliceFacts.

Lemma slice_in (v sp : list Z) (lo hi : nat) :
  (lo <= hi <= length v)%nat ->
  slice (mkSlice v sp) lo hi
  = Ok (mkSlice (take (hi - lo) (drop lo v)) (drop hi v ++ sp)).
Proof.
  intros H. unfold slice, scap. cbn [vis spare].
  rewrite decide_True by lia. f_equal. f_equal.
  - rewrite drop_app_le by lia. rewrite take_app_le; [done|].
    rewrite length_drop. lia.
  - by rewrite drop_app_le by lia.
Qed.

Lemma slice_from_in (v sp : list Z) (lo : nat) :
  (lo <= length v)%nat ->
  slice_from (mkSlice v sp) lo = Ok (mkSlice (drop lo v) sp).
Proof.
  intros H. unfold slice_from, slen. cbn [vis]. rewrite slice_in by lia.
  f_equal. f_equal.
  - apply take_ge. rewrite length_drop. lia.
  - by rewrite drop_all.
Qed.

Lemma index_in (v sp : list Z) (i : nat) (b : Z) :
  v !! i = Some b -> index (mkSlice v sp) i = Ok b.
Proof. intros H. unfold index. cbn [vis]. by rewrite H. Qed.

End SliceFacts.

Section OptionRoundTrip.
Import Msg.

Lemma option_decode (o o0 : option_) (rest sp : list Z) :
  (length (value o) <= 255)%nat ->
  exists bs,
    option_MarshalBinary o = Ok bs /\
    length bs = (2 + length (value o))%nat /\
    option_UnmarshalBinary o0 (mkSlice (bs ++ rest) sp)
    = Ok (mkOption (otype o) (value o) (2 + length (value o))).
Proof.
  intros Hlen. eexists. split; [reflexivity|]. split; [done|].
  unfold option_UnmarshalBinary, slen. cbn [vis app length].
  rewrite decide_False by lia.
  rewrite (index_in _ _ 0 (otype o)) by done. cbn [mbind result_bind].
  erewrite (index_in _ _ 1) by done. cbn [mbind result_bind].
  assert (Z.to_nat (u8 (byte_of (Z.of_nat (length (value o)))))
          = length (value o)) as ->.
  { rewrite byte_of_id by (unfold is_u8; lia).
    unfold u8. rewrite Z.mod_small by lia. lia. }
  rewrite decide_False by (rewrite length_app; lia).
  rewrite slice_in by (cbn; rewrite length_app; lia).
  cbn [mbind result_bind vis]. do 2 f_equal.
  replace (2 + length (value o) - 2)%nat with (length (value o)) by lia.
  cbn [skipn]. rewrite drop_0. by rewrite take_app_length.
Qed.

(** An option whose value has at most 255 bytes is encoded in
    [2 + len(value)] bytes, and [option.UnmarshalBinary] reads it back from
    the front of any buffer, setting its length to the bytes it took. *)
Theorem option_round_trip (o o0 : option_) (rest sp : list Z) :
  (length (value o) <= 255)%nat ->
  exists bs,
    option_MarshalBinary o = Ok bs /\
    length bs = (2 + length (value o))%nat /\
    option_UnmarshalBinary o0 (mkSlice (bs ++ rest) sp)
    = Ok (mkOption (otype o) (value o) (2 + length (value o))).
Proof. exact (option_decode o o0 rest sp). Qed.
End OptionRoundTrip.

Section HeaderRoundTrip.
Import Msg.

Lemma vt_round_trip (v t : Z) :
  0 <= v < 16 -> 0 <= t < 16 ->
  Z.shiftr (Z.land (Z.lxor (u8 (Z.shiftl v 4)) t) 240) 4 = v /\
  Z.land (Z.lxor (u8 (Z.shiftl v 4)) t) 15 = t.
Proof.
  intros Hv Ht.
  assert (forallb (fun v => forallb (fun t =>
            bool_decide (Z.shiftr (Z.land (Z.lxor (u8 (Z.shiftl v 4)) t) 240) 4 = v /\
                         Z.land (Z.lxor (u8 (Z.shiftl v 4)) t) 15 = t))
            (seqZ 0 16)) (seqZ 0 16) = true) as Hall by (vm_compute; reflexivity).
  rewrite forallb_forall in Hall.
  specialize (Hall v). rewrite <- list_elem_of_In, elem_of_seqZ in Hall.
  specialize (Hall ltac:(lia)). rewrite forallb_forall in Hall.
  specialize (Hall t). rewrite <- list_elem_of_In, elem_of_seqZ in Hall.
  specialize (Hall ltac:(lia)). by apply bool_decide_eq_true in Hall.
Qed.

Lemma marshal_options (opts : list option_) (buf : list Z) :
  foldM (fun buf o => ob ← option_MarshalBinary o; Ok (buf ++ ob)) buf opts
  = Ok (buf ++ options_wire opts).
Proof.
  revert buf. induction opts as [|o opts IH]; intros buf; cbn [foldM].
  - unfold options_wire. cbn. by rewrite app_nil_r.
  - cbn [option_MarshalBinary mbind result_bind]. rewrite IH.
    unfold options_wire. cbn [fmap list_fmap concat].
    by rewrite <- app_assoc.
Qed.

Lemma length_options_wire (opts : list option_) :
  length (options_wire opts) = sum_list (option_size <$> opts).
Proof.
  induction opts as [|o l IH]; [done|].
  unfold options_wire in *. cbn [fmap list_fmap concat sum_list].
  rewrite length_app, IH. unfold option_size, id. cbn [length]. lia.
Qed.

Lemma unmarshal_options_wire (opts : list option_) :
  forall (os : list option_) (hl : nat) (rest sp : list Z),
    Forall (fun o => (length (value o) <= 255)%nat) opts ->
    unmarshal_options (length opts) (mkSlice (options_wire opts ++ rest) sp)
      os hl
    = Ok (os ++ (option_decoded <$> opts),
          (hl + sum_list (option_size <$> opts))%nat).
Proof.
  induction opts as [|o opts IH]; intros os hl rest sp Hall.
  - cbn. by rewrite app_nil_r, Nat.add_0_r.
  - apply Forall_cons in Hall as [Ho Hall].
    cbn [length unmarshal_options]. unfold options_wire.
    cbn [fmap list_fmap concat]. fold (options_wire opts).
    rewrite <- app_assoc.
    destruct (option_decode o option_zero (options_wire opts ++ rest) sp Ho)
      as (bs & Hbs & Hlen & Hdec).
    injection Hbs as <-. rewrite Hdec. cbn [mbind result_bind olength].
    rewrite slice_from_in by (rewrite length_app, Hlen; lia).
    cbn [mbind result_bind]. rewrite <- Hlen, drop_app_length.
    rewrite IH by done. f_equal. f_equal.
    + by rewrite <- app_assoc.
    + cbn [fmap list_fmap sum_list length]. unfold option_size, id. lia.
Qed.

(** A header with version and type below 16 and at most 255 options, each
    with a value of at most 255 bytes, is encoded in 3 bytes plus the
    options and decoded to itself from the front of any buffer, with
    [hdrLen] the number of bytes taken; without options the decoder leaves
    the receiver's [options] as they were. *)
Theorem msgHeader_round_trip (h s0 : msgHeader) (rest sp : list Z) :
  0 <= version h < 16 -> 0 <= msgType h < 16 ->
  optionLen h = Z.of_nat (length (options h)) ->
  (length (options h) <= 255)%nat ->
  Forall (fun o => (length (value o) <= 255)%nat) (options h) ->
  exists bs,
    msgHeader_MarshalBinary h = Ok bs /\
    length bs = (3 + sum_list (option_size <$> options h))%nat /\
    msgHeader_UnmarshalBinary s0 (mkSlice (bs ++ rest) sp)
    = Ok (mkHeader (version h) (msgType h) (ackNum h) (optionLen h)
            (if decide (0 < optionLen h) then option_decoded <$> options h
             else options s0)
            (3 + sum_list (option_size <$> options h))).
Proof.
  intros Hv Ht Hol Hn Hall.
  unfold msgHeader_MarshalBinary. cbv zeta. rewrite marshal_options.
  eexists. split; [reflexivity|]. split.
  { cbn [app length]. by rewrite length_options_wire. }
  unfold msgHeader_UnmarshalBinary, slen. cbn [vis app length].
  rewrite decide_False by lia.
  erewrite (index_in _ _ 0) by done. cbn [mbind result_bind].
  erewrite (index_in _ _ 1) by done. cbn [mbind result_bind].
  erewrite (index_in _ _ 2) by done. cbn [mbind result_bind].
  rewrite slice_from_in by (cbn; lia). cbn [mbind result_bind skipn].
  rewrite drop_0.
  assert (Z.to_nat (u8 (optionLen h)) = length (options h)) as ->.
  { rewrite Hol. unfold u8. rewrite Z.mod_small by lia. lia. }
  rewrite unmarshal_options_wire by done. cbn [mbind result_bind app].
  destruct (vt_round_trip (version h) (msgType h) Hv Ht) as [-> ->].
  reflexivity.
Qed.

End HeaderRoundTrip.

Section BodyRoundTrips.
Import Msg.

Lemma Uint16_bytes (v : Z) :
  is_u16 v -> Uint16 [byte_of (Z.shiftr v 8); byte_of v] = Ok v.
Proof. exact (Uint16_PutUint16 v []). Qed.

Lemma Uint32_bytes (v : Z) :
  is_u32 v ->
  Uint32 [byte_of (Z.shiftr v 24); byte_of (Z.shiftr v 16);
          byte_of (Z.shiftr v 8); byte_of v] = Ok v.
Proof. exact (Uint32_PutUint32 v []). Qed.

Lemma Uint64_bytes (v : Z) :
  is_u64 v ->
  Uint64 [byte_of (Z.shiftr v 56); byte_of (Z.shiftr v 48);
          byte_of (Z.shiftr v 40); byte_of (Z.shiftr v 32);
          byte_of (Z.shiftr v 24); byte_of (Z.shiftr v 16);
          byte_of (Z.shiftr v 8); byte_of v] = Ok v.
Proof. exact (Uint64_PutUint64 v []). Qed.

Lemma uintOffset_bytes (v : Z) :
  0 <= v <= maxFileOffset ->
  uintOffset [byte_of (Z.shiftr v 48);
              byte_of (Z.shiftr v 40); byte_of (Z.shiftr v 32);
              byte_of (Z.shiftr v 24); byte_of (Z.shiftr v 16);
              byte_of (Z.shiftr v 8); byte_of v] = Ok v.
Proof.
  intros Hv. unfold maxFileOffset in Hv.
  pose proof (Uint64_seven v [] ltac:(unfold is_u64; lia)) as H.
  rewrite Z.mod_small in H by lia. exact H.
Qed.

Lemma copy_checkSum_all (cs arr : list Z) :
  length cs = length arr -> copy_checkSum 0 cs arr = cs.
Proof.
  intros Hlen.
  enough (forall cs done arr',
             length arr' = length cs ->
             copy_checkSum (length done) cs (done ++ arr') = done ++ cs) as Hgen.
  { apply (Hgen cs [] arr). done. }
  clear. induction cs as [|c cs IH]; intros done arr' Hlen.
  - destruct arr'; [done|discriminate].
  - destruct arr' as [|a arr']; [discriminate|]. cbn [copy_checkSum].
    rewrite insert_app_r_alt by lia. rewrite Nat.sub_diag. cbn [insert list_insert].
    replace (done ++ c :: arr') with ((done ++ [c]) ++ arr')
      by (by rewrite <- app_assoc).
    replace (S (length done)) with (length (done ++ [c]))
      by (rewrite length_app; cbn; lia).
    rewrite IH by (cbn in Hlen; lia). by rewrite <- app_assoc.
Qed.

Lemma serverMetaData_decode (m s0 : serverMetaData) (rest sp : list Z) :
  is_u16 (md_fileIndex m) -> is_u64 (size m) ->
  length (checkSum m) = 16%nat -> length (checkSum s0) = 16%nat ->
  exists bs,
    serverMetaData_MarshalBinary m = Ok bs /\ length bs = 28%nat /\
    serverMetaData_UnmarshalBinary s0 (mkSlice (bs ++ rest) sp)
    = Ok (mkMeta (md_ackNum s0) (status m) (md_fileIndex m) (size m)
            (checkSum m)).
Proof.
  intros Hfi Hsz Hcs Hcs0. unfold serverMetaData_MarshalBinary. cbv zeta.
  eexists. split; [reflexivity|]. split.
  { rewrite !length_app, Hcs. done. }
  unfold serverMetaData_UnmarshalBinary.
  rewrite <- !app_assoc. unfold PutUint16, PutUint64. list_norm.
  erewrite (index_in _ _ 1) by done. cbn [mbind result_bind].
  rewrite (slice_in _ _ 2 4) by (list_norm; lia).
  list_norm. cbn [mbind result_bind vis]. rewrite Uint16_bytes by done.
  cbn [mbind result_bind].
  rewrite (slice_in _ _ 4 12) by (list_norm; lia).
  list_norm. cbn [mbind result_bind vis]. rewrite Uint64_bytes by done.
  cbn [mbind result_bind].
  rewrite (slice_in _ _ 12 28) by (list_norm; rewrite length_app; lia).
  list_norm. cbn [mbind result_bind vis].
  rewrite <- Hcs at 1. rewrite take_app_length.
  rewrite copy_checkSum_all by lia. reflexivity.
Qed.

(** Metadata whose fields fit is encoded in 28 bytes and decoded to itself
    from the front of any buffer; the ack number is no part of the body and
    stays as the receiver had it. *)
Theorem serverMetaData_round_trip (m s0 : serverMetaData) (rest sp : list Z) :
  is_u16 (md_fileIndex m) -> is_u64 (size m) ->
  length (checkSum m) = 16%nat -> length (checkSum s0) = 16%nat ->
  exists bs,
    serverMetaData_MarshalBinary m = Ok bs /\ length bs = 28%nat /\
    serverMetaData_UnmarshalBinary s0 (mkSlice (bs ++ rest) sp)
    = Ok (mkMeta (md_ackNum s0) (status m) (md_fileIndex m) (size m)
            (checkSum m)).
Proof. exact (serverMetaData_decode m s0 rest sp). Qed.

Lemma serverPayload_decode (m s0 : serverPayload) (sp : list Z) :
  is_u16 (sp_fileIndex m) -> 0 <= sp_offset m <= maxFileOffset ->
  exists bs,
    serverPayload_MarshalBinary m = Ok bs /\
    length bs = (9 + length (data m))%nat /\
    serverPayload_UnmarshalBinary s0 (mkSlice bs sp)
    = Ok (mkPayload (sp_fileIndex m) (sp_ackNumber s0) (sp_offset m)
            (if decide (data m = []) then data s0 else data m)).
Proof.
  intros Hfi Hoff. rewrite serverPayload_MarshalBinary_Ok.
  eexists. split; [reflexivity|]. split.
  { rewrite !length_app. done. }
  unfold serverPayload_UnmarshalBinary, slen.
  unfold PutUint16, PutUint64. cbn [vis]. list_norm.
  rewrite (slice_in _ _ 0 2) by (list_norm; lia).
  list_norm. cbn [mbind result_bind vis]. rewrite Uint16_bytes by done.
  cbn [mbind result_bind].
  rewrite (slice_in _ _ 2 9) by (list_norm; lia).
  list_norm. cbn [mbind result_bind vis]. rewrite uintOffset_bytes by done.
  cbn [mbind result_bind].
  destruct (data m) as [|d ds] eqn:Hd.
  - cbn [length]. rewrite decide_False by lia. by rewrite decide_True.
  - rewrite decide_True by (cbn [length]; lia).
    rewrite slice_from_in by (cbn [length]; lia).
    cbn [mbind result_bind vis]. list_norm.
    by rewrite decide_False.
Qed.

(** A payload whose file index fits in 16 bits and whose offset in 56 is
    encoded in [9 + len(data)] bytes and decoded to itself; the ack number
    is no part of the body, and when the payload carries no data the decoder
    leaves the receiver's [data] as it was. *)
Theorem serverPayload_round_trip (m s0 : serverPayload) (sp : list Z) :
  is_u16 (sp_fileIndex m) -> 0 <= sp_offset m <= maxFileOffset ->
  exists bs,
    serverPayload_MarshalBinary m = Ok bs /\
    length bs = (9 + length (data m))%nat /\
    serverPayload_UnmarshalBinary s0 (mkSlice bs sp)
    = Ok (mkPayload (sp_fileIndex m) (sp_ackNumber s0) (sp_offset m)
            (if decide (data m = []) then data s0 else data m)).
Proof. exact (serverPayload_decode m s0 sp). Qed.

Lemma closeConnection_decode (m s0 : closeConnection) (rest sp : list Z) :
  is_u16 (reason m) ->
  exists bs,
    closeConnection_MarshalBinary m = Ok bs /\ length bs = 2%nat /\
    closeConnection_UnmarshalBinary s0 (mkSlice (bs ++ rest) sp) = Ok m.
Proof.
  intros Hr. eexists. split; [reflexivity|]. split; [done|].
  unfold closeConnection_UnmarshalBinary, slice_to.
  unfold PutUint16. list_norm.
  rewrite (slice_in _ _ 0 2) by (list_norm; lia).
  list_norm. cbn [mbind result_bind vis]. rewrite Uint16_bytes by done.
  cbn [mbind result_bind]. by destruct m.
Qed.

(** A close message is encoded in two bytes and decoded to itself from the
    front of any buffer. *)
Theorem closeConnection_round_trip (m s0 : closeConnection) (rest sp : list Z) :
  is_u16 (reason m) ->
  exists bs,
    closeConnection_MarshalBinary m = Ok bs /\ length bs = 2%nat /\
    closeConnection_UnmarshalBinary s0 (mkSlice (bs ++ rest) sp) = Ok m.
Proof. exact (closeConnection_decode m s0 rest sp). Qed.

End BodyRoundTrips.

Section RequestRoundTrip.
Import Msg.

Lemma string_of_bytes_of_string (s : string) :
  string_of_bytes (bytes_of_string s) = s.
Proof.
  induction s as [|a s IH]; [done|]. cbn. rewrite IH. f_equal.
  rewrite N2Z.id. apply ascii_N_embedding.
Qed.

Lemma length_file_wire (f : fileDescriptor) :
  length (file_wire f) = (9 + length (bytes_of_string (fileName f)))%nat.
Proof. unfold file_wire. rewrite !length_app. cbn. lia. Qed.

(** The marshaller fails exactly when some file offset is too large. *)
Lemma marshal_files_Ok (fs : list fileDescriptor) (buf : list Z) :
  Forall (fun f => fd_offset f <= maxFileOffset) fs ->
  foldM (fun buf file =>
           if decide (maxFileOffset < fd_offset file)
           then Err ErrFileOffsetTooBig else
           sb ← sevenByteOffset (fd_offset file);
           let buf := buf ++ sb in
           let pathBin := bytes_of_string (fileName file) in
           let buf := buf ++ PutUint16 (u16 (Z.of_nat (length pathBin))) in
           Ok (buf ++ pathBin))
        buf fs
  = Ok (buf ++ files_wire fs).
Proof.
  intros Hall. revert buf.
  induction Hall as [|f fs Hf _ IH]; intros buf; cbn [foldM].
  - unfold files_wire. cbn. by rewrite app_nil_r.
  - rewrite decide_False by lia.
    unfold sevenByteOffset. cbn [mbind result_bind]. rewrite IH.
    unfold files_wire. cbn [fmap list_fmap concat]. unfold file_wire at 2.
    by rewrite <- !app_assoc.
Qed.

Lemma marshal_files_Err (fs : list fileDescriptor) (buf : list Z) :
  Exists (fun f => maxFileOffset < fd_offset f) fs ->
  foldM (fun buf file =>
           if decide (maxFileOffset < fd_offset file)
           then Err ErrFileOffsetTooBig else
           sb ← sevenByteOffset (fd_offset file);
           let buf := buf ++ sb in
           let pathBin := bytes_of_string (fileName file) in
           let buf := buf ++ PutUint16 (u16 (Z.of_nat (length pathBin))) in
           Ok (buf ++ pathBin))
        buf fs
  = Err ErrFileOffsetTooBig.
Proof.
  intros Hex. revert buf.
  induction fs as [|f fs IH]; intros buf; [by apply Exists_nil in Hex|].
  cbn [foldM]. case_decide as Hf; [done|].
  apply Exists_cons in Hex as [Hex|Hex]; [lia|].
  unfold sevenByteOffset. cbn [mbind result_bind]. by apply IH.
Qed.

Lemma clientRequest_MarshalBinary_Ok (s : clientRequest) :
  Forall (fun f => fd_offset f <= maxFileOffset) (files s) ->
  clientRequest_MarshalBinary s
  = Ok (PutUint32 (cr_maxTransmissionRate s) ++
        PutUint16 (u16 (Z.of_nat (length (files s)))) ++
        files_wire (files s)).
Proof.
  intros H. unfold clientRequest_MarshalBinary. cbv zeta.
  rewrite marshal_files_Ok by done. by rewrite <- app_assoc.
Qed.

(** [clientRequest.MarshalBinary] returns the error "file offset to big" and
    no bytes as soon as one file has an offset above [maxFileOffset], and
    the encoding of the rate, the number of files and the files
    otherwise. *)
Theorem clientRequest_MarshalBinary_error (s : clientRequest) :
  (Exists (fun f => maxFileOffset < fd_offset f) (files s) ->
   clientRequest_MarshalBinary s = Err ErrFileOffsetTooBig) /\
  (Forall (fun f => fd_offset f <= maxFileOffset) (files s) ->
   clientRequest_MarshalBinary s
   = Ok (PutUint32 (cr_maxTransmissionRate s) ++
         PutUint16 (u16 (Z.of_nat (length (files s)))) ++
         files_wire (files s))).
Proof.
  split; intros H.
  - unfold clientRequest_MarshalBinary. cbv zeta. by apply marshal_files_Err.
  - by apply clientRequest_MarshalBinary_Ok.
Qed.

Lemma unmarshal_file_wire (f : fileDescriptor) (n : nat) (tail sp : list Z) :
  file_fits f ->
  unmarshal_files (S n) (mkSlice (file_wire f ++ tail) sp)
  = fs ← unmarshal_files n (mkSlice tail sp); Ok (f :: fs).
Proof.
  intros [Hoff Hlen]. cbn [unmarshal_files]. unfold slice_to.
  set (name := bytes_of_string (fileName f)) in *.
  assert (u16 (Z.of_nat (length name)) = Z.of_nat (length name)) as Hu.
  { unfold u16. apply Z.mod_small. lia. }
  unfold file_wire. fold name. rewrite Hu. rewrite <- !app_assoc.
  unfold PutUint64, PutUint16. list_norm.
  rewrite (slice_in _ _ 0 7) by (list_norm; lia). list_norm.
  cbn [mbind result_bind vis]. rewrite uintOffset_bytes by done.
  cbn [mbind result_bind].
  rewrite (slice_in _ _ 7 9) by (list_norm; lia). list_norm.
  cbn [mbind result_bind vis].
  rewrite Uint16_bytes by (unfold is_u16; lia). cbn [mbind result_bind].
  assert (Z.to_nat (u16 (9 + Z.of_nat (length name))) = (9 + length name)%nat)
    as ->.
  { unfold u16. rewrite Z.mod_small by lia. lia. }
  rewrite (slice_in _ _ 9) by (list_norm; rewrite length_app; lia).
  cbn [mbind result_bind vis].
  rewrite slice_from_in by (list_norm; rewrite length_app; lia).
  cbn [mbind result_bind]. list_norm.
  replace (9 + length name - 9)%nat with (length name) by lia.
  rewrite take_app_length. cbn [Nat.add]. list_norm.
  rewrite drop_app_length. unfold name. rewrite string_of_bytes_of_string.
  by destruct f.
Qed.

Lemma unmarshal_files_wire (fs : list fileDescriptor) (rest sp : list Z) :
  Forall file_fits fs ->
  unmarshal_files (length fs) (mkSlice (files_wire fs ++ rest) sp) = Ok fs.
Proof.
  induction 1 as [|f fs Hf _ IH]; [done|].
  cbn [length]. unfold files_wire. cbn [fmap list_fmap concat].
  fold (files_wire fs). rewrite <- app_assoc.
  rewrite unmarshal_file_wire by done. by rewrite IH.
Qed.

Lemma clientRequest_decode (m s0 : clientRequest) (rest sp : list Z) :
  is_u32 (cr_maxTransmissionRate m) ->
  Z.of_nat (length (files m)) <= 65535 ->
  Forall file_fits (files m) ->
  exists bs,
    clientRequest_MarshalBinary m = Ok bs /\
    clientRequest_UnmarshalBinary s0 (mkSlice (bs ++ rest) sp)
    = Ok (mkRequest (cr_maxTransmissionRate m)
            (if decide (files m = []) then files s0 else files m)).
Proof.
  intros Hrate Hn Hfits.
  rewrite clientRequest_MarshalBinary_Ok.
  2:{ eapply Forall_impl; [exact Hfits|]. intros f [? _]. lia. }
  eexists. split; [reflexivity|].
  assert (u16 (Z.of_nat (length (files m))) = Z.of_nat (length (files m)))
    as Hu.
  { unfold u16. apply Z.mod_small. lia. }
  rewrite Hu. unfold clientRequest_UnmarshalBinary, slice_to.
  rewrite <- !app_assoc. unfold PutUint32, PutUint16. list_norm.
  rewrite (slice_in _ _ 0 4) by (list_norm; lia). list_norm.
  cbn [mbind result_bind vis]. rewrite Uint32_bytes by done.
  cbn [mbind result_bind].
  rewrite (slice_in _ _ 4 6) by (list_norm; lia). list_norm.
  cbn [mbind result_bind vis].
  rewrite Uint16_bytes by (unfold is_u16; lia). cbn [mbind result_bind].
  destruct (decide (files m = [])) as [Hnil|Hne].
  - rewrite Hnil. cbn [length]. by rewrite decide_True.
  - rewrite decide_False by (destruct (files m); [done|cbn [length]; lia]).
    rewrite slice_from_in by (list_norm; lia). list_norm.
    cbn [mbind result_bind]. rewrite Nat2Z.id.
    rewrite unmarshal_files_wire by done. done.
Qed.

(** A request with at most 65535 files, each with an offset of at most
    [maxFileOffset] and a name of at most 65526 bytes, is decoded to itself
    from the front of any buffer; with no file at all the decoder leaves the
    receiver's [files] as they were. *)
Theorem clientRequest_round_trip (m s0 : clientRequest) (rest sp : list Z) :
  is_u32 (cr_maxTransmissionRate m) ->
  Z.of_nat (length (files m)) <= 65535 ->
  Forall file_fits (files m) ->
  exists bs,
    clientRequest_MarshalBinary m = Ok bs /\
    clientRequest_UnmarshalBinary s0 (mkSlice (bs ++ rest) sp)
    = Ok (mkRequest (cr_maxTransmissionRate m)
            (if decide (files m = []) then files s0 else files m)).
Proof. exact (clientRequest_decode m s0 rest sp). Qed.

End RequestRoundTrip.

Section AckDecoding.
Import Msg.

Lemma length_entries_wire (es : list resendEntry) :
  length (entries_wire es) = (10 * length es)%nat.
Proof.
  induction es as [|re es IH]; [done|].
  unfold entries_wire in *. cbn [fmap list_fmap concat].
  rewrite length_app, IH. cbn [length entry_wire]. unfold entry_wire.
  rewrite !length_app. cbn. lia.
Qed.

Lemma marshal_entries (es : list resendEntry) (buf : list Z) :
  foldM (fun buf re =>
           let buf := buf ++ PutUint16 (re_fileIndex re) in
           sb ← sevenByteOffset (re_offset re);
           let buf := buf ++ sb in
           Ok (buf ++ [re_length re]))
        buf es
  = Ok (buf ++ entries_wire es).
Proof.
  revert buf. induction es as [|re es IH]; intros buf; cbn [foldM].
  - unfold entries_wire. cbn. by rewrite app_nil_r.
  - unfold sevenByteOffset. cbn [mbind result_bind]. rewrite IH.
    unfold entries_wire. cbn [fmap list_fmap concat]. unfold entry_wire at 2.
    by rewrite <- !app_assoc.
Qed.

Lemma clientAck_MarshalBinary_Ok (c : clientAck) :
  clientAck_MarshalBinary c
  = Ok (PutUint16 (ca_fileIndex c) ++ [ca_status c] ++
        PutUint32 (ca_maxTransmissionRate c) ++
        drop 1 (PutUint64 (ca_offset c)) ++ entries_wire (resendEntries c)).
Proof.
  unfold clientAck_MarshalBinary, sevenByteOffset. cbv zeta.
  cbn [mbind result_bind]. rewrite marshal_entries. by rewrite <- !app_assoc.
Qed.

(** The entry loop on the encoding of [es]: it stops as soon as the counter
    reaches the number of entries that are left, after having decoded half
    of them, rounded up. *)
Lemma unmarshal_resend_half (fuel : nat) :
  forall (es : list resendEntry) (i : nat) (res : list resendEntry)
         (sp : list Z),
    Forall entry_fits es ->
    (length es <= i + fuel)%nat ->
    unmarshal_resend fuel i (mkSlice (entries_wire es) sp) res
    = Ok (res ++ take ((length es - i + 1) / 2) es).
Proof.
  induction fuel as [|fuel IH]; intros es i res sp Hfits Hfuel.
  - cbn [unmarshal_resend].
    replace ((length es - i + 1) / 2)%nat with 0%nat.
    + by rewrite take_0, app_nil_r.
    + symmetry. apply Nat.div_small. lia.
  - cbn [unmarshal_resend]. unfold slen. cbn [vis].
    rewrite length_entries_wire.
    replace (10 * length es / 10)%nat with (length es)
      by (rewrite Nat.mul_comm, Nat.div_mul; lia).
    case_decide as Hi.
    2:{ replace ((length es - i + 1) / 2)%nat with 0%nat.
        + by rewrite take_0, app_nil_r.
        + symmetry. apply Nat.div_small. lia. }
    destruct es as [|re es]; [cbn in Hi; lia|].
    apply Forall_cons in Hfits as [[Hfi Hoff] Hfits].
    unfold entries_wire. cbn [fmap list_fmap concat]. fold (entries_wire es).
    unfold entry_wire, slice_to. rewrite <- !app_assoc.
    unfold PutUint16, PutUint64. list_norm.
    rewrite (slice_in _ _ 0 2) by (list_norm; lia). list_norm.
    cbn [mbind result_bind vis]. rewrite Uint16_bytes by done.
    cbn [mbind result_bind].
    rewrite (slice_in _ _ 2 9) by (list_norm; lia). list_norm.
    cbn [mbind result_bind vis]. rewrite uintOffset_bytes by done.
    cbn [mbind result_bind].
    erewrite (index_in _ _ 9) by done. cbn [mbind result_bind].
    rewrite slice_from_in by (list_norm; lia). list_norm.
    cbn [mbind result_bind].
    rewrite IH; [|done|cbn [length] in *; lia].
    f_equal. rewrite <- app_assoc. f_equal. cbn [length] in *.
    replace ((S (length es) - i + 1) / 2)%nat
      with (S ((length es - S i + 1) / 2)).
    + cbn [firstn app]. by destruct re.
    + destruct (decide (i = length es)) as [->|Hne].
      * replace (S (length es) - length es + 1)%nat with 2%nat by lia.
        replace (length es - S (length es) + 1)%nat with 1%nat by lia.
        done.
      * replace (S (length es) - i + 1)%nat
          with ((length es - S i + 1) + 1 * 2)%nat by lia.
        rewrite Nat.div_add by lia. lia.
Qed.

Lemma clientAck_decode (m s0 : clientAck) (sp : list Z) :
  is_u16 (ca_fileIndex m) -> is_u32 (ca_maxTransmissionRate m) ->
  0 <= ca_offset m <= maxFileOffset ->
  Forall entry_fits (resendEntries m) ->
  exists bs,
    clientAck_MarshalBinary m = Ok bs /\
    length bs = (14 + 10 * length (resendEntries m))%nat /\
    clientAck_UnmarshalBinary s0 (mkSlice bs sp)
    = Ok (mkAck (ackNumber s0) (ca_fileIndex m) (ca_status m)
            (ca_maxTransmissionRate m) (ca_offset m)
            (resendEntries s0 ++
             take ((length (resendEntries m) + 1) / 2) (resendEntries m))).
Proof.
  intros Hfi Hrate Hoff Hfits. rewrite clientAck_MarshalBinary_Ok.
  eexists. split; [reflexivity|]. split.
  { rewrite !length_app, length_entries_wire. cbn. lia. }
  unfold clientAck_UnmarshalBinary, slen.
  unfold PutUint16, PutUint32, PutUint64. cbn [vis]. list_norm.
  rewrite (slice_in _ _ 0 2) by (list_norm; lia). list_norm.
  cbn [mbind result_bind vis]. rewrite Uint16_bytes by done.
  cbn [mbind result_bind].
  erewrite (index_in _ _ 2) by done. cbn [mbind result_bind].
  rewrite (slice_in _ _ 3 7) by (list_norm; lia). list_norm.
  cbn [mbind result_bind vis]. rewrite Uint32_bytes by done.
  cbn [mbind result_bind].
  rewrite (slice_in _ _ 7 14) by (list_norm; lia). list_norm.
  cbn [mbind result_bind vis]. rewrite uintOffset_bytes by done.
  cbn [mbind result_bind]. rewrite length_entries_wire.
  destruct (resendEntries m) as [|re es] eqn:Hes.
  - cbn [length]. rewrite decide_False by lia.
    cbn. by rewrite app_nil_r.
  - rewrite decide_True by (cbn [length]; lia).
    rewrite slice_from_in by (list_norm; lia). list_norm.
    cbn [mbind result_bind]. unfold slen. cbn [vis].
    rewrite length_entries_wire.
    replace (10 * length (re :: es) / 10)%nat with (length (re :: es))
      by (rewrite Nat.mul_comm, Nat.div_mul; lia).
    rewrite unmarshal_resend_half by (done || lia).
    cbn [mbind result_bind]. by rewrite Nat.sub_0_r.
Qed.

(** An ack with [k] resend entries, all fields fitting, is encoded in
    [14 + 10 * k] bytes, and [clientAck.UnmarshalBinary] appends to the
    receiver's entries only the first [(k + 1) / 2] of them: its loop bound
    [len(reBytes)/10] shrinks with every entry it reads. *)
Theorem clientAck_decodes_half (m s0 : clientAck) (sp : list Z) :
  is_u16 (ca_fileIndex m) -> is_u32 (ca_maxTransmissionRate m) ->
  0 <= ca_offset m <= maxFileOffset ->
  Forall entry_fits (resendEntries m) ->
  exists bs,
    clientAck_MarshalBinary m = Ok bs /\
    length bs = (14 + 10 * length (resendEntries m))%nat /\
    clientAck_UnmarshalBinary s0 (mkSlice bs sp)
    = Ok (mkAck (ackNumber s0) (ca_fileIndex m) (ca_status m)
            (ca_maxTransmissionRate m) (ca_offset m)
            (resendEntries s0 ++
             take ((length (resendEntries m) + 1) / 2) (resendEntries m))).
Proof. exact (clientAck_decode m s0 sp). Qed.

End AckDecoding.

Section Transfer.
Import Msg.

(** The receiving side on a datagram made of a three-byte header without
    options and a body. *)
Lemma receive_no_options (vt an : Z) (body rest : list Z) :
  receive ([vt; an; 0] ++ body ++ rest) (length ([vt; an; 0] ++ body))
  = Ok (mkHeader (Z.shiftr (Z.land vt 240) 4) (Z.land vt 15) an 0 [] 3,
        mkPacket [] (mkSlice body rest) an).
Proof.
  unfold receive, msgHeader_UnmarshalBinary, of_bytes, slen.
  cbn [vis app length]. rewrite decide_False by lia.
  erewrite (index_in _ _ 0) by done. cbn [mbind result_bind].
  erewrite (index_in _ _ 1) by done. cbn [mbind result_bind].
  erewrite (index_in _ _ 2) by done. cbn [mbind result_bind].
  rewrite slice_from_in by (cbn [length]; lia).
  cbn [mbind result_bind]. list_norm.
  change (Z.to_nat (u8 0)) with 0%nat. cbn [unmarshal_options].
  cbn [mbind result_bind hdrLen options ackNum].
  rewrite (decide_False (P := 0 < 0)) by lia. cbn [options msgHeader_zero].
  rewrite (slice_in _ _ 3) by (cbn [length]; rewrite length_app; lia).
  cbn [mbind result_bind].
  replace (S (S (S (length body))) - 3)%nat with (length body) by lia.
  cbn [skipn]. rewrite ?drop_0.
  by rewrite take_app_length, drop_app_length, app_nil_r.
Qed.

(** A datagram that fits the buffer arrives in front of the zeros of the
    buffer. *)
Lemma transfer_buffer (msg : message) (bs : list Z) :
  sendTo msg = Ok bs -> (length bs <= bufferSize)%nat ->
  transfer msg
  = '(header, p) ← receive (bs ++ replicate (bufferSize - length bs) 0)
                     (length bs);
    m ← handle (msgType header) p;
    Ok (header, m).
Proof.
  intros Hbs Hlen. unfold transfer, ReadFromUDP. rewrite Hbs.
  cbn [mbind result_bind]. cbv zeta.
  rewrite Nat.min_l by done. by rewrite take_ge by done.
Qed.

(** What [sendTo] writes for a message whose fields fit is one datagram of
    a three-byte header and the body.  When it is no longer than the 2048
    bytes of the receive buffer, [udpConnection.receive] decodes the header
    [sendTo] wrote, which carries the type and, for an ack and a payload,
    the ack number, and the handler of the type decodes the body without an
    error, as [delivered] says. *)
Theorem transfer_delivers (msg : message) :
  message_fits msg ->
  exists bs,
    sendTo msg = Ok bs /\
    ((length bs <= bufferSize)%nat ->
     transfer msg = Ok (sent_header msg, delivered msg)).
Proof.
  intros Hfits.
  destruct msg as [v|v|v|v|v]; cbn [message_fits] in Hfits;
    cbn [sent_header delivered].
  - destruct Hfits as (Hrate & Hn & Hall).
    destruct (clientRequest_decode v clientRequest_zero [] [] Hrate Hn Hall)
      as (bs & Hbs & _).
    assert (sendTo (MClientRequest v) = Ok ([16; 0; 0] ++ bs)) as Hsend.
    { unfold sendTo. cbn [MarshalBinary]. by rewrite Hbs. }
    eexists. split; [exact Hsend|]. intros Hlen.
    rewrite (transfer_buffer _ _ Hsend Hlen).
    set (rest := replicate (bufferSize - length ([16; 0; 0] ++ bs)) 0).
    destruct (clientRequest_decode v clientRequest_zero [] rest Hrate Hn Hall)
      as (bs' & Hbs' & Hdec).
    rewrite Hbs in Hbs'. injection Hbs' as <-. rewrite app_nil_r in Hdec.
    rewrite <- app_assoc, receive_no_options.
    cbn [mbind result_bind]. unfold handle. cbn [msgType p_data].
    change (Z.land 16 15) with 0. rewrite decide_True by done.
    rewrite Hdec. cbn [mbind result_bind]. do 4 f_equal.
    cbn [files clientRequest_zero]. destruct v as [r fs]. cbn. f_equal.
    by destruct fs.
  - destruct Hfits as (Hfi & Hrate & Hoff & Hall).
    destruct (clientAck_decode v clientAck_zero [] Hfi Hrate Hoff Hall)
      as (bs & Hbs & _).
    assert (sendTo (MClientAck v) = Ok ([19; ackNumber v; 0] ++ bs)) as Hsend.
    { unfold sendTo. cbn [MarshalBinary]. by rewrite Hbs. }
    eexists. split; [exact Hsend|]. intros Hlen.
    rewrite (transfer_buffer _ _ Hsend Hlen).
    set (rest := replicate (bufferSize - length ([19; ackNumber v; 0] ++ bs)) 0).
    destruct (clientAck_decode v clientAck_zero rest Hfi Hrate Hoff Hall)
      as (bs' & Hbs' & _ & Hdec).
    rewrite Hbs in Hbs'. injection Hbs' as <-.
    rewrite <- app_assoc, receive_no_options.
    cbn [mbind result_bind]. unfold handle. cbn [msgType p_data p_ackNum].
    change (Z.land 19 15) with 3.
    rewrite decide_False by done. rewrite decide_True by done.
    rewrite Hdec. cbn [mbind result_bind]. reflexivity.
  - destruct Hfits as (Hfi & Hsz & Hcs).
    destruct (serverMetaData_decode v serverMetaData_zero [] [] Hfi Hsz Hcs)
      as (bs & Hbs & _); [done|].
    assert (sendTo (MServerMetaData v) = Ok ([17; 0; 0] ++ bs)) as Hsend.
    { unfold sendTo. cbn [MarshalBinary]. by rewrite Hbs. }
    eexists. split; [exact Hsend|]. intros Hlen.
    rewrite (transfer_buffer _ _ Hsend Hlen).
    rewrite <- app_assoc, receive_no_options.
    cbn [mbind result_bind]. unfold handle. cbn [msgType].
    change (Z.land 17 15) with 1.
    by do 3 (rewrite decide_False by done).
  - destruct Hfits as (Hfi & Hoff).
    destruct (serverPayload_decode v serverPayload_zero [] Hfi Hoff)
      as (bs & Hbs & _).
    assert (sendTo (MServerPayload v) = Ok ([18; sp_ackNumber v; 0] ++ bs))
      as Hsend.
    { unfold sendTo. cbn [MarshalBinary]. by rewrite Hbs. }
    eexists. split; [exact Hsend|]. intros Hlen.
    rewrite (transfer_buffer _ _ Hsend Hlen).
    rewrite <- app_assoc, receive_no_options.
    cbn [mbind result_bind]. unfold handle. cbn [msgType].
    change (Z.land 18 15) with 2.
    by do 3 (rewrite decide_False by done).
  - destruct (closeConnection_decode v closeConnection_zero [] [] Hfits)
      as (bs & Hbs & _).
    assert (sendTo (MCloseConnection v) = Ok ([20; 0; 0] ++ bs)) as Hsend.
    { unfold sendTo. cbn [MarshalBinary]. by rewrite Hbs. }
    eexists. split; [exact Hsend|]. intros Hlen.
    rewrite (transfer_buffer _ _ Hsend Hlen).
    set (rest := replicate (bufferSize - length ([20; 0; 0] ++ bs)) 0).
    destruct (closeConnection_decode v closeConnection_zero [] rest Hfits)
      as (bs' & Hbs' & _ & Hdec).
    rewrite Hbs in Hbs'. injection Hbs' as <-. rewrite app_nil_r in Hdec.
    rewrite <- app_assoc, receive_no_options.
    cbn [mbind result_bind]. unfold handle. cbn [msgType p_data].
    change (Z.land 20 15) with 4.
    do 2 (rewrite decide_False by done). rewrite decide_True by done.
    rewrite Hdec. reflexivity.
Qed.

End Transfer.

Section LongName.
Import Msg.

(** A file name of 65527 to 65535 bytes is marshalled, but the decoder
    computes [9+pathLen] in uint16, which wraps below 9, and the slice
    expression [dataLens[9 : 9+pathLen]] panics. *)
Theorem clientRequest_long_name_panics (rate : Z) (f : fileDescriptor)
    (fs : list fileDescriptor) (s0 : clientRequest) (rest sp : list Z) :
  is_u32 rate ->
  Z.of_nat (length (f :: fs)) <= 65535 ->
  Forall (fun f => fd_offset f <= maxFileOffset) (f :: fs) ->
  0 <= fd_offset f ->
  65527 <= Z.of_nat (length (bytes_of_string (fileName f))) <= 65535 ->
  exists bs,
    clientRequest_MarshalBinary (mkRequest rate (f :: fs)) = Ok bs /\
    clientRequest_UnmarshalBinary s0 (mkSlice (bs ++ rest) sp) = Panic.
Proof.
  intros Hrate Hn Hall Hoff Hlen.
  rewrite clientRequest_MarshalBinary_Ok by done. eexists. split; [reflexivity|].
  cbn [files cr_maxTransmissionRate length] in *.
  assert (u16 (Z.of_nat (S (length fs))) = Z.of_nat (S (length fs)))
    as Hu.
  { unfold u16. apply Z.mod_small. lia. }
  rewrite Hu. unfold clientRequest_UnmarshalBinary, slice_to.
  rewrite <- !app_assoc. unfold PutUint32, PutUint16. list_norm.
  rewrite (slice_in _ _ 0 4) by (list_norm; lia). list_norm.
  cbn [mbind result_bind vis]. rewrite Uint32_bytes by done.
  cbn [mbind result_bind].
  rewrite (slice_in _ _ 4 6) by (list_norm; lia). list_norm.
  cbn [mbind result_bind vis].
  rewrite Uint16_bytes by (unfold is_u16; lia). cbn [mbind result_bind].
  rewrite decide_False by lia.
  rewrite slice_from_in by (list_norm; lia). list_norm.
  cbn [mbind result_bind].
  replace (Z.to_nat (Z.of_nat (S (length fs)))) with (S (length fs)) by lia.
  cbn [unmarshal_files]. unfold slice_to.
  unfold files_wire. cbn [fmap list_fmap concat]. unfold file_wire.
  set (name := bytes_of_string (fileName f)) in *.
  assert (u16 (Z.of_nat (length name)) = Z.of_nat (length name)) as Hu'.
  { unfold u16. apply Z.mod_small. lia. }
  rewrite Hu'. rewrite <- !app_assoc.
  unfold PutUint64, PutUint16. list_norm.
  apply Forall_cons in Hall as [Hf _].
  rewrite (slice_in _ _ 0 7) by (list_norm; lia). list_norm.
  cbn [mbind result_bind vis]. rewrite uintOffset_bytes by lia.
  cbn [mbind result_bind].
  rewrite (slice_in _ _ 7 9) by (list_norm; lia). list_norm.
  cbn [mbind result_bind vis].
  rewrite Uint16_bytes by (unfold is_u16; lia). cbn [mbind result_bind].
  unfold slice at 1. rewrite decide_False; [done|].
  assert (u16 (9 + Z.of_nat (length name)) < 9); [|lia].
  unfold u16. change (2 ^ 16) with 65536.
  replace (9 + Z.of_nat (length name))
    with ((9 + Z.of_nat (length name) - 65536) + 1 * 65536) by lia.
  rewrite Z.mod_add by lia. rewrite Z.mod_small; lia.
Qed.

End LongName.

(** *** The theorems at example values *)

Lemma option_round_trip_witness :
  exists bs,
    Msg.option_MarshalBinary option_example = Ok bs /\
    length bs = (2 + length (Msg.value option_example))%nat /\
    Msg.option_UnmarshalBinary Msg.option_zero (mkSlice (bs ++ [3]) [4])
    = Ok (Msg.mkOption (Msg.otype option_example) (Msg.value option_example)
            (2 + length (Msg.value option_example))).
Proof.
  apply (option_round_trip option_example Msg.option_zero [3] [4]).
  simpl. lia.
Defined.

Lemma msgHeader_round_trip_witness :
  exists bs,
    Msg.msgHeader_MarshalBinary header_example = Ok bs /\
    length bs
    = (3 + sum_list (option_size <$> Msg.options header_example))%nat /\
    Msg.msgHeader_UnmarshalBinary Msg.msgHeader_zero (mkSlice (bs ++ [5]) [])
    = Ok (Msg.mkHeader (Msg.version header_example)
            (Msg.msgType header_example) (Msg.ackNum header_example)
            (Msg.optionLen header_example)
            (if decide (0 < Msg.optionLen header_example)
             then option_decoded <$> Msg.options header_example
             else Msg.options Msg.msgHeader_zero)
            (3 + sum_list (option_size <$> Msg.options header_example))).
Proof.
  apply (msgHeader_round_trip header_example Msg.msgHeader_zero [5] []).
  - simpl. lia.
  - simpl. lia.
  - reflexivity.
  - simpl. lia.
  - simpl. repeat constructor.
Defined.

Lemma serverMetaData_round_trip_witness :
  exists bs,
    Msg.serverMetaData_MarshalBinary metadata_example = Ok bs /\
    length bs = 28%nat /\
    Msg.serverMetaData_UnmarshalBinary Msg.serverMetaData_zero
      (mkSlice (bs ++ [1]) [2])
    = Ok (Msg.mkMeta (Msg.md_ackNum Msg.serverMetaData_zero)
            (Msg.status metadata_example) (Msg.md_fileIndex metadata_example)
            (Msg.size metadata_example) (Msg.checkSum metadata_example)).
Proof.
  apply (serverMetaData_round_trip metadata_example Msg.serverMetaData_zero
           [1] [2]).
  - unfold is_u16. simpl. lia.
  - unfold is_u64. simpl. lia.
  - reflexivity.
  - reflexivity.
Defined.

Lemma serverPayload_round_trip_witness :
  exists bs,
    Msg.serverPayload_MarshalBinary payload_example = Ok bs /\
    length bs = (9 + length (Msg.data payload_example))%nat /\
    Msg.serverPayload_UnmarshalBinary Msg.serverPayload_zero (mkSlice bs [7])
    = Ok (Msg.mkPayload (Msg.sp_fileIndex payload_example)
            (Msg.sp_ackNumber Msg.serverPayload_zero)
            (Msg.sp_offset payload_example)
            (if decide (Msg.data payload_example = [])
             then Msg.data Msg.serverPayload_zero
             else Msg.data payload_example)).
Proof.
  apply (serverPayload_round_trip payload_example Msg.serverPayload_zero [7]).
  - unfold is_u16. simpl. lia.
  - unfold Msg.maxFileOffset. simpl. lia.
Defined.

Lemma closeConnection_round_trip_witness :
  exists bs,
    Msg.closeConnection_MarshalBinary close_example = Ok bs /\
    length bs = 2%nat /\
    Msg.closeConnection_UnmarshalBinary Msg.closeConnection_zero
      (mkSlice (bs ++ [1; 2]) [])
    = Ok close_example.
Proof.
  apply (closeConnection_round_trip close_example Msg.closeConnection_zero
           [1; 2] []).
  unfold is_u16. simpl. lia.
Defined.

Lemma request_two_files_fit : Forall file_fits (Msg.files request_two_files).
Proof.
  repeat constructor; unfold Msg.maxFileOffset; simpl; lia.
Defined.

Lemma clientRequest_round_trip_witness :
  exists bs,
    Msg.clientRequest_MarshalBinary request_two_files = Ok bs /\
    Msg.clientRequest_UnmarshalBinary Msg.clientRequest_zero
      (mkSlice (bs ++ [9]) [])
    = Ok (Msg.mkRequest (Msg.cr_maxTransmissionRate request_two_files)
            (if decide (Msg.files request_two_files = [])
             then Msg.files Msg.clientRequest_zero
             else Msg.files request_two_files)).
Proof.
  apply (clientRequest_round_trip request_two_files Msg.clientRequest_zero
           [9] []).
  - unfold is_u32. simpl. lia.
  - simpl. lia.
  - exact request_two_files_fit.
Defined.

Lemma ack_two_entries_fit : Forall entry_fits (Msg.resendEntries ack_two_entries).
Proof.
  repeat constructor; unfold is_u16, Msg.maxFileOffset; simpl; lia.
Defined.

Lemma clientAck_decodes_half_witness :
  exists bs,
    Msg.clientAck_MarshalBinary ack_two_entries = Ok bs /\
    length bs = (14 + 10 * length (Msg.resendEntries ack_two_entries))%nat /\
    Msg.clientAck_UnmarshalBinary Msg.clientAck_zero (mkSlice bs [])
    = Ok (Msg.mkAck (Msg.ackNumber Msg.clientAck_zero)
            (Msg.ca_fileIndex ack_two_entries) (Msg.ca_status ack_two_entries)
            (Msg.ca_maxTransmissionRate ack_two_entries)
            (Msg.ca_offset ack_two_entries)
            (Msg.resendEntries Msg.clientAck_zero ++
             take ((length (Msg.resendEntries ack_two_entries) + 1) / 2)
                  (Msg.resendEntries ack_two_entries))).
Proof.
  apply (clientAck_decodes_half ack_two_entries Msg.clientAck_zero []).
  - unfold is_u16. simpl. lia.
  - unfold is_u32. simpl. lia.
  - unfold Msg.maxFileOffset. simpl. lia.
  - exact ack_two_entries_fit.
Defined.

Lemma transfer_delivers_witness :
  exists bs,
    Msg.sendTo (Msg.MClientRequest request_two_files) = Ok bs /\
    ((length bs <= Msg.bufferSize)%nat ->
     Msg.transfer (Msg.MClientRequest request_two_files)
     = Ok (sent_header (Msg.MClientRequest request_two_files),
           delivered (Msg.MClientRequest request_two_files))).
Proof.
  apply (transfer_delivers (Msg.MClientRequest request_two_files)).
  simpl. split; [unfold is_u32; lia|]. split; [lia|].
  exact request_two_files_fit.
Defined.

(** The request with two files arrives in a datagram of 33 bytes. *)
Example transfer_request_two_files :
  (exists bs, Msg.sendTo (Msg.MClientRequest request_two_files) = Ok bs /\
              length bs = 33%nat) /\
  Msg.transfer (Msg.MClientRequest request_two_files)
  = Ok (sent_header (Msg.MClientRequest request_two_files),
        Some (Msg.MClientRequest request_two_files)).
Proof.
  split; [|vm_compute; reflexivity].
  eexists. split; [vm_compute; reflexivity|reflexivity].
Qed.

Lemma clientRequest_long_name_panics_witness :
  exists bs,
    Msg.clientRequest_MarshalBinary (Msg.mkRequest 0 [long_name_file]) = Ok bs /\
    Msg.clientRequest_UnmarshalBinary Msg.clientRequest_zero
      (mkSlice (bs ++ []) [])
    = Panic.
Proof.
  apply (clientRequest_long_name_panics 0 long_name_file []
           Msg.clientRequest_zero [] []).
  - unfold is_u32. lia.
  - simpl. lia.
  - repeat constructor. unfold Msg.maxFileOffset. simpl. lia.
  - simpl. lia.
  - assert (Z.of_nat (length (bytes_of_string (Msg.fileName long_name_file)))
            = 65527) as -> by (vm_compute; reflexivity).
    lia.
Defined.

(** ** The payload cache *)

Section PayloadCache.
Import MsgV0 Server.

(** A payload saved to the cache is found under its file index and offset,
    and saving it changes no other entry. *)
Theorem getFromCache_saveToCache (cache : gmap Z (gmap Z ServerPayload))
    (p : ServerPayload) (file off : Z) :
  getFromCache (saveToCache cache p) file off
  = if decide (file = fileIndex p /\ off = offset p) then Some p
    else getFromCache cache file off.
Proof.
  unfold getFromCache, saveToCache.
  destruct (decide (file = fileIndex p)) as [->|Hfile].
  - rewrite lookup_insert_eq.
    destruct (decide (off = offset p)) as [->|Hoff].
    + rewrite lookup_insert_eq. by rewrite decide_True.
    + rewrite lookup_insert_ne by done. rewrite decide_False by tauto.
      destruct (cache !! fileIndex p) as [m|] eqn:E.
      * by rewrite E.
      * rewrite lookup_insert_eq. cbn. apply lookup_empty.
  - rewrite lookup_insert_ne by done. rewrite decide_False by tauto.
    destruct (cache !! fileIndex p) as [m|] eqn:E; [done|].
    by rewrite lookup_insert_ne.
Qed.

End PayloadCache.

(** ** The rescheduler: duplicates, the rate and misses in the cache *)

Section ReschedulerDedupe.
Import MsgV0 Server.

Variable payloadCache : gmap Z (gmap Z ServerPayload).

(** An entry whose run start is in the rescheduled set enqueues nothing and
    leaves the set as it is. *)
Lemma resend_entry_rescheduled (st : resched) (re : ResendEntry) :
  rescheduled (resendScheduled st) (re_fileIndex re) (re_offset re) ->
  resent (resend_entry payloadCache st re) = resent st /\
  resendScheduled (resend_entry payloadCache st re) = resendScheduled st.
Proof.
  unfold rescheduled. intros Hin. unfold resend_entry.
  destruct (resendScheduled st !! re_fileIndex re) as [s|] eqn:E.
  - rewrite E. cbn [default] in *. by rewrite decide_True.
  - cbn in Hin. by apply elem_of_empty in Hin.
Qed.

(** The loop body puts the run start into the set and keeps what is in
    it. *)
Lemma resend_entry_marks (st : resched) (re : ResendEntry) :
  rescheduled (resendScheduled (resend_entry payloadCache st re))
    (re_fileIndex re) (re_offset re) /\
  forall fi off,
    rescheduled (resendScheduled st) fi off ->
    rescheduled (resendScheduled (resend_entry payloadCache st re)) fi off.
Proof.
  unfold rescheduled, resend_entry.
  set (sched := match resendScheduled st !! re_fileIndex re with
                | Some _ => resendScheduled st
                | None => <[re_fileIndex re := ∅]> (resendScheduled st)
                end).
  assert (default ∅ (sched !! re_fileIndex re)
          = default ∅ (resendScheduled st !! re_fileIndex re)) as Hset.
  { unfold sched. destruct (resendScheduled st !! re_fileIndex re) eqn:E.
    - by rewrite E.
    - by rewrite lookup_insert_eq. }
  assert (forall fi off, off ∈ default ∅ (resendScheduled st !! fi) ->
                         off ∈ default ∅ (sched !! fi)) as Hkeep.
  { intros fi off. unfold sched.
    destruct (resendScheduled st !! re_fileIndex re) eqn:E; [done|].
    destruct (decide (fi = re_fileIndex re)) as [->|Hne].
    - by rewrite E.
    - by rewrite lookup_insert_ne. }
  case_decide as Hin.
  - cbn [resendScheduled]. split; [done|]. exact Hkeep.
  - assert (forall fi off,
              off ∈ default ∅ (sched !! fi) ->
              off ∈ default ∅
                (<[re_fileIndex re :=
                     {[re_offset re]} ∪ default ∅ (sched !! re_fileIndex re)]>
                   sched !! fi)) as Hkeep2.
    { intros fi off Hoff.
      destruct (decide (fi = re_fileIndex re)) as [->|Hne].
      - rewrite lookup_insert_eq. cbn. apply elem_of_union. by right.
      - by rewrite lookup_insert_ne. }
    assert (re_offset re
              ∈ default ∅
                  (<[re_fileIndex re :=
                       {[re_offset re]} ∪ default ∅ (sched !! re_fileIndex re)]>
                     sched !! re_fileIndex re)) as Hnew.
    { rewrite lookup_insert_eq. cbn. apply elem_of_union. left.
      by apply elem_of_singleton. }
    destruct (getFromCache _ _ _); cbn [resendScheduled];
      (split; [done|]); intros fi off Hoff; by apply Hkeep2, Hkeep.
Qed.

Lemma resend_entries_keeps (rate : Z) (l : list ResendEntry) :
  forall (i : nat) (st : resched) fi off,
    rescheduled (resendScheduled st) fi off ->
    rescheduled (resendScheduled (resend_entries payloadCache rate i l st))
      fi off.
Proof.
  induction l as [|re l IH]; intros i st fi off H; cbn [resend_entries];
    [done|].
  case_decide; [done|]. apply IH. by apply resend_entry_marks.
Qed.

(** A second pass over the same entries, on a set that holds what the first
    pass left, enqueues nothing. *)
Lemma resend_entries_second_pass (rate : Z) (l : list ResendEntry) :
  forall (i : nat) (st st2 : resched),
    (forall fi off,
        rescheduled
          (resendScheduled (resend_entries payloadCache rate i l st)) fi off ->
        rescheduled (resendScheduled st2) fi off) ->
    resent (resend_entries payloadCache rate i l st2) = resent st2 /\
    resendScheduled (resend_entries payloadCache rate i l st2)
    = resendScheduled st2.
Proof.
  induction l as [|re l IH]; intros i st st2 Hsub; cbn [resend_entries];
    [done|].
  cbn [resend_entries] in Hsub.
  destruct (decide (0 < rate /\ rate < u32 (Z.of_nat i))) as [Hbreak|Hbreak];
    [done|].
  assert (rescheduled (resendScheduled st2) (re_fileIndex re) (re_offset re))
    as Hre.
  { apply Hsub. apply resend_entries_keeps.
    apply (proj1 (resend_entry_marks st re)). }
  destruct (resend_entry_rescheduled st2 re Hre) as [Hres Hsched].
  destruct (IH (S i) (resend_entry payloadCache st re)
              (resend_entry payloadCache st2 re)) as [H1 H2].
  { intros fi off H. rewrite Hsched. by apply Hsub. }
  rewrite H1, H2. done.
Qed.

Variable metadataCache : gmap Z ServerMetaData.

(** The same ack handled a second time, before any resend is reported done,
    enqueues no payload. *)
Theorem reschedule_twice (scheduled : gmap Z (gset Z)) (ack : ClientAck) :
  resendEntries ack <> [] ->
  (reschedule payloadCache metadataCache
     (reschedule payloadCache metadataCache scheduled ack).1.1 ack).1.2 = [] /\
  (reschedule payloadCache metadataCache
     (reschedule payloadCache metadataCache scheduled ack).1.1 ack).1.1
  = (reschedule payloadCache metadataCache scheduled ack).1.1.
Proof.
  intros Hne. unfold reschedule. cbn [fst snd].
  set (entries := merge_sort re_offset_le (resendEntries ack)).
  assert (~ (length entries <= 0)%nat) as Hlen.
  { unfold entries.
    rewrite (Permutation_length (merge_sort_Permutation _ _)).
    destruct (resendEntries ack); [done|cbn; lia]. }
  rewrite !(decide_False (P := (length entries <= 0)%nat)) by done.
  set (md := if metaDataMissing ack then {[ca_fileIndex ack]} else ∅).
  set (st1 := resend_entries payloadCache (maxTransmissionRate ack) 0 entries
                (mkResched scheduled md [])).
  destruct (resend_entries_second_pass (maxTransmissionRate ack) entries 0
              (mkResched scheduled md [])
              (mkResched (resendScheduled st1) md [])) as [H1 H2].
  { intros fi off H. exact H. }
  rewrite H1, H2. done.
Qed.

End ReschedulerDedupe.

Section ReschedulerMore.
Import MsgV0 Server.

(** [resendDone] takes exactly the run start of the payload out of the
    set. *)
Theorem resendDone_removes (sched : gmap Z (gset Z)) (p : ServerPayload)
    (fi off : Z) :
  rescheduled (resendDone sched p) fi off
  <-> rescheduled sched fi off /\ ~ (fi = fileIndex p /\ off = offset p).
Proof.
  unfold rescheduled, resendDone.
  destruct (sched !! fileIndex p) as [s|] eqn:E.
  - destruct (decide (fi = fileIndex p)) as [->|Hne].
    + rewrite lookup_insert_eq, E. cbn. rewrite elem_of_difference.
      rewrite elem_of_singleton. tauto.
    + rewrite lookup_insert_ne by done. tauto.
  - split; [|tauto]. intros H. split; [done|]. intros [-> ->].
    rewrite E in H. cbn in H. by apply elem_of_empty in H.
Qed.

Variable payloadCache : gmap Z (gmap Z ServerPayload).

(** With a rate [r > 0] in the ack the loop handles the entries at the
    indices [0 .. r] and no more; a rate of 0 sets no limit. *)
Theorem resend_entries_rate (rate : Z) (entries : list ResendEntry)
    (st : resched) :
  0 <= rate -> Z.of_nat (length entries) <= 2 ^ 32 ->
  resend_entries payloadCache rate 0 entries st
  = foldl (resend_entry payloadCache) st
      (if decide (rate = 0) then entries
       else take (Z.to_nat rate + 1) entries).
Proof.
  intros Hrate Hlen.
  enough (forall l i st,
             Z.of_nat (i + length l) <= 2 ^ 32 ->
             resend_entries payloadCache rate i l st
             = foldl (resend_entry payloadCache) st
                 (if decide (rate = 0) then l
                  else take (Z.to_nat rate + 1 - i) l)) as Hgen.
  { rewrite Hgen by done. by rewrite Nat.sub_0_r. }
  clear Hlen entries st. intros l.
  induction l as [|re l IH]; intros i st Hi.
  - cbn. by destruct (decide (rate = 0)); rewrite ?take_nil.
  - cbn [resend_entries length] in *.
    assert (u32 (Z.of_nat i) = Z.of_nat i) as ->.
    { unfold u32. apply Z.mod_small. lia. }
    destruct (decide (rate = 0)) as [Hz|Hne].
    + rewrite decide_False by lia. by rewrite IH by lia.
    + case_decide as Hbreak.
      * replace (Z.to_nat rate + 1 - i)%nat with 0%nat by lia. done.
      * rewrite IH by lia.
        replace (Z.to_nat rate + 1 - i)%nat
          with (S (Z.to_nat rate + 1 - S i)) by lia.
        done.
Qed.

(** A miss in the cache ends the run: when the chunks
    [offset .. offset + k - 1] are cached and chunk [offset + k] is not,
    for [k] below the length, exactly the first [k] payloads are sent. *)
Lemma resend_run_miss (pl : Z -> ServerPayload) (fi off : Z) (n : nat)
    (i k : Z) :
  0 <= k < Z.of_nat n ->
  (forall j, i <= j < i + k ->
             getFromCache payloadCache fi (u64 (off + j)) = Some (pl j)) ->
  getFromCache payloadCache fi (u64 (off + (i + k))) = None ->
  resend_run payloadCache n fi off i = pl <$> seqZ i k.
Proof.
  revert i k. induction n as [|n IH]; intros i k Hk Hc Hmiss; [lia|].
  cbn [resend_run].
  destruct (decide (k = 0)) as [->|Hne].
  - rewrite Z.add_0_r in Hmiss. by rewrite Hmiss.
  - rewrite Hc by lia. rewrite seqZ_cons by lia. cbn [fmap list_fmap].
    f_equal. replace (Z.succ i) with (i + 1) by lia.
    apply IH; [lia| |].
    + intros j Hj. apply Hc. lia.
    + rewrite <- Hmiss. do 3 f_equal. lia.
Qed.

(** A run that is cut short: an entry not yet rescheduled, whose first [k]
    chunks are cached and whose next chunk is not, with [k] below its
    length, enqueues exactly these [k] payloads and gives up the rest of
    the run. *)
Theorem resend_entry_miss (pl : Z -> ServerPayload) (st : resched)
    (re : ResendEntry) (k : Z) :
  is_u64 (re_offset re) ->
  0 < k < re_length re ->
  ~ rescheduled (resendScheduled st) (re_fileIndex re) (re_offset re) ->
  (forall j, 0 <= j < k ->
             getFromCache payloadCache (re_fileIndex re) (u64 (re_offset re + j))
             = Some (pl j)) ->
  getFromCache payloadCache (re_fileIndex re) (u64 (re_offset re + k)) = None ->
  resent (resend_entry payloadCache st re) = resent st ++ (pl <$> seqZ 0 k).
Proof.
  intros Hoff Hk Hnew Hc Hmiss. unfold rescheduled in Hnew.
  unfold resend_entry.
  rewrite (decide_False (P := re_length re = 0)) by lia.
  set (sched := match resendScheduled st !! re_fileIndex re with
                | Some _ => resendScheduled st
                | None => <[re_fileIndex re := ∅]> (resendScheduled st)
                end).
  assert (default ∅ (sched !! re_fileIndex re)
          = default ∅ (resendScheduled st !! re_fileIndex re)) as Hset.
  { unfold sched. destruct (resendScheduled st !! re_fileIndex re) eqn:E.
    - by rewrite E.
    - by rewrite lookup_insert_eq. }
  rewrite Hset, decide_False by done.
  assert (getFromCache payloadCache (re_fileIndex re) (re_offset re)
          = Some (pl 0)) as H0.
  { rewrite <- (Hc 0) by lia. f_equal. unfold u64.
    rewrite Z.add_0_r. symmetry. by apply Z.mod_small. }
  rewrite H0. cbn [resent].
  rewrite (decide_False (P := re_length re = 0)) by lia.
  f_equal. cbn [app]. apply resend_run_miss; [lia|done|done].
Qed.

(** An entry whose first chunk is not cached enqueues nothing, but its run
    start is put into the rescheduled set all the same: the same entry
    enqueues nothing later either, whatever the cache then holds. *)
Theorem resend_entry_uncached (st : resched) (re : ResendEntry)
    (cache' : gmap Z (gmap Z ServerPayload)) :
  getFromCache payloadCache (re_fileIndex re) (re_offset re) = None ->
  let st' := resend_entry payloadCache st re in
  resent st' = resent st /\
  rescheduled (resendScheduled st') (re_fileIndex re) (re_offset re) /\
  resent (resend_entry cache' st' re) = resent st.
Proof.
  intros Hmiss. cbv zeta.
  pose proof (proj1 (resend_entry_marks payloadCache st re)) as Hmark.
  assert (resent (resend_entry payloadCache st re) = resent st) as Hres.
  { unfold resend_entry. case_decide; [done|]. by rewrite Hmiss. }
  split; [done|]. split; [done|].
  rewrite <- Hres. by apply resend_entry_rescheduled.
Qed.

End ReschedulerMore.

(** ** The producer: the chunks of a file *)

Section ProducerChunks.
Import MsgV0 Server.

Variable md5_Sum : list Z -> list Z.

Lemma read_loop_chunks (r : SectionReader) (idx : Z) (fuel : nat) :
  forall (off : Z) (written : list Z),
    Size r < 2 ^ 64 ->
    0 <= off -> 1024 * off <= Size r ->
    Size r / 1024 - off < Z.of_nat fuel ->
    read_loop fuel r idx off written
    = Some (SendPayload <$>
              (chunk_payload r idx <$> seqZ off (Size r / 1024 + 1 - off)),
            written ++ drop (Z.to_nat (1024 * off)) (content r)).
Proof.
  induction fuel as [|fuel IH]; intros off written Hn Hoff Hle Hfuel.
  { exfalso. cbn in Hfuel.
    assert (off <= Size r / 1024) by (apply Z.div_le_lower_bound; lia). lia. }
  assert (Hlen : Z.of_nat (length (content r)) = Size r) by done.
  assert (Hu : u64 off = off).
  { unfold u64. apply Z.mod_small. lia. }
  cbn [read_loop]. unfold ReadAt.
  destruct (decide (1024 * off < 0 \/ Size r <= 1024 * off)) as [Hend|Hmore].
  - assert (Size r = 1024 * off) as Hsz by lia.
    assert (Size r / 1024 = off) as Hdiv.
    { rewrite Hsz, Z.mul_comm. apply Z.div_mul. lia. }
    assert (drop (Z.to_nat (1024 * off)) (content r) = []) as Hdrop.
    { apply drop_ge. lia. }
    rewrite Hu, Hdiv. replace (off + 1 - off) with 1 by lia.
    change (seqZ off 1) with [0 + off]. rewrite Z.add_0_l.
    cbn. unfold chunk_payload. by rewrite Hdrop.
  - destruct (decide (Size r - 1024 * off < Z.of_nat 1024)) as [Hshort|Hfull].
    + assert (Size r / 1024 = off) as Hdiv.
      { symmetry. apply Z.div_unique with (r := Size r - 1024 * off); lia. }
      rewrite Hu, Hdiv. replace (off + 1 - off) with 1 by lia.
      change (seqZ off 1) with [0 + off]. rewrite Z.add_0_l.
      cbn. unfold chunk_payload. rewrite take_ge; [done|].
      rewrite length_drop. lia.
    + assert (off + 1 <= Size r / 1024) as Hdiv.
      { apply Z.div_le_lower_bound; lia. }
      rewrite IH by lia. cbn [mbind option_bind]. rewrite Hu.
      rewrite (seqZ_cons off) by lia. cbn [fmap list_fmap].
      f_equal. f_equal.
      * replace (Z.succ off) with (off + 1) by lia.
        replace (Z.pred (Size r / 1024 + 1 - off))
          with (Size r / 1024 + 1 - (off + 1)) by lia.
        done.
      * rewrite <- app_assoc. f_equal.
        replace (Z.to_nat (1024 * (off + 1)))
          with (Z.to_nat (1024 * off) + 1024)%nat by lia.
        rewrite <- drop_drop. apply take_drop.
Qed.

(** For a file of [n > 0] bytes the producer sends exactly [n/1024 + 1]
    payloads: chunk [k] holds the bytes from [1024 k] on, 1024 of them or as
    many as are left; when [n] is a multiple of 1024 the last payload is
    empty.  The metadata follows. *)
Theorem respond_file_chunks (fuel : nat) (fr : fileReader)
    (r : SectionReader) :
  sr fr = Some r -> hasher fr = [] ->
  0 < Size r < 2 ^ 64 -> Size r / 1024 < Z.of_nat fuel ->
  respond_file md5_Sum fuel fr
  = Some ((SendPayload <$>
             (chunk_payload r (index fr) <$> seqZ 0 (Size r / 1024 + 1))) ++
          [SendMetadata
             (mkMeta 0 0 (index fr) (Size r) (take 16 (md5_Sum (content r))))])
  /\
  forall k, 0 <= k <= Size r / 1024 ->
            Z.of_nat (length (data (chunk_payload r (index fr) k)))
            = Z.min 1024 (Size r - 1024 * k).
Proof.
  intros Hsr Hh Hsz Hfuel. split.
  - unfold respond_file. rewrite Hsr. rewrite decide_False by lia.
    rewrite read_loop_chunks by lia. cbn [mbind option_bind].
    rewrite Hh. cbn [app]. change (Z.to_nat (1024 * 0)) with 0%nat.
    rewrite drop_0, Z.sub_0_r. do 5 f_equal.
    unfold u64. apply Z.mod_small. lia.
  - intros k Hk. unfold chunk_payload. cbn [data].
    rewrite length_take, length_drop.
    assert (Z.of_nat (length (content r)) = Size r) as Hlen by done.
    assert (1024 * k <= Size r).
    { pose proof (Z.mul_div_le (Size r) 1024 ltac:(lia)). lia. }
    lia.
Qed.

End ProducerChunks.

(** ** The Cleaner: its callback *)

Section CleanerCallback.
Import Server.

Lemma run_chans (calls : list call) :
  forall c : Cleaner,
    cleaner_inv c ->
    exists c',
      run c calls = Returns c' /\
      length (chans c')
      = (length (chans c) + length (filter (fun a => a = CallSubscribe) calls))%nat.
Proof.
  induction calls as [|a calls IH]; intros c Hinv.
  - exists c. split; [done|]. cbn. lia.
  - cbn [run]. destruct a as [| |ch].
    + destruct (subscribe_inv c Hinv) as (c1 & H1 & Hinv1 & Hcl1 & Hch).
      cbn [step]. rewrite H1.
      destruct (IH c1 Hinv1) as (c' & Hrun & Hlen).
      exists c'. split; [done|]. rewrite Hlen.
      rewrite filter_cons_True by done. cbn [length].
      assert (length (chans c1) = S (length (chans c))); [|lia].
      destruct (closedState c) eqn:E.
      * rewrite subscribe_closed in H1 by done. injection H1 as <-.
        cbn. rewrite length_app. cbn. lia.
      * rewrite subscribe_open in H1 by done. injection H1 as <-.
        cbn. rewrite length_app. cbn. lia.
    + destruct (close_inv c Hinv) as (c1 & H1 & Hinv1 & Hcl1 & Hl1).
      cbn [step]. rewrite H1.
      destruct (IH c1 Hinv1) as (c' & Hrun & Hlen).
      exists c'. split; [done|]. rewrite Hlen, Hl1.
      by rewrite filter_cons_False by done.
    + destruct (recv_inv c ch Hinv) as (c1 & H1 & Hinv1 & Hcl1 & Hl1).
      rewrite H1.
      destruct (IH c1 Hinv1) as (c' & Hrun & Hlen).
      exists c'. split; [done|]. rewrite Hlen, Hl1.
      by rewrite filter_cons_False by done.
Qed.

(** Whatever calls are made on a fresh cleaner, none blocks or panics; the
    cleaner is closed exactly when a close was among them, and then the
    callback has run exactly once; each subscribe has made one channel, and
    before the close no channel was sent anything. *)
Theorem cleaner_calls_return (calls : list call) :
  exists c,
    run Cleaner_zero calls = Returns c /\
    closed c = bool_decide (CallClose ∈ calls) /\
    cb_calls c = (if closed c then 1 else 0)%nat /\
    length (chans c) = length (filter (fun a => a = CallSubscribe) calls) /\
    subs c = seq 0 (length (chans c)) /\
    Forall (fun x => sent x = (if closed c then 1 else 0)%nat /\
                     chan_closed x = closed c) (chans c).
Proof.
  destruct (run_inv calls Cleaner_zero Cleaner_zero_inv)
    as (c & Hrun & Hinv & Hcl & _).
  destruct (run_chans calls Cleaner_zero Cleaner_zero_inv)
    as (c2 & Hrun2 & Hlen).
  rewrite Hrun in Hrun2. injection Hrun2 as <-.
  exists c. split; [done|]. unfold closed. split; [done|].
  destruct Hinv as [Hsubs Hst].
  destruct (closedState c); destruct Hst as [Hall Hcb].
  - split; [done|]. split; [done|]. split; [done|].
    eapply Forall_impl; [exact Hall|]. intros x (_ & ? & ?). done.
  - split; [done|]. split; [done|]. split; [done|].
    eapply Forall_impl; [exact Hall|]. intros x (_ & _ & ? & ?). done.
Qed.

End CleanerCallback.

(** *** The theorems at example values *)

Lemma reschedule_twice_witness :
  (Server.reschedule cache_0_1_2 ∅
     (Server.reschedule cache_0_1_2 ∅ ∅ (ack_run 2)).1.1 (ack_run 2)).1.2 = [] /\
  (Server.reschedule cache_0_1_2 ∅
     (Server.reschedule cache_0_1_2 ∅ ∅ (ack_run 2)).1.1 (ack_run 2)).1.1
  = (Server.reschedule cache_0_1_2 ∅ ∅ (ack_run 2)).1.1.
Proof.
  apply (reschedule_twice cache_0_1_2 ∅ ∅ (ack_run 2)).
  simpl. discriminate.
Defined.

Lemma resend_entries_rate_witness :
  Server.resend_entries cache_0_1_2 1 0
    [MsgV0.mkResend 0 0 1; MsgV0.mkResend 0 1 1; MsgV0.mkResend 0 2 1]
    resched_empty
  = foldl (Server.resend_entry cache_0_1_2) resched_empty
      (if decide (1 = 0)
       then [MsgV0.mkResend 0 0 1; MsgV0.mkResend 0 1 1; MsgV0.mkResend 0 2 1]
       else take (Z.to_nat 1 + 1)
              [MsgV0.mkResend 0 0 1; MsgV0.mkResend 0 1 1;
               MsgV0.mkResend 0 2 1]).
Proof.
  apply (resend_entries_rate cache_0_1_2 1).
  - lia.
  - simpl. lia.
Defined.

Lemma resend_entry_miss_witness :
  Server.resent
    (Server.resend_entry cache_0_1_2 resched_empty (MsgV0.mkResend 0 0 5))
  = Server.resent resched_empty ++ (chunk <$> seqZ 0 3).
Proof.
  apply (resend_entry_miss cache_0_1_2 chunk resched_empty
           (MsgV0.mkResend 0 0 5) 3).
  - unfold is_u64. simpl. lia.
  - simpl. lia.
  - unfold rescheduled. simpl. apply not_elem_of_empty.
  - simpl. intros j Hj.
    assert (j = 0 \/ j = 1 \/ j = 2) as [-> | [-> | ->]] by lia; reflexivity.
  - reflexivity.
Defined.

Lemma resend_entry_uncached_witness :
  let st' := Server.resend_entry cache_0_1_2 resched_empty
               (MsgV0.mkResend 0 7 1) in
  Server.resent st' = Server.resent resched_empty /\
  rescheduled (Server.resendScheduled st') 0 7 /\
  Server.resent
    (Server.resend_entry (Server.saveToCache cache_0_1_2 (chunk 7)) st'
       (MsgV0.mkResend 0 7 1))
  = Server.resent resched_empty.
Proof.
  apply (resend_entry_uncached cache_0_1_2 resched_empty
           (MsgV0.mkResend 0 7 1)
           (Server.saveToCache cache_0_1_2 (chunk 7))).
  reflexivity.
Defined.

Lemma respond_file_chunks_witness :
  Server.respond_file (fun _ => replicate 16 0) 3 file_reader_2048
  = Some ((Server.SendPayload <$>
             (chunk_payload reader_2048 (Server.index file_reader_2048)
                <$> seqZ 0 (Server.Size reader_2048 / 1024 + 1))) ++
          [Server.SendMetadata
             (Server.mkMeta 0 0 (Server.index file_reader_2048)
                (Server.Size reader_2048)
                (take 16 ((fun _ => replicate 16 0)
                            (Server.content reader_2048))))])
  /\
  forall k, 0 <= k <= Server.Size reader_2048 / 1024 ->
            Z.of_nat (length (MsgV0.data
                                (chunk_payload reader_2048
                                   (Server.index file_reader_2048) k)))
            = Z.min 1024 (Server.Size reader_2048 - 1024 * k).
Proof.
  apply (respond_file_chunks (fun _ => replicate 16 0) 3 file_reader_2048
           reader_2048).
  - reflexivity.
  - reflexivity.
  - vm_compute. split; reflexivity.
  - vm_compute. reflexivity.
Defined.

(** The file of 2048 bytes: two full chunks and an empty third one. *)
Example respond_file_2048 :
  Server.respond_file (fun _ => replicate 16 0) 3 file_reader_2048
  = Some [Server.SendPayload (MsgV0.mkPayload 0 0 0 (replicate 1024 7));
          Server.SendPayload (MsgV0.mkPayload 0 0 1 (replicate 1024 7));
          Server.SendPayload (MsgV0.mkPayload 0 0 2 []);
          Server.SendMetadata (Server.mkMeta 0 0 0 2048 (replicate 16 0))].
Proof. vm_compute. reflexivity. Qed.

(** ** The chunk queue: the heap operations *)

Section HeapSwaps.
Import MsgV0 Queue.

Lemma Swap_items_lookup (c : chunkQueue) (i j k : nat) :
  (i < Len c)%nat -> (j < Len c)%nat ->
  items (Swap c i j) !! k
  = items c !! (if decide (k = i) then j else if decide (k = j) then i else k).
Proof.
  intros Hi Hj. unfold Swap, with_items, Len in *. cbn [items].
  destruct (decide (k = j)) as [->|Hkj].
  - rewrite list_lookup_insert_eq by (by rewrite length_insert).
    destruct (decide (j = i)) as [->|Hji].
    + by rewrite list_lookup_lookup_total_lt.
    + by rewrite list_lookup_lookup_total_lt.
  - rewrite list_lookup_insert_ne by done.
    destruct (decide (k = i)) as [->|Hki].
    + rewrite list_lookup_insert_eq by done.
      by rewrite list_lookup_lookup_total_lt.
    + by rewrite list_lookup_insert_ne.
Qed.

(** Swapping two items of the queue permutes its items. *)
Lemma Swap_Permutation (c : chunkQueue) (i j : nat) :
  (i < Len c)%nat -> (j < Len c)%nat -> items (Swap c i j) ≡ₚ items c.
Proof.
  intros Hi Hj. apply Permutation_inj. split.
  - pose proof (Len_Swap c i j) as H. unfold Len in H. done.
  - exists (fun k => if decide (k = i) then j
                     else if decide (k = j) then i else k).
    split.
    + intros a b Hab. repeat case_decide; subst; congruence.
    + intros k. by apply Swap_items_lookup.
Qed.

Lemma down_Permutation (fuel : nat) (c : chunkQueue) (i n : nat) :
  (n <= Len c)%nat -> items (down fuel c i n) ≡ₚ items c.
Proof.
  revert c i. induction fuel as [|fuel IH]; intros c i Hn; cbn [down];
    [done|].
  case_bool_decide as Hj1; [done|].
  destruct (bool_decide (2 * i + 1 + 1 < n)%nat
            && Less c (2 * i + 1 + 1) (2 * i + 1)) eqn:Hr.
  - apply andb_prop in Hr as [Hr _]. apply bool_decide_eq_true in Hr.
    destruct (negb _); [done|].
    rewrite IH by (rewrite ?Len_Swap; lia).
    apply Swap_Permutation; lia.
  - destruct (negb _); [done|].
    rewrite IH by (rewrite ?Len_Swap; lia).
    apply Swap_Permutation; lia.
Qed.

Lemma Len_up (fuel : nat) (c : chunkQueue) (j : nat) :
  Len (up fuel c j) = Len c.
Proof.
  revert c j. induction fuel as [|fuel IH]; intros c j; cbn [up]; [done|].
  destruct (_ || _); [done|]. by rewrite IH, Len_Swap.
Qed.

Lemma up_Permutation (fuel : nat) (c : chunkQueue) (j : nat) :
  (j < Len c)%nat -> items (up fuel c j) ≡ₚ items c.
Proof.
  revert c j. induction fuel as [|fuel IH]; intros c j Hj; cbn [up]; [done|].
  destruct (_ || _); [done|].
  assert ((j - 1) / 2 <= j)%nat as Hp.
  { transitivity (j - 1)%nat; [|lia]. apply Nat.Div0.div_le_upper_bound. lia. }
  rewrite IH by (rewrite Len_Swap; lia).
  apply Swap_Permutation; lia.
Qed.

(** [heap.Push] adds the item, [heap.Pop] takes one item out, and neither
    loses or duplicates another. *)
Lemma heap_Push_Permutation (c : chunkQueue) (x : ServerPayload) :
  items (heap_Push c x) ≡ₚ x :: items c.
Proof.
  unfold heap_Push. rewrite up_Permutation.
  - unfold Push, with_items. cbn [items].
    by rewrite Permutation_app_comm.
  - unfold Len, Push, with_items. cbn [items]. rewrite length_app. cbn. lia.
Qed.

Lemma heap_Pop_Permutation (c : chunkQueue) :
  (0 < Len c)%nat ->
  (heap_Pop c).1 :: items (heap_Pop c).2 ≡ₚ items c.
Proof.
  intros Hn. unfold heap_Pop, Pop. cbn [fst snd with_items items].
  set (c1 := down (Len (Swap c 0 (Len c - 1))) (Swap c 0 (Len c - 1)) 0
               (Len c - 1)).
  assert (items c1 ≡ₚ items c) as Hperm.
  { unfold c1. rewrite down_Permutation by (rewrite ?Len_Swap; lia).
    apply Swap_Permutation; lia. }
  assert (Len c1 = Len c) as Hlen.
  { unfold c1. by rewrite Len_down, Len_Swap. }
  rewrite <- Hperm.
  assert (items c1 = take (Len c1 - 1) (items c1) ++ [items c1 !!! (Len c1 - 1)%nat])
    as Hsplit.
  { rewrite <- (take_drop (Len c1 - 1) (items c1)) at 1. f_equal.
    destruct (lookup_lt_is_Some_2 (items c1) (Len c1 - 1)) as [x Hx];
      [unfold Len in *; lia|].
    rewrite (list_lookup_total_correct _ _ _ Hx).
    rewrite (drop_S _ x _ Hx). rewrite drop_ge; [done|]. unfold Len. lia. }
  rewrite Hsplit at 3. by rewrite Permutation_app_comm.
Qed.

Lemma Top_items (c : chunkQueue) : items (Top c).2 ≡ₚ items c.
Proof.
  unfold Top. case_bool_decide as Hn; [done|].
  pose proof (heap_Pop_Permutation c ltac:(lia)) as Hpop.
  destruct (heap_Pop c) as [item c1]. cbn [fst snd] in *.
  by rewrite heap_Push_Permutation.
Qed.

End HeapSwaps.

Section HeapOrder.
Import MsgV0 Queue.

Lemma heap_ordered_order (c : chunkQueue) :
  heap_ordered c = true <-> heap_order c.
Proof.
  unfold heap_ordered, heap_order. rewrite forallb_forall. split.
  - intros H k Hk. specialize (H k).
    rewrite <- list_elem_of_In, elem_of_seq in H.
    specialize (H ltac:(lia)). unfold Less in H.
    apply negb_true_iff, bool_decide_eq_false in H. unfold offset_at. lia.
  - intros H k Hk. rewrite <- list_elem_of_In, elem_of_seq in Hk.
    specialize (H k ltac:(lia)). unfold Less.
    apply negb_true_iff, bool_decide_eq_false. unfold offset_at in H. lia.
Qed.

Lemma parent_lt (k : nat) : (0 < k)%nat -> ((k - 1) / 2 < k)%nat.
Proof. intros H. apply Nat.Div0.div_lt_upper_bound. lia. Qed.

Lemma parent_children (k i : nat) :
  (0 < k)%nat -> ((k - 1) / 2 = i <-> k = 2 * i + 1 \/ k = 2 * i + 2)%nat.
Proof.
  intros Hk. split.
  - intros <-.
    pose proof (Nat.div_mod_eq (k - 1) 2) as H.
    pose proof (Nat.mod_upper_bound (k - 1) 2 ltac:(lia)) as H2. lia.
  - intros [-> | ->].
    + replace (2 * i + 1 - 1)%nat with (i * 2)%nat by lia.
      by rewrite Nat.div_mul.
    + replace (2 * i + 2 - 1)%nat with (1 + i * 2)%nat by lia.
      rewrite Nat.div_add by lia. done.
Qed.

Lemma offset_at_Swap (c : chunkQueue) (i j k : nat) :
  (i < Len c)%nat -> (j < Len c)%nat ->
  offset_at (Swap c i j) k
  = if decide (k = i) then offset_at c j
    else if decide (k = j) then offset_at c i else offset_at c k.
Proof.
  intros Hi Hj. unfold offset_at.
  rewrite !list_lookup_total_alt, (Swap_items_lookup c i j k Hi Hj).
  by repeat case_decide.
Qed.

Lemma Less_offset_at (c : chunkQueue) (i j : nat) :
  Less c i j = bool_decide (offset_at c i < offset_at c j).
Proof. done. Qed.

(** [heap.up] from [j], when the heap order holds everywhere except between
    [j] and its parent, and the children of [j] are not below its parent. *)
Lemma up_heap_order (fuel : nat) :
  forall (c : chunkQueue) (j : nat),
    (j < Len c)%nat -> (j < fuel)%nat ->
    (forall k, (0 < k < Len c)%nat -> k <> j ->
               offset_at c ((k - 1) / 2) <= offset_at c k) ->
    (forall k, (0 < k < Len c)%nat -> ((k - 1) / 2)%nat = j -> (0 < j)%nat ->
               offset_at c ((j - 1) / 2) <= offset_at c k) ->
    heap_order (up fuel c j).
Proof.
  induction fuel as [|fuel IH]; intros c j Hj Hfuel I1 I2; [lia|].
  cbn [up]. rewrite Less_offset_at.
  case_bool_decide as Hroot.
  { intros k Hk. apply I1; [done|].
    intros ->. pose proof (parent_lt j ltac:(lia)). lia. }
  case_bool_decide as Hless; cbn [negb orb].
  2:{ intros k Hk. destruct (decide (k = j)) as [->|Hne]; [lia|by apply I1]. }
  assert (0 < j)%nat as Hj0.
  { destruct j; [|lia]. exfalso. by apply Hroot. }
  pose proof (parent_lt j Hj0) as Hp.
  remember ((j - 1) / 2)%nat as i eqn:Hi.
  apply IH.
  - rewrite Len_Swap. lia.
  - lia.
  - rewrite Len_Swap. intros k Hk Hki.
    rewrite !offset_at_Swap by lia.
    destruct (decide (k = j)) as [->|Hkj].
    + rewrite <- Hi. repeat case_decide; lia.
    + destruct (decide ((k - 1) / 2 = i)%nat) as [Hpi|Hpi].
      * pose proof (I1 k Hk Hkj) as H1. rewrite Hpi in *.
        repeat case_decide; lia.
      * destruct (decide ((k - 1) / 2 = j)%nat) as [Hpj|Hpj].
        -- pose proof (I2 k Hk Hpj Hj0) as H2. rewrite Hpj in *.
           repeat case_decide; lia.
        -- pose proof (I1 k Hk Hkj) as H1.
           repeat case_decide; lia.
  - rewrite Len_Swap. intros k Hk Hpk Hi0.
    pose proof (parent_lt i Hi0) as Hpi.
    rewrite !offset_at_Swap by lia.
    pose proof (I1 i ltac:(lia) ltac:(lia)) as Hii.
    pose proof (parent_lt k ltac:(lia)) as Hkk.
    destruct (decide (k = j)) as [->|Hkj].
    + repeat case_decide; lia.
    + pose proof (I1 k Hk Hkj) as H1. rewrite Hpk in H1.
      repeat case_decide; lia.
Qed.

(** [heap.Push] keeps the heap order. *)
Lemma heap_Push_heap_order (c : chunkQueue) (x : ServerPayload) :
  heap_order c -> heap_order (heap_Push c x).
Proof.
  intros Hh. unfold heap_Push.
  assert (Len (Push c x) = S (Len c)) as Hlen.
  { unfold Len, Push, with_items. cbn [items]. rewrite length_app. cbn. lia. }
  assert (forall k, (k < Len c)%nat ->
                    offset_at (Push c x) k = offset_at c k) as Hold.
  { intros k Hk. unfold offset_at, Push, with_items. cbn [items].
    rewrite !list_lookup_total_alt. by rewrite lookup_app_l. }
  apply up_heap_order.
  - lia.
  - lia.
  - rewrite Hlen. intros k Hk Hne.
    pose proof (parent_lt k ltac:(lia)).
    rewrite !Hold by lia. apply Hh. lia.
  - rewrite Hlen. intros k Hk Hpk _.
    pose proof (parent_lt k ltac:(lia)). lia.
Qed.

End HeapOrder.

Section HeapDown.
Import MsgV0 Queue.

(** [heap.down] from [i], when the heap order holds from [m] on except
    between [i] and its children, and the children of [i] are not below its
    parent. *)
Lemma down_heap_order (fuel : nat) :
  forall (c : chunkQueue) (i m n : nat),
    (n <= Len c)%nat -> (n <= fuel + i)%nat -> (1 <= fuel)%nat ->
    (m <= i)%nat ->
    (forall k, (0 < k < n)%nat -> (m <= (k - 1) / 2)%nat ->
               ((k - 1) / 2)%nat <> i ->
               offset_at c ((k - 1) / 2) <= offset_at c k) ->
    (forall k, (0 < k < n)%nat -> ((k - 1) / 2)%nat = i -> (0 < i)%nat ->
               (m <= (i - 1) / 2)%nat ->
               offset_at c ((i - 1) / 2) <= offset_at c k) ->
    heap_order_from (down fuel c i n) m n.
Proof.
  induction fuel as [|fuel IH]; intros c i m n Hn Hfuel Hf1 Hm D1 D2; [lia|].
  cbn [down]. rewrite !Less_offset_at.
  case_bool_decide as Hj1.
  { intros k Hk Hmk. apply D1; [done..|].
    intros Hp. apply (parent_children k i ltac:(lia)) in Hp. lia. }
  set (j := if bool_decide (2 * i + 1 + 1 < n)%nat
               && bool_decide (offset_at c (2 * i + 1 + 1)
                               < offset_at c (2 * i + 1))
            then (2 * i + 1 + 1)%nat else (2 * i + 1)%nat).
  assert ((j = 2 * i + 1 \/ j = 2 * i + 2)%nat /\ (j < n)%nat
          /\ forall k, (0 < k < n)%nat -> ((k - 1) / 2)%nat = i ->
                       offset_at c j <= offset_at c k) as (Hjc & Hjn & Hjmin).
  { subst j. case_bool_decide as Hr; cbn [andb];
      [case_bool_decide as Hlt; cbn [andb]|].
    - split; [lia|]. split; [lia|]. intros k Hk Hp.
      apply (parent_children k i ltac:(lia)) in Hp.
      destruct Hp as [-> | ->]; [lia|].
      replace (2 * i + 2)%nat with (2 * i + 1 + 1)%nat by lia. lia.
    - split; [lia|]. split; [lia|]. intros k Hk Hp.
      apply (parent_children k i ltac:(lia)) in Hp.
      destruct Hp as [-> | ->]; [lia|].
      replace (2 * i + 2)%nat with (2 * i + 1 + 1)%nat by lia. lia.
    - split; [lia|]. split; [lia|]. intros k Hk Hp.
      apply (parent_children k i ltac:(lia)) in Hp.
      destruct Hp as [-> | ->]; lia. }
  clearbody j.
  assert (((j - 1) / 2)%nat = i) as Hpj by (apply (parent_children j i ltac:(lia)); lia).
  case_bool_decide as Hless; cbn [negb].
  2:{ intros k Hk Hmk.
      destruct (decide (((k - 1) / 2)%nat = i)) as [Hp|Hp]; [|by apply D1].
      rewrite Hp. pose proof (Hjmin k Hk Hp). lia. }
  assert (heap_order_from (down fuel (Swap c i j) j n) m n) as Hrec.
  { apply IH.
    - rewrite Len_Swap. lia.
    - lia.
    - lia.
    - lia.
    - intros k Hk Hmk Hpk.
      rewrite !offset_at_Swap by lia.
      destruct (decide (k = j)) as [->|Hkj].
      + rewrite Hpj. repeat case_decide; lia.
      + destruct (decide (k = i)) as [->|Hki].
        * pose proof (parent_lt i ltac:(lia)) as Hpi.
          pose proof (D2 j ltac:(lia) Hpj ltac:(lia) Hmk) as H2.
          repeat case_decide; lia.
        * destruct (decide (((k - 1) / 2)%nat = i)) as [Hp|Hp].
          -- pose proof (Hjmin k Hk Hp) as H3.
             repeat case_decide; lia.
          -- pose proof (D1 k Hk Hmk Hp) as H1.
             repeat case_decide; lia.
    - intros k Hk Hpk Hj0 _.
      rewrite !offset_at_Swap by lia. rewrite Hpj.
      pose proof (parent_lt k ltac:(lia)) as Hkk.
      pose proof (D1 k Hk ltac:(lia) ltac:(lia)) as H1. rewrite Hpk in H1.
      repeat case_decide; lia. }
  exact Hrec.
Qed.

Lemma heap_order_from_0 (c : chunkQueue) :
  heap_order_from c 0 (Len c) <-> heap_order c.
Proof.
  unfold heap_order_from, heap_order. split; intros H k Hk; [|intros _];
    apply H; lia.
Qed.

(** [heap.Pop] keeps the heap order. *)
Lemma heap_Pop_heap_order (c : chunkQueue) :
  (0 < Len c)%nat -> heap_order c -> heap_order (heap_Pop c).2.
Proof.
  intros Hlen Hh. unfold heap_Pop, Pop.
  set (n := (Len c - 1)%nat).
  set (c2 := down (Len (Swap c 0 n)) (Swap c 0 n) 0 n).
  cbn [snd].
  assert (Len c2 = Len c) as Hlen2.
  { subst c2. rewrite Len_down; rewrite Len_Swap; lia. }
  assert (heap_order_from c2 0 n) as Hd.
  { subst c2. apply down_heap_order.
    - rewrite Len_Swap. lia.
    - rewrite Len_Swap. lia.
    - rewrite Len_Swap. lia.
    - lia.
    - intros k Hk _ Hp. rewrite !offset_at_Swap by lia.
      pose proof (parent_lt k ltac:(lia)).
      pose proof (Hh k ltac:(lia)).
      repeat case_decide; lia.
    - intros; lia. }
  intros k Hk.
  assert (Len (with_items c2 (take (Len c2 - 1) (items c2))) = n) as Hl.
  { unfold Len at 1, with_items. cbn [items]. rewrite length_take.
    fold (Len c2). lia. }
  rewrite Hl in Hk.
  pose proof (parent_lt k ltac:(lia)) as Hp.
  assert (forall q, (q < n)%nat ->
            offset_at (with_items c2 (take (Len c2 - 1) (items c2))) q
            = offset_at c2 q) as Htake.
  { intros q Hq. unfold offset_at, with_items. cbn [items].
    rewrite !list_lookup_total_alt, lookup_take_lt by lia. done. }
  rewrite !Htake by lia. apply Hd; lia.
Qed.

(** [Top] keeps the heap order of the queue. *)
Lemma Top_heap_order (c : chunkQueue) :
  heap_order c -> heap_order (Top c).2.
Proof.
  intros Hh. unfold Top. case_bool_decide as Hn; [done|].
  pose proof (heap_Pop_heap_order c ltac:(lia) Hh) as Hpop.
  destruct (heap_Pop c) as [item c1]. cbn [fst snd] in *.
  by apply heap_Push_heap_order.
Qed.

(** [heap.Init] puts every queue in heap order. *)
Lemma heap_Init_heap_order (c : chunkQueue) : heap_order (heap_Init c).
Proof.
  unfold heap_Init. set (n := Len c).
  assert (forall (l : nat) (c0 : chunkQueue),
            (l <= n / 2)%nat -> Len c0 = n ->
            heap_order_from c0 l n ->
            let c1 := foldl (fun c i => down n c i n) c0 (reverse (seq 0 l)) in
            Len c1 = n /\ heap_order_from c1 0 n) as Hfold.
  { induction l as [|l IH]; intros c0 Hl Hc0 Hinv; [done|].
    rewrite seq_S, reverse_snoc. cbn [foldl Nat.add].
    pose proof (Nat.div_mod_eq n 2) as Hdm.
    pose proof (Nat.mod_upper_bound n 2 ltac:(lia)) as Hmod.
    apply IH; [lia| |].
    - rewrite Len_down; lia.
    - apply down_heap_order; [lia..| |].
      + intros k Hk Hm Hp. apply Hinv; [done|lia].
      + intros k Hk Hp Hl0 Hm. pose proof (parent_lt l Hl0). lia. }
  destruct (Hfold (n / 2)%nat c ltac:(lia) eq_refl) as [Hl Hh].
  { intros k Hk Hm.
    pose proof (Nat.div_mod_eq (k - 1) 2) as Hdm.
    pose proof (Nat.mod_upper_bound (k - 1) 2 ltac:(lia)) as Hmod.
    pose proof (Nat.div_mod_eq n 2) as Hdn.
    pose proof (Nat.mod_upper_bound n 2 ltac:(lia)) as Hmodn. lia. }
  apply heap_order_from_0. by rewrite Hl.
Qed.

Lemma heap_Init_Permutation (c : chunkQueue) : items (heap_Init c) ≡ₚ items c.
Proof.
  unfold heap_Init. set (n := Len c).
  assert (forall (l : list nat) (c0 : chunkQueue),
            Len c0 = n ->
            let c1 := foldl (fun c i => down n c i n) c0 l in
            Len c1 = n /\ items c1 ≡ₚ items c0) as Hfold.
  { induction l as [|i l IH]; intros c0 Hc0; [done|]. cbn [foldl].
    destruct (IH (down n c0 i n)) as [Hl Hp]; [rewrite Len_down; lia|].
    split; [done|]. rewrite Hp. apply down_Permutation. lia. }
  by apply Hfold.
Qed.

(** [Gaps] leaves the queue in heap order, with the items it had. *)
Lemma Gaps_queue (fuel : nat) (c : chunkQueue) (from : Z)
    (res : list ResendEntry) (c' : chunkQueue) :
  Gaps fuel c from = Some (res, c') ->
  heap_order c' /\ items c' ≡ₚ items c.
Proof.
  unfold Gaps. intros H.
  destruct (Gaps_loop fuel (sort_Sort c) from 0 []) as [r|]; [|done].
  change (Some (r, heap_Init (sort_Sort c)) = Some (res, c')) in H.
  injection H as <- <-. split.
  - apply heap_Init_heap_order.
  - rewrite heap_Init_Permutation. unfold sort_Sort, with_items. cbn [items].
    apply merge_sort_Permutation.
Qed.

End HeapDown.

(** ** The chunk queue: the rounds of Gaps *)

Section GapsBounded.
Import MsgV0 Queue.

Variable c : chunkQueue.
Variable m : Z.

Let n : nat := Len c.
Let o (k : nat) : Z := offset (items c !!! k).

Hypothesis Hsorted : forall i j, (i < j < n)%nat -> o i < o j.
Hypothesis Hrange : forall i, (i < n)%nat -> 0 <= o i <= m.
Hypothesis Hm : m < 2 ^ 64.

(** The inner loop of [Gaps] entered at [j] with [first] not beyond the item
    at [j]: it stops at some [j'] from [j] on, again with [first] not beyond
    the item at [j'], and never moves [first] back. *)
Lemma skip_received_bounds (fuel : nat) :
  forall (first : Z) (j : nat),
    (j <= n)%nat -> 0 <= first < 2 ^ 64 ->
    ((j < n)%nat -> first <= o j) ->
    (j <= (skip_received fuel c first j).2 <= n)%nat /\
    first <= (skip_received fuel c first j).1 < 2 ^ 64 /\
    (((skip_received fuel c first j).2 < n)%nat ->
     (skip_received fuel c first j).1 <= o (skip_received fuel c first j).2).
Proof.
  induction fuel as [|fuel IH]; intros first j Hj Hf Hle;
    cbn [skip_received]; [cbn [fst snd]; lia|].
  fold n. case_bool_decide as Hlt; [|cbn [fst snd]; lia].
  fold (o j). case_bool_decide as Hbrk; [cbn [fst snd]; lia|].
  pose proof (Hle ltac:(lia)) as Hoj.
  pose proof (Hsorted j (S j) ltac:(lia)) as Hnext.
  pose proof (Hrange (S j) ltac:(lia)) as Hr.
  assert (u64 (first + 1) = first + 1) as ->.
  { unfold u64. apply Z.mod_small. lia. }
  destruct (IH (first + 1) (S j)) as (H1 & H2 & H3); [lia|lia|lia|].
  split; [lia|]. split; [lia|done].
Qed.

(** The outer loop of [Gaps] from item [i] on, with [first] not beyond the
    item at [i]: every round is a split, which brings [first] 256 closer to
    the last item, or moves [i] forward, and every round adds one entry. *)
Lemma Gaps_loop_bounded (fuel : nat) :
  forall (first : Z) (i : nat) (res : list ResendEntry),
    (i <= n)%nat -> 0 <= first < 2 ^ 64 ->
    ((i < n)%nat -> first <= o i) ->
    (0 < fuel)%nat ->
    ((i < n)%nat -> (n - i + Z.to_nat ((m - first) / 256) < fuel)%nat) ->
    exists r,
      Gaps_loop fuel c first i res = Some r /\
      ((i < n)%nat ->
       (length r <= length res + (n - i) + Z.to_nat ((m - first) / 256))%nat) /\
      (i = n -> r = res).
Proof.
  induction fuel as [|fuel IH]; intros first i res Hi Hf Hle Hfuel0 Hfuel;
    [lia|].
  cbn [Gaps_loop]. fold n. case_bool_decide as Hlt.
  2:{ exists res. split; [done|]. split; [lia|done]. }
  specialize (Hfuel Hlt).
  fold (o i). pose proof (Hle Hlt) as Hoi. pose proof (Hrange i Hlt) as Hri.
  assert (u64 (o i - first) = o i - first) as Hlen.
  { unfold u64. apply Z.mod_small. lia. }
  rewrite Hlen. case_bool_decide as Hsplit.
  - assert (u64 (first + (255 + 1)) = first + 256) as ->.
    { unfold u64. rewrite Z.mod_small by lia. lia. }
    assert ((m - (first + 256)) / 256 = (m - first) / 256 - 1) as Hdiv.
    { replace (m - (first + 256)) with ((m - first) + (-1) * 256) by lia.
      rewrite Z.div_add by lia. lia. }
    assert (1 <= (m - first) / 256) as Hpos.
    { apply Z.div_le_lower_bound; lia. }
    destruct (IH (first + 256) i
                (res ++ [mkResend (q_fileIndex c) first (u8 255)]))
      as (r & Hr & Hl & _); [lia|lia|lia|lia|rewrite Hdiv; lia|].
    exists r. split; [done|]. split; [|lia]. intros _.
    specialize (Hl Hlt). rewrite length_app, Hdiv in Hl. cbn [length] in Hl.
    lia.
  - set (first1 := u64 (first + (o i - first + 1))).
    assert (0 <= first1 < 2 ^ 64) as Hf1.
    { unfold first1, u64. apply Z.mod_pos_bound. lia. }
    assert ((S i < n)%nat -> first1 = o i + 1 /\ first1 <= o (S i)) as Hnext.
    { intros HS. pose proof (Hsorted i (S i) ltac:(lia)).
      pose proof (Hrange (S i) HS).
      assert (first1 = o i + 1) as ->; [|lia].
      unfold first1, u64. rewrite Z.mod_small by lia. lia. }
    pose proof (skip_received_bounds n first1 (S i) ltac:(lia) Hf1
                  ltac:(intros HS; by apply Hnext)) as (Hj & Hf' & Hle').
    destruct (skip_received n c first1 (S i)) as [f' i'] eqn:Hskip.
    cbn [fst snd] in Hj, Hf', Hle'.
    assert (0 <= (m - first) / 256) as Hpos.
    { apply Z.div_pos; lia. }
    assert ((i' < n)%nat ->
            0 <= (m - f') / 256 <= (m - first) / 256) as Hmono.
    { intros Hi'. destruct (Hnext ltac:(lia)) as [Hf1eq _].
      pose proof (Hrange i' Hi'). specialize (Hle' Hi'). split.
      - apply Z.div_pos; lia.
      - apply Z.div_le_mono; lia. }
    destruct (IH f' i'
                (res ++ [mkResend (q_fileIndex c) first (u8 (o i - first))]))
      as (r & Hr & Hl & Hend).
    { lia. }
    { lia. }
    { exact Hle'. }
    { lia. }
    { intros Hi'. specialize (Hmono Hi'). lia. }
    exists r. split; [done|]. split; [|lia]. intros _.
    destruct (decide (i' < n)%nat) as [Hi'|Hi'].
    + specialize (Hl Hi'). specialize (Hmono Hi').
      rewrite length_app in Hl. cbn [length] in Hl. lia.
    + rewrite (Hend ltac:(lia)), length_app. cbn [length]. lia.
Qed.

End GapsBounded.

Section GapsRounds.
Import MsgV0 Queue.

(** [Gaps] on any queue of distinct offsets between [from] and [m], also
    with gaps wider than 255 chunks: the loop ends within
    [Len + (m - from) / 256 + 1] rounds, and it returns at most
    [Len + (m - from) / 256] entries, one per round: every round either
    splits, which moves [first] on by 256, or goes on to a later item. *)
Theorem Gaps_rounds (c : chunkQueue) (from m : Z) (fuel : nat) :
  NoDup (offsets c) ->
  (forall x, x ∈ offsets c -> from <= x <= m) ->
  0 <= from <= m -> m < 2 ^ 64 ->
  (Len c + Z.to_nat ((m - from) / 256) < fuel)%nat ->
  exists res c',
    Gaps fuel c from = Some (res, c') /\
    (length res <= Len c + Z.to_nat ((m - from) / 256))%nat.
Proof.
  intros Hnd Hin Hfrom Hm Hfuel.
  set (cs := sort_Sort c).
  assert (Len cs = Len c) as Hlen by apply sort_Sort_Len.
  assert (forall k, (k < Len cs)%nat ->
                    offset (items cs !!! k) ∈ offsets c) as Hk.
  { intros k Hk. rewrite <- (sort_Sort_offsets c). fold cs.
    unfold offsets. apply list_elem_of_fmap. eexists. split; [done|].
    by apply list_elem_of_lookup_total_2. }
  destruct (Gaps_loop_bounded cs m) with (fuel := fuel) (first := from)
    (i := 0%nat) (res := @nil ResendEntry) as (r & Hr & Hl & Hend).
  - intros i j Hij. by apply sort_Sort_strict.
  - intros i Hi. specialize (Hin _ (Hk i Hi)). lia.
  - done.
  - lia.
  - lia.
  - intros H0. specialize (Hin _ (Hk 0%nat H0)). lia.
  - lia.
  - intros _. lia.
  - exists r, (heap_Init cs). split.
    + unfold Gaps. fold cs. by rewrite Hr.
    + destruct (decide (0 < Len cs)%nat) as [Hpos|Hz].
      * specialize (Hl Hpos). cbn [length] in Hl. lia.
      * rewrite (Hend ltac:(lia)). cbn [length]. lia.
Qed.

End GapsRounds.

Lemma Gaps_rounds_witness :
  exists res c',
    Queue.Gaps 3 (queue_single 0 0 (chunk 300)) 0 = Some (res, c') /\
    (length res
     <= Queue.Len (queue_single 0 0 (chunk 300))
        + Z.to_nat ((300 - 0) / 256))%nat.
Proof.
  apply (Gaps_rounds (queue_single 0 0 (chunk 300)) 0 300 3).
  - change (offsets (queue_single 0 0 (chunk 300))) with [300].
    apply NoDup_singleton.
  - change (offsets (queue_single 0 0 (chunk 300))) with [300].
    intros x Hx. apply list_elem_of_singleton in Hx as ->. lia.
  - lia.
  - lia.
  - vm_compute. lia.
Defined.

Section QueueOrder.
Import MsgV0 Queue.

(** [heap.Push], by which the client adds a received chunk, keeps the heap
    order of the queue. *)
Theorem heap_Push_heap_ordered (c : chunkQueue) (x : ServerPayload) :
  heap_ordered c = true -> heap_ordered (heap_Push c x) = true.
Proof.
  rewrite !heap_ordered_order. apply heap_Push_heap_order.
Qed.

(** [Top] pops the root and pushes it back: the queue holds the items it
    held, maybe in another order. *)
Theorem Top_Permutation (c : chunkQueue) : items (Top c).2 ≡ₚ items c.
Proof. exact (Top_items c). Qed.

(** [Top] leaves the queue in heap order. *)
Theorem Top_heap_ordered (c : chunkQueue) :
  heap_ordered c = true -> heap_ordered (Top c).2 = true.
Proof.
  rewrite !heap_ordered_order. apply Top_heap_order.
Qed.

(** [Top] only looks: asked again, it returns the same offset. *)
Theorem Top_twice (c : chunkQueue) :
  heap_ordered c = true -> (Top (Top c).2).1 = (Top c).1.
Proof.
  intros Hh.
  destruct (decide (Len c = 0)%nat) as [Hz|Hz].
  { assert (Top c = (0, c)) as Ht.
    { unfold Top. by rewrite bool_decide_eq_true_2 by lia. }
    rewrite Ht. cbn [fst snd]. by rewrite Ht. }
  assert (heap_ordered (Top c).2 = true) as Hh'.
  { apply heap_ordered_order, Top_heap_order. by apply heap_ordered_order. }
  pose proof (Top_items c) as Hperm.
  assert (Len (Top c).2 = Len c) as Hlen
    by (unfold Len; by rewrite Hperm).
  rewrite !Top_root by lia.
  assert (forall c1 c2 : chunkQueue,
            heap_ordered c1 = true -> items c1 ≡ₚ items c2 ->
            (0 < Len c2)%nat ->
            offset (items c1 !!! 0%nat) <= offset (items c2 !!! 0%nat))
    as Hle.
  { intros c1 c2 H1 Hp H2.
    assert (items c2 !!! 0%nat ∈ items c1) as Hin.
    { rewrite Hp. apply list_elem_of_lookup_total_2. done. }
    apply list_elem_of_lookup_total in Hin as (i & Hi & <-).
    by apply heap_ordered_root_min. }
  pose proof (Hle c (Top c).2 Hh (symmetry Hperm) ltac:(lia)).
  pose proof (Hle (Top c).2 c Hh' Hperm ltac:(lia)).
  lia.
Qed.

(** The queue [Gaps] leaves behind is in heap order and holds the items it
    held before: the later calls of [Top] and [heap.Push] find a heap
    again. *)
Theorem Gaps_heap_ordered (fuel : nat) (c : chunkQueue) (from : Z)
    (res : list ResendEntry) (c' : chunkQueue) :
  Gaps fuel c from = Some (res, c') ->
  heap_ordered c' = true /\ items c' ≡ₚ items c.
Proof.
  intros H. apply Gaps_queue in H as [H1 H2].
  by rewrite heap_ordered_order.
Qed.

(** A gap wider than 255 chunks is split, and the split loses a chunk: for
    a queue holding the one received offset [o], with 256 to 511 chunks
    missing in front of it from [from] on, [Gaps(from)] asks for the 255
    chunks from [from] on and for the chunks from [from + 256] on up to
    [o]; the chunk [from + 255] is missing and in neither run. *)
Theorem Gaps_split_skips (fi mx from : Z) (p : ServerPayload) :
  0 <= from -> offset p < 2 ^ 64 ->
  255 < offset p - from <= 511 ->
  (fst <$> Gaps 3 (queue_single fi mx p) from)
  = Some [mkResend fi from 255;
          mkResend fi (from + 256) (offset p - from - 256)]
  /\ (from + 255 ∉ offsets (queue_single fi mx p))
  /\ forall res c', Gaps 3 (queue_single fi mx p) from = Some (res, c') ->
                    times_covered (from + 255) res = 0%nat.
Proof.
  intros Hfrom Ho Hgap.
  assert (u64 (offset p - from) = offset p - from) as H1.
  { unfold u64. apply Z.mod_small. lia. }
  assert (u64 (from + (255 + 1)) = from + 256) as H2.
  { unfold u64. rewrite Z.mod_small by lia. lia. }
  assert (u64 (offset p - (from + 256)) = offset p - from - 256) as H3.
  { unfold u64. rewrite Z.mod_small by lia. lia. }
  assert (u8 (offset p - from - 256) = offset p - from - 256) as H4.
  { unfold u8. apply Z.mod_small. lia. }
  assert (Gaps 3 (queue_single fi mx p) from
          = Some ([mkResend fi from 255;
                   mkResend fi (from + 256) (offset p - from - 256)],
                  heap_Init (sort_Sort (queue_single fi mx p)))) as Hrun.
  { unfold Gaps.
    change (sort_Sort (queue_single fi mx p)) with (queue_single fi mx p).
    cbn [Gaps_loop]. unfold Len, queue_single.
    cbn [items length q_fileIndex lookup_total list_lookup_total].
    rewrite bool_decide_eq_true_2 by lia.
    rewrite H1. rewrite (bool_decide_eq_true_2 (255 < offset p - from)) by lia.
    rewrite H2, H3.
    rewrite (bool_decide_eq_false_2 (255 < offset p - from - 256)) by lia.
    cbn [skip_received]. unfold Len. cbn [items length Nat.sub].
    rewrite (bool_decide_eq_false_2 (1 < 0)%nat) by lia.
    rewrite (bool_decide_eq_false_2 (1 < 1)%nat) by lia.
    rewrite H4. done. }
  split; [by rewrite Hrun|]. split.
  - unfold offsets, queue_single. cbn. rewrite list_elem_of_singleton. lia.
  - intros res c' Hres. rewrite Hrun in Hres. injection Hres as <- _.
    unfold times_covered. cbn [filter list_filter].
    rewrite decide_False by (unfold covers; cbn; lia).
    rewrite decide_False by (unfold covers; cbn; lia). done.
Qed.

End QueueOrder.

Lemma heap_Push_heap_ordered_witness :
  heap_ordered queue_0 = true /\
  heap_ordered (Queue.heap_Push queue_0 (chunk 300)) = true.
Proof.
  assert (H : heap_ordered queue_0 = true) by reflexivity.
  split; [exact H|]. exact (heap_Push_heap_ordered queue_0 (chunk 300) H).
Defined.

Lemma Top_heap_ordered_witness :
  heap_ordered queue_0_300 = true /\
  heap_ordered (Queue.Top queue_0_300).2 = true.
Proof.
  assert (H : heap_ordered queue_0_300 = true) by reflexivity.
  split; [exact H|]. exact (Top_heap_ordered queue_0_300 H).
Defined.

Lemma Top_twice_witness :
  heap_ordered queue_0_300 = true /\
  (Queue.Top (Queue.Top queue_0_300).2).1 = (Queue.Top queue_0_300).1.
Proof.
  assert (H : heap_ordered queue_0_300 = true) by reflexivity.
  split; [exact H|]. exact (Top_twice queue_0_300 H).
Defined.

Lemma Gaps_heap_ordered_witness :
  exists res c',
    Queue.Gaps 4 queue_4_0_2 0 = Some (res, c') /\
    heap_ordered c' = true /\
    Queue.items c' ≡ₚ Queue.items queue_4_0_2.
Proof.
  eexists _, _. split; [reflexivity|].
  exact (Gaps_heap_ordered 4 queue_4_0_2 0 _ _ eq_refl).
Defined.

Lemma Gaps_split_skips_witness :
  (fst <$> Queue.Gaps 3 (queue_single 0 0 (chunk 300)) 0)
  = Some [MsgV0.mkResend 0 0 255; MsgV0.mkResend 0 (0 + 256) (300 - 0 - 256)]
  /\ (0 + 255 ∉ offsets (queue_single 0 0 (chunk 300)))
  /\ forall res c',
       Queue.Gaps 3 (queue_single 0 0 (chunk 300)) 0 = Some (res, c') ->
       times_covered (0 + 255) res = 0%nat.
Proof.
  apply (Gaps_split_skips 0 0 0 (chunk 300)).
  - lia.
  - cbn. lia.
  - cbn. lia.
Defined.

(** ** The payload of the second message file *)

Section PayloadV0.
Import MsgV0.

(** The second message file carries the ack number in the body of a payload:
    a payload whose file index and offset fit their fields is encoded in
    [10 + len(data)] bytes and decoded to itself; when it carries no data,
    the decoder leaves the receiver's [data] as it was. *)
Theorem ServerPayload_round_trip (m s0 : ServerPayload) (sp : list Z) :
  is_u16 (fileIndex m) -> 0 <= offset m <= maxFileOffset ->
  exists bs,
    ServerPayload_MarshalBinary m = Ok bs /\
    length bs = (10 + length (data m))%nat /\
    ServerPayload_UnmarshalBinary s0 (mkSlice bs sp)
    = Ok (mkPayload (fileIndex m) (ackNumber m) (offset m)
            (if decide (data m = []) then data s0 else data m)).
Proof.
  intros Hfi Hoff. unfold ServerPayload_MarshalBinary, sevenByteOffset.
  cbv zeta. cbn [mbind result_bind].
  eexists. split; [reflexivity|]. split.
  { rewrite !length_app. done. }
  unfold ServerPayload_UnmarshalBinary, slen.
  rewrite <- !app_assoc. unfold PutUint16, PutUint64. cbn [vis]. list_norm.
  rewrite (slice_in _ _ 0 2) by (list_norm; lia).
  list_norm. cbn [mbind result_bind vis]. rewrite Uint16_bytes by done.
  cbn [mbind result_bind].
  erewrite (index_in _ _ 2) by done. cbn [mbind result_bind].
  rewrite (slice_in _ _ 3 10) by (list_norm; lia).
  list_norm. cbn [mbind result_bind vis].
  pose proof (uintOffset_bytes (offset m) Hoff) as Hu.
  unfold Msg.uintOffset in Hu. unfold uintOffset. rewrite Hu.
  cbn [mbind result_bind].
  destruct (data m) as [|d ds] eqn:Hd.
  - cbn [length]. rewrite decide_False by lia. by rewrite decide_True.
  - rewrite decide_True by (cbn [length]; lia).
    rewrite slice_from_in by (cbn [length]; lia).
    cbn [mbind result_bind vis]. list_norm.
    by rewrite decide_False.
Qed.

End PayloadV0.

Lemma ServerPayload_round_trip_witness :
  exists bs,
    MsgV0.ServerPayload_MarshalBinary chunk_example = Ok bs /\
    length bs = (10 + length (MsgV0.data chunk_example))%nat /\
    MsgV0.ServerPayload_UnmarshalBinary (chunk 0) (mkSlice bs [7])
    = Ok (MsgV0.mkPayload (MsgV0.fileIndex chunk_example)
            (MsgV0.ackNumber chunk_example) (MsgV0.offset chunk_example)
            (if decide (MsgV0.data chunk_example = [])
             then MsgV0.data (chunk 0) else MsgV0.data chunk_example)).
Proof.
  apply (ServerPayload_round_trip chunk_example (chunk 0) [7]).
  - unfold is_u16. simpl. lia.
  - unfold MsgV0.maxFileOffset. simpl. lia.
Defined.

(** ** The ack of the second message file *)

Section AckV0.
Import MsgV0.

(** The encoder of the second message file never writes the offset of a
    resend entry: whatever offsets the entries of an ack are given, its
    encoding is the same, the ack's own offset standing in each entry. *)
Theorem ClientAck_MarshalBinary_entry_offsets (c : ClientAck)
    (g : ResendEntry -> Z) :
  ClientAck_MarshalBinary
    (mkAck (ca_ackNumber c) (ca_fileIndex c) (ca_status c)
       (ca_maxTransmissionRate c) (ca_offset c)
       ((fun re => mkResend (re_fileIndex re) (g re) (re_length re))
          <$> resendEntries c))
  = ClientAck_MarshalBinary c.
Proof.
  unfold ClientAck_MarshalBinary. cbv zeta.
  cbn [ca_ackNumber ca_fileIndex ca_status ca_maxTransmissionRate ca_offset
       resendEntries].
  unfold sevenByteOffset. cbn [mbind result_bind].
  generalize ((((([ca_ackNumber c] ++ PutUint16 (ca_fileIndex c)) ++
                 [ca_status c]) ++ PutUint32 (ca_maxTransmissionRate c)) ++
               drop 1 (PutUint64 (ca_offset c)))).
  induction (resendEntries c) as [|re es IH]; intros buf; [done|].
  cbn [fmap list_fmap foldM re_fileIndex re_length mbind result_bind].
  apply IH.
Qed.

End AckV0.
